(** * wheel/metadata.py: conversion between PKG-INFO and Metadata 2.0

    A shallow embedding of [src/wheel/metadata.py] and the properties its
    specification states about it.

    Python text is modelled by [string]; a character stands for the code
    point with the same number, so the model covers text whose code points
    are below 256.  The header block is the [email.message.Message] that
    [read_pkg_info] returns, for header values the reader hands out as
    native text.  Exceptions are values of [error], results of fallible
    code are in [result]. *)

From Stdlib Require Import String Ascii NArith List Bool Lia.
From stdpp Require Import base option list gmap strings.

Local Open Scope N_scope.

(** ** Exceptions *)

Inductive error :=
  | KeyError (key : string)
  | IndexError
  | AttributeError
  | TypeError.

Inductive result (A : Type) :=
  | Ok (a : A)
  | Raise (e : error).
Arguments Ok {A} a.
Arguments Raise {A} e.

#[global] Instance result_ret : MRet result := fun A a => Ok a.

#[global] Instance result_bind : MBind result := fun A B k r =>
  match r with
  | Ok a => k a
  | Raise e => Raise e
  end.

(** ** Python text primitives *)

Module Py.

Definition code (c : ascii) : N := N_of_ascii c.

Definition char_eqb (a b : ascii) : bool := Ascii.eqb a b.

Definition newline : ascii := ascii_of_N 10.
Definition squote : ascii := ascii_of_N 39.
Definition dquote : ascii := ascii_of_N 34.
Definition backslash : ascii := ascii_of_N 92.
Definition nl : string := String newline "".

(** [str.isspace] on one character. *)
Definition isspace (c : ascii) : bool :=
  let n := code c in
  ((9 <=? n) && (n <=? 13)) || ((28 <=? n) && (n <=? 32))
  || (n =? 133) || (n =? 160).

(** The line boundaries of [str.splitlines]. *)
Definition islinebreak (c : ascii) : bool :=
  let n := code c in
  ((10 <=? n) && (n <=? 13)) || ((28 <=? n) && (n <=? 30)) || (n =? 133).

(** [str.isprintable] on one character. *)
Definition isprintable (c : ascii) : bool :=
  let n := code c in
  negb ((n <? 32) || ((127 <=? n) && (n <=? 160)) || (n =? 173)).

Definition lower_char (c : ascii) : ascii :=
  let n := code c in
  if ((65 <=? n) && (n <=? 90))
     || ((192 <=? n) && (n <=? 222) && negb (n =? 215))
  then ascii_of_N (n + 32) else c.

Fixpoint map_chars (f : ascii → ascii) (s : string) : string :=
  match s with
  | EmptyString => EmptyString
  | String c s' => String (f c) (map_chars f s')
  end.

(** [s.lower()] *)
Definition lower (s : string) : string := map_chars lower_char s.

(** [s.replace(a, b)] for one-character [a] and [b]. *)
Definition replace (a b : ascii) (s : string) : string :=
  map_chars (fun c => if char_eqb c a then b else c) s.

(** [s.lstrip()] *)
Fixpoint lstrip (s : string) : string :=
  match s with
  | EmptyString => EmptyString
  | String c s' => if isspace c then lstrip s' else s
  end.

(** [s.rstrip()] *)
Fixpoint rstrip (s : string) : string :=
  match s with
  | EmptyString => EmptyString
  | String c s' =>
      match rstrip s' with
      | EmptyString => if isspace c then EmptyString else String c EmptyString
      | r => String c r
      end
  end.

(** [s.strip()] *)
Definition strip (s : string) : string := rstrip (lstrip s).

(** [s.partition(sep)] for a one-character [sep]: the text before the
    first [sep], the separator found (empty when there is none) and the
    text after it. *)
Fixpoint partition (sep : ascii) (s : string) : string * string * string :=
  match s with
  | EmptyString => (EmptyString, EmptyString, EmptyString)
  | String c s' =>
      if char_eqb c sep then (EmptyString, String sep EmptyString, s')
      else let '(before, found, after) := partition sep s' in
           (String c before, found, after)
  end.

(** [s.startswith(p)] *)
Fixpoint startswith (s p : string) {struct p} : bool :=
  match p, s with
  | EmptyString, _ => true
  | String b p', String a s' => char_eqb a b && startswith s' p'
  | String _ _, EmptyString => false
  end.

(** [s[len(p):]] when [s.startswith(p)]. *)
Fixpoint drop_prefix (p s : string) {struct p} : option string :=
  match p, s with
  | EmptyString, _ => Some s
  | String b p', String a s' =>
      if char_eqb a b then drop_prefix p' s' else None
  | String _ _, EmptyString => None
  end.

(** [sep.join(parts)] *)
Fixpoint join (sep : string) (parts : list string) : string :=
  match parts with
  | [] => EmptyString
  | [p] => p
  | p :: rest => p +:+ sep +:+ join sep rest
  end.

(** [s.split(sep)] for a one-character [sep]. *)
Fixpoint split (sep : ascii) (s : string) : list string :=
  match s with
  | EmptyString => [EmptyString]
  | String c s' =>
      if char_eqb c sep then EmptyString :: split sep s'
      else match split sep s' with
           | l :: ls => String c l :: ls
           | [] => [String c EmptyString]
           end
  end.

(** [s.splitlines()]: a carriage return followed by a line feed is one
    boundary, and a boundary at the very end opens no further line. *)
Fixpoint splitlines (s : string) : list string :=
  match s with
  | EmptyString => []
  | String c s' =>
      if islinebreak c then
        EmptyString ::
          match s' with
          | String d s'' =>
              if (code c =? 13) && (code d =? 10) then splitlines s''
              else splitlines s'
          | EmptyString => []
          end
      else match splitlines s' with
           | l :: ls => String c l :: ls
           | [] => [String c EmptyString]
           end
  end.

Fixpoint contains (c : ascii) (s : string) : bool :=
  match s with
  | EmptyString => false
  | String a s' => char_eqb a c || contains c s'
  end.

Definition hex_digit (n : N) : ascii :=
  if n <? 10 then ascii_of_N (48 + n) else ascii_of_N (87 + n).

(** One character of [repr(s)] inside the quotes [quote]. *)
Definition repr_char (quote c : ascii) : string :=
  if char_eqb c quote || char_eqb c backslash
  then String backslash (String c EmptyString)
  else if code c =? 9 then "\t"
  else if code c =? 10 then "\n"
  else if code c =? 13 then "\r"
  else if isprintable c then String c EmptyString
  else "\x" +:+ String (hex_digit (code c / 16))
                  (String (hex_digit (code c mod 16)) EmptyString).

Fixpoint repr_body (quote : ascii) (s : string) : string :=
  match s with
  | EmptyString => EmptyString
  | String c s' => repr_char quote c +:+ repr_body quote s'
  end.

(** [repr(s)]: single quotes, unless the text holds a single quote and
    no double quote. *)
Definition repr (s : string) : string :=
  let quote :=
    if contains squote s && negb (contains dquote s) then dquote
    else squote in
  String quote (repr_body quote s) +:+ String quote EmptyString.

(** *** [textwrap.dedent]

    The library first empties every line made only of blanks (spaces
    and tabs), then collects, for each line holding another character,
    the blanks in front of it, both by multi-line patterns; it folds the
    collected indents into the margin and cuts the margin from the front
    of each line that starts with it. *)

Definition isblank (c : ascii) : bool := (code c =? 32) || (code c =? 9).

Fixpoint all_chars (p : ascii → bool) (s : string) : bool :=
  match s with
  | EmptyString => true
  | String c s' => p c && all_chars p s'
  end.

(** [_whitespace_only_re.sub('', line)] on one line. *)
Definition blank_to_empty (line : string) : string :=
  if all_chars isblank line then EmptyString else line.

(** What [_leading_whitespace_re] finds on one line: the blanks before
    the first other character, when there is one. *)
Fixpoint leading_blanks (line : string) : option string :=
  match line with
  | EmptyString => None
  | String c s' =>
      if isblank c then String c <$> leading_blanks s'
      else Some EmptyString
  end.

(** [margin[:i]] at the first [i] where the two texts differ; [margin]
    when the shorter one runs out first. *)
Fixpoint cut_at_difference (margin indent : string) : string :=
  match margin, indent with
  | String x m', String y i' =>
      if char_eqb x y then String x (cut_at_difference m' i')
      else EmptyString
  | _, _ => margin
  end.

(** One turn of the loop over the indents. *)
Definition margin_step (margin : option string) (indent : string)
  : option string :=
  match margin with
  | None => Some indent
  | Some m =>
      if startswith indent m then Some m
      else if startswith m indent then Some indent
      else Some (cut_at_difference m indent)
  end.

(** [re.sub(r'(?m)^' + margin, '', line)] on one line. *)
Definition cut_margin (margin line : string) : string :=
  match drop_prefix margin line with
  | Some rest => rest
  | None => line
  end.

(** The loop over the indents: the margin, [None] when no line holds
    anything but blanks. *)
Definition dedent_margin (lines : list string) : option string :=
  fold_left margin_step (omap leading_blanks lines) None.

Definition dedent (text : string) : string :=
  let lines := map blank_to_empty (split newline text) in
  match dedent_margin lines with
  | Some (String c m) => join nl (map (cut_margin (String c m)) lines)
  | _ => join nl lines
  end.

End Py.

(** ** The pattern [EXTRA_RE]

    [re.compile("extra == '(?P<extra>.+)'")], applied with [match]: the
    text has to start with the literal part; the group is greedy, stays on
    one line, and gives back characters until a single quote follows. *)

(** The longest part of [s] that a single quote follows. *)
Fixpoint upto_last_quote (s : string) : option string :=
  match s with
  | EmptyString => None
  | String c s' =>
      match upto_last_quote s' with
      | Some p => Some (String c p)
      | None => if Py.char_eqb c Py.squote then Some EmptyString else None
      end
  end.

(** The text up to the first line feed. *)
Fixpoint first_line (s : string) : string :=
  match s with
  | EmptyString => EmptyString
  | String c s' =>
      if Py.char_eqb c Py.newline then EmptyString else String c (first_line s')
  end.

(** [EXTRA_RE.match(marker)], and [group('extra')] of the match. *)
Definition EXTRA_RE_match (marker : string) : option string :=
  match Py.drop_prefix "extra == '" marker with
  | Some rest =>
      match first_line rest with
      | String c s' => String c <$> upto_last_quote s'
      | EmptyString => None
      end
  | None => None
  end.

(** ** The header block

    [read_pkg_info] returns an [email.message.Message]: the headers in
    file order, keys compared without regard to case, and the text after
    the headers as payload. *)

Record Message := mkMessage {
  headers : list (string * string);
  payload : string
}.

Definition same_key (name : string) (kv : string * string) : bool :=
  String.eqb (Py.lower kv.1) (Py.lower name).

(** [msg.keys()] *)
Definition msg_keys (msg : Message) : list string := map fst (headers msg).

(** [msg.get(name)] and [msg[name]]: the first value, [None] without one. *)
Definition msg_get (msg : Message) (name : string) : option string :=
  snd <$> List.find (same_key name) (headers msg).

(** Every value of the headers called [name], in order. *)
Definition values_of (msg : Message) (name : string) : list string :=
  map snd (List.filter (same_key name) (headers msg)).

(** [msg.get_all(name)]: these values, [None] when there is none. *)
Definition msg_get_all (msg : Message) (name : string)
  : option (list string) :=
  match values_of msg name with
  | [] => None
  | vs => Some vs
  end.

(** [del msg[name]] *)
Definition msg_del (msg : Message) (name : string) : Message :=
  mkMessage (List.filter (fun kv => negb (same_key name kv)) (headers msg))
            (payload msg).

(** [msg[name] = value]: one more header at the end. *)
Definition msg_set (msg : Message) (name value : string) : Message :=
  mkMessage (headers msg ++ [(name, value)]) (payload msg).

(** The loop of [msg.replace_header]: the first header of that name keeps
    its key and takes the new value. *)
Fixpoint replace_first (name value : string) (hs : list (string * string))
  : option (list (string * string)) :=
  match hs with
  | [] => None
  | kv :: hs' =>
      if same_key name kv then Some ((kv.1, value) :: hs')
      else cons kv <$> replace_first name value hs'
  end.

(** [msg.replace_header(name, value)] *)
Definition msg_replace_header (msg : Message) (name value : string)
  : result Message :=
  match replace_first name value (headers msg) with
  | Some hs => Ok (mkMessage hs (payload msg))
  | None => Raise (KeyError (Py.lower name))
  end.

(** [msg.set_payload(text)] *)
Definition msg_set_payload (msg : Message) (text : string) : Message :=
  mkMessage (headers msg) text.

(** ** Python values of the document *)

#[warnings="-register-all"]
Inductive pyval :=
  | PNone
  | PStr (s : string)
  | PList (l : list pyval)
  | PDict (d : gmap string pyval).

(** A list of texts as a Python list. *)
Definition str_list (l : list string) : pyval := PList (PStr <$> l).

(** The truth value Python gives an object in [if]. *)
Definition truthy (v : pyval) : bool :=
  match v with
  | PNone => false
  | PStr s => negb (String.eqb s "")
  | PList l => match l with [] => false | _ => true end
  | PDict d => bool_decide (d ≠ ∅)
  end.

Definition opt_str (o : option string) : pyval :=
  match o with
  | Some s => PStr s
  | None => PNone
  end.

Definition opt_list (o : option (list string)) : pyval :=
  match o with
  | Some l => str_list l
  | None => PNone
  end.

(** ** Helpers of the module *)

Definition METADATA_VERSION : string := "2.0".

Definition PLURAL_FIELDS : gmap string string :=
  {[ "classifier" := "classifiers";
     "provides_dist" := "provides";
     "provides_extra" := "extras" ]}.

Definition SKIP_FIELDS : gset string := ∅.

(** Each role with its pieces, in the order the loop visits them. *)
Definition CONTACT_FIELDS : list (list (string * string) * string) :=
  [ ([("email", "author_email"); ("name", "author")], "author");
    ([("email", "maintainer_email"); ("name", "maintainer")], "maintainer") ].

Definition UNKNOWN_FIELDS : gset string :=
  {[ "author"; "author_email"; "platform"; "home_page"; "license" ]}.

(** [unique(iterable)], with the set [seen] of the generator. *)
Fixpoint unique_from (seen : gset string) (l : list string) : list string :=
  match l with
  | [] => []
  | value :: l' =>
      if decide (value ∈ seen) then unique_from seen l'
      else value :: unique_from ({[ value ]} ∪ seen) l'
  end.

Definition unique (l : list string) : list string := unique_from ∅ l.

(** [sorted(l)]: a stable sort, here by insertion. *)
Fixpoint insert_sorted {A} (le : A → A → bool) (x : A) (l : list A) : list A :=
  match l with
  | [] => [x]
  | y :: l' => if le x y then x :: l else y :: insert_sorted le x l'
  end.

Definition sorted_by {A} (le : A → A → bool) (l : list A) : list A :=
  foldr (insert_sorted le) [] l.

(** Python's order on [str]: by code point, then by length. *)
Definition sorted (l : list string) : list string := sorted_by String.leb l.

(** [sorted(d.items())]: the keys of a dict are distinct, so the order of
    the pairs is the order of their keys. *)
Definition sorted_items {V} (d : gmap string V) : list (string * V) :=
  sorted_by (fun p q => String.leb p.1 q.1) (map_to_list d).

(** Left fold of a step that may raise. *)
Fixpoint fold_result {A B} (f : A → B → result A) (l : list B) (a : A)
  : result A :=
  match l with
  | [] => Ok a
  | b :: l' => a' ← f a b; fold_result f l' a'
  end.

(** ** [dedent_description] *)

Definition dedent_description (pkg_info : Message) : result string :=
  match msg_get pkg_info "Description" with
  | None => Raise AttributeError
  | Some description =>
      match Py.splitlines description with
      | [] => Raise IndexError
      | first :: following =>
          Ok (Py.join Py.nl
                [Py.lstrip first; Py.dedent (Py.join Py.nl following); Py.nl])
      end
  end.

(** ** [pkginfo_to_dict] *)

(** One turn of the loop over the [Requires-Dist] values (lines 76-85). *)
Definition group_step (acc : list string * gmap string (list string))
    (value : string) : list string * gmap string (list string) :=
  let '(requirements, extra_requirements) := acc in
  let '(requirement, _, marker) := Py.partition ";" value in
  let marker := Py.strip marker in
  if negb (String.eqb marker "") then
    match EXTRA_RE_match marker with
    | Some extra_name =>
        (requirements,
         <[extra_name :=
             default [] (extra_requirements !! extra_name) ++ [requirement]]>
           extra_requirements)
    | None => acc
    end
  else (requirements ++ [requirement], extra_requirements).

Definition group_requirements (values : list string)
  : list string * gmap string (list string) :=
  fold_left group_step values ([], ∅).

(** [metadata['extras'].extend(more)] after the guard that creates the
    entry (lines 90-92 and 95-97). *)
Definition extend_extras (metadata : gmap string pyval) (more : list string)
  : result (gmap string pyval) :=
  let metadata :=
    match metadata !! "extras" with
    | None => <["extras" := PList []]> metadata
    | Some _ => metadata
    end in
  match metadata !! "extras" with
  | Some (PList l) => Ok (<["extras" := PList (l ++ (PStr <$> more))]> metadata)
  | Some _ => Raise AttributeError
  | None => Raise (KeyError "extras")
  end.

Definition may_require_entry (kv : string * list string) : pyval :=
  PDict {[ "extra" := PStr kv.1; "dependencies" := str_list kv.2 ]}.

(** Lines 74-92: the requirements of the [Requires-Dist] values go into
    the document. *)
Definition store_requirements (metadata : gmap string pyval)
    (values : list string) : result (gmap string pyval) :=
  let '(requirements, extra_requirements) := group_requirements values in
  let metadata := <["requires" := str_list requirements]> metadata in
  if bool_decide (extra_requirements ≠ ∅) then
    let metadata :=
      <["may_require" :=
          PList (may_require_entry <$> sorted_items extra_requirements)]>
        metadata in
    extend_extras metadata (fst <$> sorted_items extra_requirements)
  else Ok metadata.

(** The body of the loop over the keys (lines 62-103). *)
Definition process_key (pkg_info : Message) (metadata : gmap string pyval)
    (key : string) : result (gmap string pyval) :=
  let low_key := Py.replace "-" "_" key in
  if decide (low_key ∈ SKIP_FIELDS) then Ok metadata
  else if bool_decide (low_key ∈ UNKNOWN_FIELDS)
          && bool_decide (msg_get pkg_info key = Some "UNKNOWN")
  then Ok metadata
  else match PLURAL_FIELDS !! low_key with
  | Some plural =>
      Ok (<[plural := opt_list (msg_get_all pkg_info key)]> metadata)
  | None =>
      if String.eqb low_key "requires_dist" then
        match msg_get_all pkg_info key with
        | None => Raise TypeError
        | Some values => store_requirements metadata values
        end
      else if String.eqb low_key "provides_extra" then
        match msg_get_all pkg_info key with
        | None => Raise TypeError
        | Some values => extend_extras metadata values
        end
      else if String.eqb low_key "home_page" then
        Ok (<["project_urls" :=
                PDict {[ "Home" := opt_str (msg_get pkg_info key) ]}]> metadata)
      else Ok (<[low_key := opt_str (msg_get pkg_info key)]> metadata)
  end.

(** What a [for] loop sees in an object. *)
Definition iterate (v : pyval) : result (list pyval) :=
  match v with
  | PNone => Raise TypeError
  | PStr s => Ok ((fun c => PStr (String c EmptyString)) <$> list_ascii_of_string s)
  | PList l => Ok l
  | PDict d => Ok (PStr <$> (fst <$> map_to_list d))
  end.

(** The text of a value that [unique] and [sorted] accept among others. *)
Definition as_text (v : pyval) : result string :=
  match v with
  | PStr s => Ok s
  | _ => Raise TypeError
  end.

Fixpoint map_result {A B} (f : A → result B) (l : list A) : result (list B) :=
  match l with
  | [] => Ok []
  | a :: l' => b ← f a; bs ← map_result f l'; Ok (b :: bs)
  end.

(** [sorted(unique(v))] (line 107).  A lone [None] passes through; lists
    and dicts cannot enter the set of [unique], and [None] does not compare
    with a text. *)
Definition sorted_unique (v : pyval) : result pyval :=
  items ← iterate v;
  match items with
  | [PNone] => Ok (PList [PNone])
  | _ => texts ← map_result as_text items; Ok (str_list (sorted (unique texts)))
  end.

(** The attributes of the [distribution] object that hold a value. *)
Definition Distribution := gmap string pyval.

(** Lines 110-117. *)
Definition add_distribution_fields (distribution : option Distribution)
    (metadata : gmap string pyval) : gmap string pyval :=
  match distribution with
  | Some dist =>
      fold_left
        (fun metadata '(requires, attr) =>
           match dist !! attr with
           | Some requirements =>
               if truthy requirements
               then <[requires := requirements]> metadata
               else metadata
           | None => metadata
           end)
        [("test_requires", "tests_require")] metadata
  | None => metadata
  end.

(** [if field in metadata: contact[key] = metadata.pop(field)] (lines
    124-125). *)
Definition collect_piece (acc : gmap string pyval * gmap string pyval)
    (entry : string * string) : gmap string pyval * gmap string pyval :=
  let '(contact, metadata) := acc in
  let '(key, field) := entry in
  match metadata !! field with
  | Some piece => (<[key := piece]> contact, delete field metadata)
  | None => (contact, metadata)
  end.

(** The inner loop of the contact handling (lines 122-125): the pieces of
    one role move from the document into the contact. *)
Definition collect_contact (contact_type : list (string * string))
    (metadata : gmap string pyval)
  : gmap string pyval * gmap string pyval :=
  fold_left collect_piece contact_type (∅, metadata).

(** One turn of the outer loop (lines 121-128). *)
Definition contact_step (acc : list pyval * gmap string pyval)
    (entry : list (string * string) * string)
  : list pyval * gmap string pyval :=
  let '(contacts, metadata) := acc in
  let '(contact_type, role) := entry in
  let '(contact, metadata) := collect_contact contact_type metadata in
  if bool_decide (contact ≠ ∅)
  then (contacts ++ [PDict (<["role" := PStr role]> contact)], metadata)
  else (contacts, metadata).

(** Lines 119-130. *)
Definition handle_contacts (metadata : gmap string pyval)
  : gmap string pyval :=
  let '(contacts, metadata) :=
    fold_left contact_step CONTACT_FIELDS ([], metadata) in
  match contacts with
  | [] => metadata
  | _ => <["contacts" := PList contacts]> metadata
  end.

(** Lines 50-59: the description, and the header block the loop reads. *)
Definition take_description (pkg_info : Message)
  : result (gmap string pyval * Message) :=
  if truthy (opt_str (msg_get pkg_info "Description")) then
    description ← dedent_description pkg_info;
    Ok (<["description" := PStr description]> ∅, msg_del pkg_info "Description")
  else
    if truthy (PStr (payload pkg_info))
    then Ok (<["description" := PStr (payload pkg_info)]> ∅, pkg_info)
    else Ok (∅, pkg_info).

(** [pkginfo_to_dict(path, distribution)], from the header block read at
    [path]. *)
Definition pkginfo_to_dict (pkg_info : Message)
    (distribution : option Distribution) : result (gmap string pyval) :=
  '(metadata, pkg_info) ← take_description pkg_info;
  metadata ← fold_result (process_key pkg_info)
                (unique (Py.lower <$> msg_keys pkg_info)) metadata;
  let metadata := <["metadata_version" := PStr METADATA_VERSION]> metadata in
  extras ← match metadata !! "extras" with
           | Some v => sorted_unique v
           | None => Raise (KeyError "extras")
           end;
  let metadata := <["extras" := extras]> metadata in
  let metadata := add_distribution_fields distribution metadata in
  Ok (handle_contacts metadata).

(** ** [pkginfo_to_metadata] *)

(** What [pkg_resources.Requirement.parse] returns. *)
Record Requirement := mkRequirement {
  project_name : string;
  extras : list string;
  specs : list (string * string)
}.

Definition requires_to_requires_dist (requirement : Requirement) : string :=
  let requires_dist := (fun '(op, ver) => op +:+ ver) <$> specs requirement in
  match requires_dist with
  | [] => EmptyString
  | _ => " (" +:+ Py.join "," requires_dist +:+ ")"
  end.

(** Lines 156-159: the condition of a section of the listing. *)
Definition section_condition (extra : option string) : string :=
  if truthy (opt_str extra)
  then "; extra == " +:+ Py.repr (default EmptyString extra)
  else EmptyString.

(** Lines 162-169: the value of one [Requires-Dist] header. *)
Definition requires_dist_value (parsed_requirement : Requirement)
    (condition : string) : string :=
  let spec := requires_to_requires_dist parsed_requirement in
  let extras := Py.join "," (extras parsed_requirement) in
  let extras :=
    if truthy (PStr extras) then "[" +:+ extras +:+ "]" else extras in
  project_name parsed_requirement +:+ extras +:+ spec +:+ condition.

(** The composed line for a requirement under an optional extra. *)
Definition requires_dist_line (parsed_requirement : Requirement)
    (extra : option string) : string :=
  requires_dist_value parsed_requirement (section_condition extra).

(** The body of the loop over the sections (lines 156-169); the listing
    comes split into sections and parsed. *)
Definition add_section (pkg_info : Message)
    (section : option string * list Requirement) : Message :=
  let '(extra, reqs) := section in
  let pkg_info :=
    if truthy (opt_str extra)
    then msg_set pkg_info "Provides-Extra" (default EmptyString extra)
    else pkg_info in
  let condition := section_condition extra in
  fold_left
    (fun pkg_info req =>
       msg_set pkg_info "Requires-Dist" (requires_dist_value req condition))
    reqs pkg_info.

(** [pkginfo_to_metadata(egg_info_path, pkginfo_path)], from the header
    block read at [pkginfo_path] and the sections of [requires.txt], [None]
    when the directory has no such file. *)
Definition pkginfo_to_metadata
    (requires : option (list (option string * list Requirement)))
    (pkg_info : Message) : result Message :=
  pkg_info ← msg_replace_header pkg_info "Metadata-Version" "2.0";
  let pkg_info :=
    match requires with
    | Some sections => fold_left add_section sections pkg_info
    | None => pkg_info
    end in
  let description := msg_get pkg_info "Description" in
  if truthy (opt_str description) then
    normalized ← dedent_description pkg_info;
    Ok (msg_del (msg_set_payload pkg_info normalized) "Description")
  else Ok pkg_info.

(** ** Vocabulary of the statements *)

(** The two parts the grouping loop takes from a [Requires-Dist] value:
    the text before the first semicolon, and the stripped text after it. *)
Definition requirement_of (value : string) : string :=
  (Py.partition ";" value).1.1.

Definition marker_of (value : string) : string :=
  Py.strip (Py.partition ";" value).2.

Definition is_unconditional (value : string) : bool :=
  String.eqb (marker_of value) "".

Definition conditioned_on (name : string) (value : string) : bool :=
  negb (String.eqb (marker_of value) "")
  && bool_decide (EXTRA_RE_match (marker_of value) = Some name).

(** The composed line as the specification words it (section 4.3): the
    name, the bracketed extras, the parenthesized version specs and the
    condition [; extra == '<name>'], each segment only when it is not
    empty.  Kept apart from [requires_dist_line] to compare the two. *)
Definition spec_requires_dist_line (requirement : Requirement)
    (extra : option string) : string :=
  project_name requirement
  +:+ match extras requirement with
      | [] => ""
      | es => "[" +:+ Py.join "," es +:+ "]"
      end
  +:+ match specs requirement with
      | [] => ""
      | ss => "(" +:+ Py.join "," ((fun '(op, ver) => op +:+ ver) <$> ss) +:+ ")"
      end
  +:+ match extra with
      | Some name => "; extra == '" +:+ name +:+ "'"
      | None => ""
      end.

(** A name [repr] writes as it stands between single quotes: printable
    characters, no single quote, no backslash. *)
Definition plain_char (c : ascii) : bool :=
  Py.isprintable c && negb (Py.char_eqb c Py.squote)
  && negb (Py.char_eqb c Py.backslash).

Definition plain (name : string) : bool := Py.all_chars plain_char name.

(** A dict with one more entry when the piece is there. *)
Definition with_piece (key : string) (piece : option pyval)
    (d : gmap string pyval) : gmap string pyval :=
  match piece with
  | Some v => <[key := v]> d
  | None => d
  end.

(** The contact of a role: none without a piece, else one dict with the
    role and the pieces there are. *)
Definition contact_records (name email : option pyval) (role : string)
  : list pyval :=
  match name, email with
  | None, None => []
  | _, _ =>
      [PDict (<["role" := PStr role]>
                (with_piece "name" name (with_piece "email" email ∅)))]
  end.

(** The first character of a text satisfies [f]. *)
Definition starts_with_char (f : ascii → bool) (s : string) : bool :=
  match s with
  | String c _ => f c
  | EmptyString => false
  end.

(** What [dedent] makes of one line, given the margin: a line of blanks
    becomes empty, another line loses the margin it starts with. *)
Definition dedented (margin line out : string) : Prop :=
  if Py.all_chars Py.isblank line then out = ""
  else line = margin +:+ out.

(** The headers the reverse conversion adds for one section of the
    listing, and for the listing. *)
Definition section_headers (section : option string * list Requirement)
  : list (string * string) :=
  (if truthy (opt_str section.1)
   then [("Provides-Extra", default "" section.1)] else [])
  ++ ((λ req, ("Requires-Dist", requires_dist_line req section.1))
        <$> section.2).

Definition appended_headers
    (requires : option (list (option string * list Requirement)))
  : list (string * string) :=
  match requires with
  | Some sections => concat (section_headers <$> sections)
  | None => []
  end.

(** A header that is neither [Metadata-Version] nor [Description]. *)
Definition other_header (kv : string * string) : bool :=
  negb (same_key "Metadata-Version" kv) && negb (same_key "Description" kv).

(** The field name of a header key: lowered, hyphens as underscores. *)
Definition normalized (key : string) : string :=
  Py.replace "-" "_" (Py.lower key).

(** The rule of the loop that a lowered key falls under when its value is
    no placeholder. *)
Inductive field_rule :=
  | PluralRule (plural : string)
  | RequirementRule
  | HomePageRule
  | DefaultRule.

Definition rule_of (low_key : string) : field_rule :=
  match PLURAL_FIELDS !! low_key with
  | Some plural => PluralRule plural
  | None =>
      if String.eqb low_key "requires_dist" then RequirementRule
      else if String.eqb low_key "home_page" then HomePageRule
      else DefaultRule
  end.

(** The fields a key of that name may set. *)
Definition writes (low_key : string) : list string :=
  match rule_of low_key with
  | PluralRule plural => [plural]
  | RequirementRule => ["requires"; "may_require"; "extras"]
  | HomePageRule => ["project_urls"]
  | DefaultRule => [low_key]
  end.

(** The placeholder rule (line 67) for a lowered key. *)
Definition placeholder (pkg_info : Message) (key : string) : bool :=
  bool_decide (Py.replace "-" "_" key ∈ UNKNOWN_FIELDS)
  && bool_decide (msg_get pkg_info key = Some "UNKNOWN").

(** A header produces the field [f]: its key writes [f], and the first
    value of that key is no placeholder. *)
Definition produces (pkg_info : Message) (f : string)
    (kv : string * string) : bool :=
  bool_decide (f ∈ writes (normalized kv.1))
  && negb (placeholder pkg_info (Py.lower kv.1)).

Definition header_source (pkg_info : Message) (f : string) : bool :=
  existsb (produces pkg_info f) (headers pkg_info).

(** The header block gave the field [f] a value: a header produces it;
    or it is the description and there is a payload; or it is [contacts]
    and a header produces a contact piece. *)
Definition has_source (pkg_info : Message) (f : string) : bool :=
  header_source pkg_info f
  || (String.eqb f "description" && negb (String.eqb (payload pkg_info) ""))
  || (String.eqb f "contacts"
      && (header_source pkg_info "author"
          || header_source pkg_info "author_email"
          || header_source pkg_info "maintainer"
          || header_source pkg_info "maintainer_email")).

(** A header writes [f] and the first value of its key is empty. *)
Definition empty_source (pkg_info : Message) (f : string) : bool :=
  existsb
    (λ kv, bool_decide (f ∈ writes (normalized kv.1))
           && bool_decide (msg_get pkg_info kv.1 = Some ""))
    (headers pkg_info).

(** What holds of a field of the document and its value: it was given by
    the header block, and is empty only as [requires] or from an empty
    header value. *)
Definition given (pkg_info : Message) (f : string) (v : pyval) : Prop :=
  has_source pkg_info f = true
  ∧ (truthy v = false → f = "requires" ∨ empty_source pkg_info f = true).

(** A field of the document is accounted for: it is the version the
    conversion always sets, or the test requirements the distribution
    object supplies, or it is given by the header block. *)
Definition accounted (pkg_info : Message)
    (distribution : option Distribution) (f : string) (v : pyval) : Prop :=
  f = "metadata_version"
  ∨ (f = "test_requires"
     ∧ ∃ dist, distribution = Some dist
               ∧ dist !! "tests_require" = Some v ∧ truthy v = true)
  ∨ given pkg_info f v.

(** ** Tactics *)

(** Closed goals by evaluation. *)
Ltac evaluate := vm_compute; reflexivity.

(** [H : x ∈ [a; b; ...]] into one goal for each element. *)
Ltac in_cases H :=
  repeat (apply elem_of_cons in H as [H|H]);
  try (by apply elem_of_nil in H).

(** [x ∉ [a; b; ...]] for texts that differ from [x]. *)
Ltac not_in_list :=
  let H := fresh "Hin" in
  intros H; in_cases H; congruence.

(** ** Vocabulary of the further properties *)

(** The fields that a rule other than the default rule writes, or that
    the conversion sets or moves after the loop. *)
Definition reserved_fields : list string :=
  ["classifiers"; "provides"; "extras"; "requires"; "may_require";
   "project_urls"; "metadata_version"; "test_requires"; "author";
   "author_email"; "maintainer"; "maintainer_email"; "contacts";
   "description"].

(** The names that the document never has as fields: they are stored
    under another name or moved into the contacts. *)
Definition raw_names : list string :=
  ["home_page"; "classifier"; "provides_dist"; "provides_extra";
   "requires_dist"; "author"; "author_email"; "maintainer";
   "maintainer_email"].

(** What the loop keeps of the entry [extras]: it is absent, or a list of
    texts, or the text of a header called [Extras]. *)
Definition extras_shape (pkg_info : Message) (m : gmap string pyval) : Prop :=
  match m !! "extras" with
  | None => True
  | Some (PList l) => ∃ texts, l = PStr <$> texts
  | Some (PStr _) => ∃ kv, kv ∈ headers pkg_info ∧ normalized kv.1 = "extras"
  | Some _ => False
  end.

(** Ascending in the order of [sorted]: every text is at most those
    after it. *)
Fixpoint ascending (l : list string) : Prop :=
  match l with
  | [] => True
  | x :: l' => Forall (λ y, String.leb x y = true) l' ∧ ascending l'
  end.

(** The composed line of a requirement without a condition: the name, the
    bracketed extras and the version specs. *)
Definition base_line (req : Requirement) : string :=
  requires_dist_line req None.

(** The extra that conditions the lines of a section: none for the
    section without a name, and for an empty name (line 157). *)
Definition section_extra (extra : option string) : option string :=
  if truthy (opt_str extra) then extra else None.

(** The requirements that the listing has under an extra, in order. *)
Definition listed_under (name : option string)
    (sections : list (option string * list Requirement))
  : list Requirement :=
  concat (snd <$> List.filter
                    (λ section, bool_decide (section_extra section.1 = name))
                    sections).

(** A section that the forward conversion can read back: its name is
    written between single quotes as it stands, and its lines hold no
    semicolon of their own. *)
Definition well_named (section : option string * list Requirement) : Prop :=
  match section.1 with
  | Some name => plain name = true
  | None => True
  end
  ∧ Forall (λ req, Py.contains ";" (base_line req) = false) section.2.

(** The [Requires-Dist] values that the reverse conversion writes for a
    section of the listing. *)
Definition section_lines (section : option string * list Requirement)
  : list string :=
  (λ req, requires_dist_line req section.1) <$> section.2.

(** Two header blocks that differ in the case of their keys at most. *)
Definition same_up_to_case (a b : Message) : Prop :=
  payload a = payload b
  ∧ Forall2 (λ x y, Py.lower x.1 = Py.lower y.1 ∧ x.2 = y.2)
      (headers a) (headers b).

(** The names of the sections of a listing that have one, in order. *)
Definition section_names
    (sections : list (option string * list Requirement)) : list string :=
  omap (λ section, section_extra section.1) sections.

(** * Properties *)

(** ** Text *)

#[local] Arguments String.append !_ _ / : simpl nomatch.

Section text_facts.

Implicit Types (s t p : string) (c : ascii).

Lemma char_eqb_eq a b : Py.char_eqb a b = true ↔ a = b.
Proof. apply Ascii.eqb_eq. Qed.

Lemma char_eqb_refl a : Py.char_eqb a a = true.
Proof. by apply char_eqb_eq. Qed.

Lemma str_app_nil_r s : s +:+ "" = s.
Proof. induction s as [|c s IH]; simpl; [done | by rewrite IH]. Qed.

Lemma str_app_assoc s t p : (s +:+ t) +:+ p = s +:+ t +:+ p.
Proof. induction s as [|c s IH]; simpl; [done | by rewrite IH]. Qed.

Lemma drop_prefix_Some p s r : Py.drop_prefix p s = Some r ↔ s = p +:+ r.
Proof.
  revert s. induction p as [|b p IH]; intros s; simpl.
  - split; [by intros [= ->] | by intros ->].
  - destruct s as [|a s]; [split; discriminate|].
    destruct (Py.char_eqb a b) eqn:E.
    + apply char_eqb_eq in E as ->. rewrite IH.
      split; [by intros -> | by intros [= ->]].
    + split; [discriminate|]. intros [= -> _].
      by rewrite char_eqb_refl in E.
Qed.

Lemma startswith_drop_prefix s p :
  Py.startswith s p = true ↔ is_Some (Py.drop_prefix p s).
Proof.
  revert s. induction p as [|b p IH]; intros s; simpl.
  - split; eauto.
  - destruct s as [|a s]; [split; [discriminate | by intros [? [=]]]|].
    destruct (Py.char_eqb a b); simpl; [apply IH|].
    split; [discriminate | by intros [? [=]]].
Qed.

Lemma startswith_app s p : Py.startswith s p = true ↔ ∃ r, s = p +:+ r.
Proof.
  rewrite startswith_drop_prefix. unfold is_Some.
  by setoid_rewrite drop_prefix_Some.
Qed.

(** [partition]: the first part holds no separator and, with what
    follows, spells the text. *)
Lemma partition_spec sep s before found after :
  Py.partition sep s = (before, found, after) →
  s = before +:+ found +:+ after
  ∧ Py.contains sep before = false
  ∧ (found = String sep "" ∨ found = "" ∧ after = "").
Proof.
  revert before found after.
  induction s as [|c s IH]; intros before found after; simpl.
  - intros [= <- <- <-]. auto.
  - destruct (Py.char_eqb c sep) eqn:E.
    + apply char_eqb_eq in E as ->. intros [= <- <- <-]. auto.
    + destruct (Py.partition sep s) as [[b f] a] eqn:Hp.
      intros [= <- <- <-].
      destruct (IH _ _ _ eq_refl) as (-> & Hc & Hf).
      simpl. rewrite E, Hc. auto.
Qed.

Lemma partition_no_sep sep s :
  Py.contains sep s = false → Py.partition sep s = (s, "", "").
Proof.
  induction s as [|c s IH]; simpl; [done|].
  destruct (Py.char_eqb c sep); simpl; [done|].
  intros H. by rewrite (IH H).
Qed.

Lemma partition_at_sep sep before after :
  Py.contains sep before = false →
  Py.partition sep (before +:+ String sep after)
  = (before, String sep "", after).
Proof.
  induction before as [|c s IH]; simpl.
  - by rewrite char_eqb_refl.
  - destruct (Py.char_eqb c sep); simpl; [done|].
    intros H. by rewrite (IH H).
Qed.

End text_facts.

(** ** The pattern *)

Section pattern_facts.

Implicit Types (s t p : string) (c : ascii).

Lemma contains_app c s t :
  Py.contains c (s +:+ t) = Py.contains c s || Py.contains c t.
Proof.
  induction s as [|a s IH]; simpl; [done|].
  rewrite IH. by rewrite orb_assoc.
Qed.

Lemma upto_last_quote_None s :
  upto_last_quote s = None ↔ Py.contains Py.squote s = false.
Proof.
  induction s as [|a s IH]; simpl; [done|].
  destruct (upto_last_quote s) as [p|].
  - destruct (Py.contains Py.squote s); [|by destruct IH as [_ IH]; discriminate IH].
    rewrite orb_true_r. split; discriminate.
  - destruct IH as [IH _]. rewrite IH by done. rewrite orb_false_r.
    destruct (Py.char_eqb a Py.squote); split; done.
Qed.

Lemma upto_last_quote_Some s p :
  upto_last_quote s = Some p ↔
  ∃ t, s = p +:+ String Py.squote t ∧ Py.contains Py.squote t = false.
Proof.
  revert p. induction s as [|a s IH]; intros p; simpl.
  - split; [discriminate|]. intros (t & H & _). by destruct p.
  - destruct (upto_last_quote s) as [q|] eqn:Hq.
    + split.
      * intros [= <-]. destruct (proj1 (IH q) eq_refl) as (t & -> & Ht).
        by exists t.
      * intros (t & H & Ht). destruct p as [|b p]; simplify_eq/=.
        -- apply upto_last_quote_None in Ht. congruence.
        -- f_equal. f_equal.
           assert (Some q = Some p) as [= ->]; [|done].
           apply IH. by exists t.
    + apply upto_last_quote_None in Hq.
      assert (∀ u t, s = u +:+ String Py.squote t → False) as Hno.
      { intros u t ->. rewrite contains_app in Hq. simpl in Hq.
        by rewrite orb_true_r in Hq. }
      destruct (Py.char_eqb a Py.squote) eqn:E.
      * apply char_eqb_eq in E. subst a. split.
        -- intros [= <-]. by exists s.
        -- intros (t & H & Ht). destruct p as [|b p]; [done|].
           simplify_eq/=. by destruct (Hno p t).
      * split; [discriminate|]. intros (t & H & Ht).
        destruct p as [|b p]; simplify_eq/=. by destruct (Hno p t).
Qed.

Lemma first_line_no_newline s :
  Py.contains Py.newline (first_line s) = false.
Proof.
  induction s as [|a s IH]; simpl; [done|].
  destruct (Py.char_eqb a Py.newline) eqn:E; simpl; [done|].
  by rewrite E, IH.
Qed.

Lemma first_line_app s t :
  Py.contains Py.newline s = false →
  first_line (s +:+ t) = s +:+ first_line t.
Proof.
  induction s as [|a s IH]; simpl; [done|].
  destruct (Py.char_eqb a Py.newline); simpl; [done|].
  intros H. by rewrite IH.
Qed.

Lemma first_line_prefix s : ∃ t, s = first_line s +:+ t.
Proof.
  induction s as [|a s [t IH]]; simpl; [by exists ""|].
  destruct (Py.char_eqb a Py.newline); simpl.
  - by exists (String a s).
  - exists t. by rewrite <- IH.
Qed.

(** What a match of the pattern says about the marker: it starts with
    the literal part, the name is not empty and stays on one line, and a
    single quote follows the name. *)
Lemma EXTRA_RE_match_Some marker name :
  EXTRA_RE_match marker = Some name →
  name ≠ "" ∧ Py.contains Py.newline name = false
  ∧ ∃ tail, marker = "extra == '" +:+ name +:+ "'" +:+ tail.
Proof.
  unfold EXTRA_RE_match.
  destruct (Py.drop_prefix _ marker) as [rest|] eqn:Hd; [|done].
  apply drop_prefix_Some in Hd as ->.
  destruct (first_line rest) as [|c s'] eqn:Hl; [done|].
  destruct (upto_last_quote s') as [p|] eqn:Hq; [|done].
  intros [= <-]. apply upto_last_quote_Some in Hq as (t & -> & _).
  pose proof (first_line_no_newline rest) as Hn. rewrite Hl in Hn.
  simpl in Hn. rewrite contains_app in Hn.
  apply orb_false_iff in Hn as [Hc Hn]. apply orb_false_iff in Hn as [Hn _].
  split; [done|]. split; [simpl; by rewrite Hc, Hn|].
  destruct (first_line_prefix rest) as [u Hu]. rewrite Hl in Hu.
  exists (t +:+ u). rewrite Hu. simpl. by rewrite !str_app_assoc.
Qed.

(** Every marker of that form is matched (by the longest such name). *)
Lemma EXTRA_RE_match_form name tail :
  name ≠ "" → Py.contains Py.newline name = false →
  is_Some (EXTRA_RE_match ("extra == '" +:+ name +:+ "'" +:+ tail)).
Proof.
  intros Hne Hn. unfold EXTRA_RE_match.
  destruct (Py.drop_prefix _ _) as [rest|] eqn:Hd.
  2:{ assert (is_Some (None : option string)) as [? [=]].
      rewrite <- Hd. apply startswith_drop_prefix, startswith_app. eauto. }
  apply drop_prefix_Some in Hd. apply (inj (String.app _)) in Hd as <-.
  rewrite first_line_app by done.
  destruct name as [|c name]; [done|]. simpl.
  destruct (upto_last_quote _) as [p|] eqn:Hq; [by eexists|].
  apply upto_last_quote_None in Hq. rewrite contains_app in Hq.
  apply orb_false_iff in Hq as [_ Hq]. by simpl in Hq.
Qed.

(** The markers the pattern rejects are those not of the form. *)
Lemma EXTRA_RE_match_None marker :
  EXTRA_RE_match marker = None ↔
  ∀ name tail, marker = "extra == '" +:+ name +:+ "'" +:+ tail →
               name = "" ∨ Py.contains Py.newline name = true.
Proof.
  split.
  - intros Hm name tail ->.
    destruct name as [|c name]; [by left|right].
    destruct (Py.contains Py.newline (String c name)) eqn:Hn; [done|].
    destruct (EXTRA_RE_match_form (String c name) tail) as [e He];
      [done..|congruence].
  - intros H. destruct (EXTRA_RE_match marker) as [e|] eqn:He; [|done].
    apply EXTRA_RE_match_Some in He as (Hne & Hn & tail & ->).
    destruct (H e tail eq_refl) as [?|?]; congruence.
Qed.

End pattern_facts.

(** ** Requirement grouping *)

Section grouping.

Implicit Types (values : list string) (value name : string).

Lemma group_step_eq acc value :
  group_step acc value =
  if is_unconditional value
  then (acc.1 ++ [requirement_of value], acc.2)
  else match EXTRA_RE_match (marker_of value) with
       | Some name =>
           (acc.1, <[name := default [] (acc.2 !! name)
                               ++ [requirement_of value]]> acc.2)
       | None => acc
       end.
Proof.
  unfold group_step, is_unconditional, marker_of, requirement_of.
  destruct acc as [rs ex].
  destruct (Py.partition ";" value) as [[r f] m]. simpl.
  destruct (String.eqb (Py.strip m) ""); simpl; [done|].
  by destruct (EXTRA_RE_match _).
Qed.

Lemma group_requirements_snoc values value :
  group_requirements (values ++ [value])
  = group_step (group_requirements values) value.
Proof. unfold group_requirements. by rewrite fold_left_app. Qed.

Lemma fold_group_step_dropped acc value after :
  marker_of value ≠ "" → EXTRA_RE_match (marker_of value) = None →
  fold_left group_step (value :: after) acc = fold_left group_step after acc.
Proof.
  intros Hm He. simpl. rewrite group_step_eq. unfold is_unconditional.
  apply String.eqb_neq in Hm. by rewrite Hm, He.
Qed.

Lemma filter_snoc {A} (P : A → bool) (l : list A) (x : A) :
  List.filter P (l ++ [x]) = List.filter P l ++ (if P x then [x] else []).
Proof. rewrite List.filter_app. simpl. by destruct (P x). Qed.

Lemma conditioned_on_true name value :
  conditioned_on name value = true ↔
  marker_of value ≠ "" ∧ EXTRA_RE_match (marker_of value) = Some name.
Proof.
  unfold conditioned_on.
  rewrite andb_true_iff, negb_true_iff, String.eqb_neq, bool_decide_eq_true.
  done.
Qed.

(** The lists the loop builds, value by value. *)
Lemma group_requirements_spec values :
  (group_requirements values).1
  = requirement_of <$> List.filter is_unconditional values
  ∧ ∀ name,
      (group_requirements values).2 !! name
      = match List.filter (conditioned_on name) values with
        | [] => None
        | vs => Some (requirement_of <$> vs)
        end.
Proof.
  induction values as [|value values [IH1 IH2]] using rev_ind; [done|].
  rewrite group_requirements_snoc, group_step_eq, filter_snoc.
  setoid_rewrite filter_snoc.
  assert (∀ name, conditioned_on name value = false →
            match List.filter (conditioned_on name) values ++ [] with
            | [] => None
            | vs => Some (requirement_of <$> vs)
            end = (group_requirements values).2 !! name) as Hskip.
  { intros name _. by rewrite app_nil_r, IH2. }
  destruct (is_unconditional value) eqn:Hu; simpl.
  - split; [by rewrite IH1, fmap_app|]. intros name.
    destruct (conditioned_on name value) eqn:Hc; [|by rewrite Hskip].
    apply conditioned_on_true in Hc as [Hc _].
    unfold is_unconditional in Hu. by apply String.eqb_eq in Hu.
  - rewrite app_nil_r.
    destruct (EXTRA_RE_match (marker_of value)) as [e|] eqn:He; simpl.
    + split; [done|]. intros name.
      destruct (conditioned_on name value) eqn:Hc.
      * apply conditioned_on_true in Hc as [_ Hc].
        assert (e = name) as -> by congruence.
        rewrite lookup_insert_eq, IH2.
        destruct (List.filter (conditioned_on name) values) as [|v vs];
          [reflexivity|].
        simpl. do 2 f_equal. by rewrite fmap_app.
      * rewrite lookup_insert_ne; [by rewrite Hskip|].
        intros ->. apply not_true_iff_false in Hc. apply Hc.
        apply conditioned_on_true. split; [|done].
        unfold is_unconditional in Hu. by apply String.eqb_neq.
    + split; [done|]. intros name.
      destruct (conditioned_on name value) eqn:Hc; [|by rewrite Hskip].
      apply conditioned_on_true in Hc as [_ Hc]. congruence.
Qed.

End grouping.

(** C3, as the code has it: the pattern is matched at the start of the
    marker and is not anchored at its end.  A [Requires-Dist] value whose
    marker (the stripped text after the first semicolon) is not empty and
    does not begin with [extra == '<name>'], for a name that is not empty
    and holds no line feed, leaves no trace in the grouping: the
    unconditional list and every bucket are what they are without that
    value.  A value whose marker begins with that form, whatever follows
    it, is not dropped: its requirement part is appended to the bucket of
    the name that the pattern finds.  The grouping is a total function, so
    nothing is raised. *)
Theorem unrecognized_marker_dropped (value : string) :
  marker_of value ≠ "" →
  ((∀ name tail,
      marker_of value = "extra == '" +:+ name +:+ "'" +:+ tail →
      name = "" ∨ Py.contains Py.newline name = true) →
   ∀ before after,
     group_requirements (before ++ value :: after)
     = group_requirements (before ++ after))
  ∧ (∀ name tail,
       marker_of value = "extra == '" +:+ name +:+ "'" +:+ tail →
       name ≠ "" → Py.contains Py.newline name = false →
       ∃ extra,
         EXTRA_RE_match (marker_of value) = Some extra
         ∧ ∀ before,
             (group_requirements (before ++ [value])).1
             = (group_requirements before).1
             ∧ (group_requirements (before ++ [value])).2 !! extra
               = Some (default [] ((group_requirements before).2 !! extra)
                       ++ [requirement_of value])).
Proof.
  intros Hm. split.
  - intros Hform before after. unfold group_requirements.
    rewrite !fold_left_app. apply fold_group_step_dropped; [done|].
    by apply EXTRA_RE_match_None.
  - intros name tail Hform Hne Hn.
    destruct (EXTRA_RE_match_form name tail Hne Hn) as [extra He].
    rewrite <- Hform in He. exists extra. split; [done|]. intros before.
    rewrite group_requirements_snoc, group_step_eq. unfold is_unconditional.
    apply String.eqb_neq in Hm. rewrite Hm, He. cbn [fst snd].
    by rewrite lookup_insert_eq.
Qed.

Lemma unrecognized_marker_dropped_witness :
  marker_of "zzz; python_version < '3'" ≠ ""
  ∧ group_requirements
      (["foo>=1.0"] ++ "zzz; python_version < '3'" :: ["bar; extra == 'dev'"])
    = group_requirements (["foo>=1.0"] ++ ["bar; extra == 'dev'"]).
Proof.
  split; [by vm_compute|].
  apply (unrecognized_marker_dropped "zzz; python_version < '3'");
    [by vm_compute|].
  intros name tail H. vm_compute in H. discriminate H.
Defined.

(** C3, against the wording of the specification: the marker
    [extra == 'dev' and os_name == "nt"] is not empty and is not of the
    form [extra == '<name>'], yet the requirement is not dropped: it is in
    the bucket of [dev]. *)
Lemma marker_with_more_not_dropped :
  marker_of ("bar; extra == 'dev' and os_name == "
             +:+ String Py.dquote "nt" +:+ String Py.dquote "")
  = "extra == 'dev' and os_name == "
    +:+ String Py.dquote "nt" +:+ String Py.dquote ""
  ∧ (∀ name,
       marker_of ("bar; extra == 'dev' and os_name == "
                  +:+ String Py.dquote "nt" +:+ String Py.dquote "")
       ≠ "extra == '" +:+ name +:+ "'")
  ∧ group_requirements
      ["bar; extra == 'dev' and os_name == "
       +:+ String Py.dquote "nt" +:+ String Py.dquote ""]
    = ([], {[ "dev" := ["bar"] ]})
  ∧ group_requirements
      ["bar; extra == 'dev' and os_name == "
       +:+ String Py.dquote "nt" +:+ String Py.dquote ""]
    ≠ group_requirements [].
Proof.
  split; [evaluate|]. split; [|split; [evaluate|by vm_compute]].
  intros name H. vm_compute in H.
  do 30 (destruct name as [|? name]; [discriminate H|];
         injection H as <- H || discriminate H).
Qed.

(** C10: the requirement part of a [Requires-Dist] value is the text
    before the first semicolon as it stands; only the marker is stripped.
    The unconditional list holds these parts of the values without a
    marker, each bucket those of the values conditioned on its extra, in
    the order of the values; so ["foo ; extra == 'x'"] puts ["foo "] in the
    bucket of [x], and ["foo ;"] puts ["foo "] in the unconditional list. *)
Theorem requirement_part_verbatim :
  (∀ values : list string,
     (group_requirements values).1
     = requirement_of <$> List.filter is_unconditional values
     ∧ ∀ name,
         default [] ((group_requirements values).2 !! name)
         = requirement_of <$> List.filter (conditioned_on name) values)
  ∧ (∀ value : string,
       ∃ rest,
         value = requirement_of value +:+ rest
         ∧ Py.contains ";" (requirement_of value) = false
         ∧ (rest = "" ∧ marker_of value = ""
            ∨ ∃ m, rest = String ";" m ∧ marker_of value = Py.strip m))
  ∧ group_requirements ["foo ; extra == 'x'"] = ([], {[ "x" := ["foo "] ]})
  ∧ group_requirements ["foo ;"] = (["foo "], ∅).
Proof.
  split; [|split; [|split; by vm_compute]].
  - intros values. destruct (group_requirements_spec values) as [H1 H2].
    split; [done|]. intros name. rewrite H2.
    by destruct (List.filter (conditioned_on name) values).
  - intros value. unfold requirement_of, marker_of.
    destruct (Py.partition ";" value) as [[r f] m] eqn:Hp.
    apply partition_spec in Hp as (-> & Hc & [->|[-> ->]]); simpl.
    + exists (String ";" m). split; [done|]. split; [done|]. right. eauto.
    + exists "". split; [done|]. split; [done|]. by left.
Qed.

(** ** Composing a [Requires-Dist] line *)

Section composing.

Lemma repr_char_plain c :
  plain_char c = true → Py.repr_char Py.squote c = String c "".
Proof.
  unfold plain_char, Py.repr_char.
  rewrite !andb_true_iff, !negb_true_iff. intros [[Hp ->] ->]. simpl.
  unfold Py.isprintable in *. rewrite Hp.
  apply negb_true_iff, orb_false_iff in Hp as [Hp _].
  apply orb_false_iff in Hp as [Hp _]. apply N.ltb_ge in Hp.
  destruct (N.eqb_spec (Py.code c) 9) as [E|_]; [lia|].
  destruct (N.eqb_spec (Py.code c) 10) as [E|_]; [lia|].
  destruct (N.eqb_spec (Py.code c) 13) as [E|_]; [lia|]. done.
Qed.

Lemma repr_body_plain name :
  plain name = true → Py.repr_body Py.squote name = name.
Proof.
  induction name as [|c name IH]; simpl; [done|].
  intros [Hc Hn]%andb_true_iff. by rewrite repr_char_plain, IH.
Qed.

Lemma plain_no_squote name :
  plain name = true → Py.contains Py.squote name = false.
Proof.
  induction name as [|c name IH]; simpl; [done|].
  intros [Hc Hn]%andb_true_iff. rewrite IH by done.
  unfold plain_char in Hc. rewrite !andb_true_iff, !negb_true_iff in Hc.
  by destruct Hc as [[_ ->] _].
Qed.

Lemma repr_plain name :
  plain name = true → Py.repr name = "'" +:+ name +:+ "'".
Proof.
  intros H. unfold Py.repr. rewrite plain_no_squote by done. simpl.
  by rewrite repr_body_plain.
Qed.

Lemma join_empty sep (parts : list string) :
  Forall (λ p, p ≠ "") parts → Py.join sep parts = "" → parts = [].
Proof.
  destruct parts as [|p parts]; [done|].
  intros [Hp _]%Forall_cons. simpl.
  destruct parts; [done|]. by destruct p.
Qed.

End composing.

(** C4, as the code has it: the composed line is the project name; then
    the comma-joined extras in brackets, when they join to a text that is
    not empty; then, when there is a version spec, a space and the
    comma-joined operator-version pairs in parentheses, each pair without
    a separator; then, when an extra name that is not empty was given,
    [; extra == ] and the name as [repr] writes it, which for a name of
    printable characters without single quote and backslash is the name
    between single quotes.  Extras that are all non-empty names join to
    the empty text only when there is none. *)
Theorem requires_dist_line_shape (requirement : Requirement)
    (extra : option string) :
  requires_dist_line requirement extra
  = project_name requirement
    +:+ (if String.eqb (Py.join "," (extras requirement)) "" then ""
         else "[" +:+ Py.join "," (extras requirement) +:+ "]")
    +:+ match specs requirement with
        | [] => ""
        | ss => " (" +:+ Py.join "," ((λ p, p.1 +:+ p.2) <$> ss) +:+ ")"
        end
    +:+ match extra with
        | Some name =>
            if String.eqb name "" then "" else "; extra == " +:+ Py.repr name
        | None => ""
        end
  ∧ (∀ name, plain name = true → Py.repr name = "'" +:+ name +:+ "'")
  ∧ (Forall (λ e, e ≠ "") (extras requirement) →
     Py.join "," (extras requirement) = "" → extras requirement = []).
Proof.
  split; [|split; [apply repr_plain | apply join_empty]].
  unfold requires_dist_line, requires_dist_value, requires_to_requires_dist,
    section_condition.
  f_equal. f_equal.
  { simpl. destruct (String.eqb _ "") eqn:E; [|done].
    by apply String.eqb_eq in E. }
  f_equal.
  - destruct (specs requirement) as [|[op ver] ss]; [done|].
    do 3 f_equal. simpl. f_equal. apply list_fmap_ext. by intros ? [??].
  - destruct extra as [name|]; [|done]. simpl. by destruct (String.eqb name "").
Qed.

(** C4, against the wording of the specification: with a version spec the
    composed line has a space in front of the parenthesis. *)
Lemma requires_dist_line_not_as_specified :
  requires_dist_line (mkRequirement "foo" [] [(">=", "1.0")]) None
  = "foo (>=1.0)"
  ∧ spec_requires_dist_line (mkRequirement "foo" [] [(">=", "1.0")]) None
    = "foo(>=1.0)"
  ∧ requires_dist_line (mkRequirement "foo" [] [(">=", "1.0")]) None
    ≠ spec_requires_dist_line (mkRequirement "foo" [] [(">=", "1.0")]) None.
Proof. by vm_compute. Qed.

(** ** Contacts *)

Section contacts.

Implicit Types (metadata contact : gmap string pyval) (key field : string).

Lemma collect_piece_eq metadata contact key field :
  collect_piece (contact, metadata) (key, field)
  = (with_piece key (metadata !! field) contact, delete field metadata).
Proof.
  unfold collect_piece.
  destruct (metadata !! field) eqn:H; simpl; [done|].
  by rewrite delete_id.
Qed.

Lemma collect_contact_eq metadata email_field name_field :
  email_field ≠ name_field →
  collect_contact [("email", email_field); ("name", name_field)] metadata
  = (with_piece "name" (metadata !! name_field)
       (with_piece "email" (metadata !! email_field) ∅),
     delete name_field (delete email_field metadata)).
Proof.
  intros Hne. unfold collect_contact. cbn [fold_left].
  rewrite !collect_piece_eq. by rewrite lookup_delete_ne.
Qed.

Lemma contact_step_eq metadata email_field name_field role
    (contacts : list pyval) :
  email_field ≠ name_field →
  contact_step (contacts, metadata)
    ([("email", email_field); ("name", name_field)], role)
  = (contacts ++ contact_records (metadata !! name_field)
                   (metadata !! email_field) role,
     delete name_field (delete email_field metadata)).
Proof.
  intros Hne. unfold contact_step. rewrite collect_contact_eq by done.
  unfold contact_records.
  destruct (metadata !! name_field) as [n|], (metadata !! email_field) as [e|];
    simpl.
  - rewrite bool_decide_eq_true_2; [done|]. apply insert_non_empty.
  - rewrite bool_decide_eq_true_2; [done|]. apply insert_non_empty.
  - rewrite bool_decide_eq_true_2; [done|]. apply insert_non_empty.
  - rewrite bool_decide_eq_false_2; [by rewrite app_nil_r|]. by intros [].
Qed.

(** The closed form of the contact handling. *)
Lemma handle_contacts_eq metadata :
  handle_contacts metadata
  = let contacts :=
      contact_records (metadata !! "author") (metadata !! "author_email")
        "author"
      ++ contact_records (metadata !! "maintainer")
           (metadata !! "maintainer_email") "maintainer" in
    let rest :=
      delete "maintainer" (delete "maintainer_email"
        (delete "author" (delete "author_email" metadata))) in
    match contacts with
    | [] => rest
    | _ => <["contacts" := PList contacts]> rest
    end.
Proof.
  unfold handle_contacts, CONTACT_FIELDS. cbn [fold_left].
  rewrite !contact_step_eq by done. cbn [app].
  by rewrite !lookup_delete_ne by done.
Qed.

(** A contact holds the role and the pieces, and nothing else. *)
Lemma contact_dict_lookup name email role key :
  (<["role" := PStr role]>
     (with_piece "name" name (with_piece "email" email ∅))) !! key
  = if decide (key = "role") then Some (PStr role)
    else if decide (key = "name") then name
    else if decide (key = "email") then email
    else None.
Proof.
  destruct (decide (key = "role")) as [->|?]; [by rewrite lookup_insert_eq|].
  rewrite lookup_insert_ne by done.
  destruct (decide (key = "name")) as [->|?].
  { destruct name; simpl; [by rewrite lookup_insert_eq|].
    by destruct email; simpl. }
  destruct (decide (key = "email")) as [->|?].
  { destruct name; simpl; [rewrite lookup_insert_ne by done|];
      by destruct email; simpl; rewrite ?lookup_insert_eq. }
  destruct name; simpl; [rewrite lookup_insert_ne by done|];
    destruct email; simpl; by rewrite ?lookup_insert_ne by done.
Qed.

End contacts.

(** C7: the contact handling, for any document: the contacts are the
    record of the author, when the document holds [author] or
    [author_email], followed by the record of the maintainer, when it holds
    [maintainer] or [maintainer_email]; a record holds its role, under
    [name] and [email] the pieces the document held, and nothing else; the
    four fields leave the document, and [contacts] is set when there is a
    record.  With [Author: Jane Doe] and [Author-email: jane@x.org] alone
    the contacts are the one record of the specification. *)
Theorem contacts_consolidated :
  (∀ metadata : gmap string pyval,
     let contacts :=
       contact_records (metadata !! "author") (metadata !! "author_email")
         "author"
       ++ contact_records (metadata !! "maintainer")
            (metadata !! "maintainer_email") "maintainer" in
     let rest :=
       delete "maintainer" (delete "maintainer_email"
         (delete "author" (delete "author_email" metadata))) in
     handle_contacts metadata
     = match contacts with
       | [] => rest
       | _ => <["contacts" := PList contacts]> rest
       end)
  ∧ (∀ name email role,
       contact_records name email role = [] ↔ name = None ∧ email = None)
  ∧ (∀ name email role record,
       record ∈ contact_records name email role →
       ∃ d, record = PDict d
            ∧ d !! "role" = Some (PStr role)
            ∧ d !! "name" = name
            ∧ d !! "email" = email
            ∧ ∀ key, key ≠ "role" → key ≠ "name" → key ≠ "email" →
                     d !! key = None)
  ∧ handle_contacts
      {[ "author" := PStr "Jane Doe"; "author_email" := PStr "jane@x.org";
         "name" := PStr "pkg" ]}
    = {[ "name" := PStr "pkg";
         "contacts" :=
           PList [PDict {[ "name" := PStr "Jane Doe";
                           "email" := PStr "jane@x.org";
                           "role" := PStr "author" ]}] ]}.
Proof.
  split; [apply handle_contacts_eq|]. split; [|split].
  - intros name email role. unfold contact_records.
    destruct name, email; split; try done; try (by intros [[=] _]);
      by intros [_ [=]].
  - intros name email role record Hin.
    assert (record = PDict (<["role" := PStr role]>
              (with_piece "name" name (with_piece "email" email ∅)))) as ->.
    { unfold contact_records in Hin.
      destruct name, email; try (by apply list_elem_of_singleton in Hin);
        by apply elem_of_nil in Hin. }
    eexists. split; [done|].
    repeat split; try (by rewrite contact_dict_lookup).
    intros key ???. rewrite contact_dict_lookup.
    by repeat case_decide.
  - evaluate.
Qed.

(** ** Lines, margins and [dedent] *)

Section dedent_facts.

Implicit Types (s t p m : string) (c : ascii) (ls : list string).

Lemma startswith_refl s : Py.startswith s s = true.
Proof. apply startswith_app. exists "". by rewrite str_app_nil_r. Qed.

Lemma startswith_nil s : Py.startswith s "" = true.
Proof. done. Qed.

Lemma startswith_trans s t p :
  Py.startswith s t = true → Py.startswith t p = true →
  Py.startswith s p = true.
Proof.
  rewrite !startswith_app. intros [r ->] [r' ->].
  exists (r' +:+ r). by rewrite str_app_assoc.
Qed.

Lemma startswith_cons a s b p :
  Py.startswith (String a s) (String b p)
  = Py.char_eqb a b && Py.startswith s p.
Proof. done. Qed.

Lemma all_chars_app f s t :
  Py.all_chars f (s +:+ t) = Py.all_chars f s && Py.all_chars f t.
Proof.
  induction s as [|a s IH]; simpl; [done|]. by rewrite IH, andb_assoc.
Qed.

Lemma all_blank_prefix s p :
  Py.startswith s p = true → Py.all_chars Py.isblank s = true →
  Py.all_chars Py.isblank p = true.
Proof.
  intros [r ->]%startswith_app. rewrite all_chars_app.
  by intros [? _]%andb_true_iff.
Qed.

(** *** The indent of a line *)

Lemma leading_blanks_None s :
  Py.leading_blanks s = None ↔ Py.all_chars Py.isblank s = true.
Proof.
  induction s as [|a s IH]; simpl; [done|].
  destruct (Py.isblank a); simpl; [|done].
  rewrite <- IH. by destruct (Py.leading_blanks s).
Qed.

Lemma leading_blanks_Some s ind :
  Py.leading_blanks s = Some ind →
  Py.startswith s ind = true
  ∧ Py.all_chars Py.isblank ind = true
  ∧ ∀ p, Py.all_chars Py.isblank p = true → Py.startswith s p = true →
         Py.startswith ind p = true.
Proof.
  revert ind. induction s as [|a s IH]; intros ind; simpl; [done|].
  destruct (Py.isblank a) eqn:Ha.
  - destruct (Py.leading_blanks s) as [i|]; [|done]. intros [= <-].
    destruct (IH i eq_refl) as (H1 & H2 & H3).
    rewrite startswith_cons, char_eqb_refl. simpl. rewrite Ha.
    repeat split; [done..|].
    intros [|b p]; [done|]. simpl.
    intros [_ Hp]%andb_true_iff [-> Hs]%andb_true_iff. simpl. by apply H3.
  - intros [= <-]. repeat split.
    intros [|b p]; [done|]. simpl.
    intros [Hb _]%andb_true_iff [Hab _]%andb_true_iff.
    apply char_eqb_eq in Hab as ->. congruence.
Qed.

Lemma leading_blanks_blank_to_empty s :
  Py.leading_blanks (Py.blank_to_empty s) = Py.leading_blanks s.
Proof.
  unfold Py.blank_to_empty.
  destruct (Py.all_chars Py.isblank s) eqn:H; [|done].
  symmetry. by apply leading_blanks_None.
Qed.

(** *** The margin *)

Lemma cut_at_difference_prefix m i :
  Py.startswith m (Py.cut_at_difference m i) = true.
Proof.
  revert i. induction m as [|x m IH]; intros [|y i]; simpl;
    rewrite ?char_eqb_refl, ?startswith_refl; try done.
  destruct (Py.char_eqb x y); simpl; [|done].
  by rewrite char_eqb_refl, IH.
Qed.

Lemma cut_at_difference_glb m i :
  Py.startswith m i = false →
  Py.startswith i (Py.cut_at_difference m i) = true
  ∧ ∀ p, Py.startswith m p = true → Py.startswith i p = true →
         Py.startswith (Py.cut_at_difference m i) p = true.
Proof.
  revert i. induction m as [|x m IH]; intros [|y i]; simpl; try done.
  destruct (Py.char_eqb x y) eqn:E; simpl.
  - apply char_eqb_eq in E as ->. intros H.
    destruct (IH i H) as [H1 H2]. rewrite char_eqb_refl. simpl.
    split; [done|]. intros [|b p]; [done|]. simpl.
    intros [-> Hm]%andb_true_iff [_ Hi]%andb_true_iff. simpl. by apply H2.
  - intros _. split; [done|]. intros [|b p]; [done|]. simpl.
    intros [Hx _]%andb_true_iff [Hy _]%andb_true_iff.
    apply char_eqb_eq in Hx, Hy. subst.
    by rewrite char_eqb_refl in E.
Qed.

(** One turn of the loop keeps the longest common start of the margin
    and the indent. *)
Lemma margin_step_glb m i :
  ∃ m', Py.margin_step (Some m) i = Some m'
        ∧ Py.startswith m m' = true ∧ Py.startswith i m' = true
        ∧ ∀ p, Py.startswith m p = true → Py.startswith i p = true →
               Py.startswith m' p = true.
Proof.
  unfold Py.margin_step.
  destruct (Py.startswith i m) eqn:H1.
  { exists m. by rewrite startswith_refl. }
  destruct (Py.startswith m i) eqn:H2.
  { exists i. by rewrite startswith_refl. }
  exists (Py.cut_at_difference m i).
  destruct (cut_at_difference_glb m i H2) as [H3 H4].
  by rewrite cut_at_difference_prefix.
Qed.

Lemma fold_margin_step_glb indents m :
  ∃ m', fold_left Py.margin_step indents (Some m) = Some m'
        ∧ Py.startswith m m' = true
        ∧ Forall (λ i, Py.startswith i m' = true) indents
        ∧ ∀ p, Py.startswith m p = true →
               Forall (λ i, Py.startswith i p = true) indents →
               Py.startswith m' p = true.
Proof.
  revert m. induction indents as [|i indents IH]; intros m.
  { exists m. by rewrite startswith_refl. }
  cbn [fold_left].
  destruct (margin_step_glb m i) as (m1 & -> & Hm & Hi & Hg).
  destruct (IH m1) as (m' & -> & Hm1 & Hall & Hg').
  exists m'. split; [done|]. split; [by eapply startswith_trans|].
  split.
  - constructor; [by eapply startswith_trans|done].
  - intros p Hp [Hpi Hpr]%Forall_cons. apply Hg'; [|done]. by apply Hg.
Qed.

(** The margin of a list of lines: made of blanks, a start of every line
    that holds something else, and the longest such text. *)
Lemma dedent_margin_spec ls :
  let margin := default "" (Py.dedent_margin ls) in
  Py.all_chars Py.isblank margin = true
  ∧ Forall (λ l, Py.all_chars Py.isblank l = false →
                 Py.startswith l margin = true) ls
  ∧ ∀ p, Py.all_chars Py.isblank p = true →
         Forall (λ l, Py.all_chars Py.isblank l = false →
                      Py.startswith l p = true) ls →
         Exists (λ l, Py.all_chars Py.isblank l = false) ls →
         Py.startswith margin p = true.
Proof.
  unfold Py.dedent_margin.
  assert (Forall (λ i, ∃ l, l ∈ ls ∧ Py.leading_blanks l = Some i)
            (omap Py.leading_blanks ls)) as Hind.
  { apply Forall_forall. intros i Hi.
    apply list_elem_of_omap in Hi. naive_solver. }
  assert (∀ l, l ∈ ls → Py.all_chars Py.isblank l = false →
               ∃ i, i ∈ omap Py.leading_blanks ls
                    ∧ Py.leading_blanks l = Some i) as Hline.
  { intros l Hl Hb. destruct (Py.leading_blanks l) as [i|] eqn:Hi.
    - exists i. split; [|done]. apply list_elem_of_omap. eauto.
    - apply leading_blanks_None in Hi. congruence. }
  destruct (omap Py.leading_blanks ls) as [|i0 indents] eqn:Hom.
  - simpl. split; [done|]. split.
    + apply Forall_forall. intros l Hl Hb.
      destruct (Hline l Hl Hb) as (i & Hi & _). by apply elem_of_nil in Hi.
    + intros p _ _ Hex. apply Exists_exists in Hex as (l & Hl & Hb).
      destruct (Hline l Hl Hb) as (i & Hi & _). by apply elem_of_nil in Hi.
  - cbn [fold_left]. change (Py.margin_step None i0) with (Some i0).
    destruct (fold_margin_step_glb indents i0) as (m & -> & H0 & Hall & Hg).
    simpl. apply Forall_cons in Hind as [(l0 & Hl0 & Hi0) Hind].
    destruct (leading_blanks_Some _ _ Hi0) as (_ & Hb0 & _).
    assert (Forall (λ i, Py.startswith i m = true) (i0 :: indents)) as Hall'
      by by constructor.
    split; [by eapply all_blank_prefix|]. split.
    + apply Forall_forall. intros l Hl Hb.
      destruct (Hline l Hl Hb) as (i & Hi & Hli).
      destruct (leading_blanks_Some _ _ Hli) as (Hs & _ & _).
      eapply startswith_trans; [done|].
      by apply (proj1 (Forall_forall _ _) Hall').
    + intros p Hp Hlines _.
      assert (∀ i, i ∈ i0 :: indents → Py.startswith i p = true) as Hip.
      { intros i Hi.
        assert (∃ l, l ∈ ls ∧ Py.leading_blanks l = Some i) as (l & Hl & Hli).
        { by apply (proj1 (Forall_forall _ _)
                      (Forall_cons_2 _ _ _ (ex_intro _ l0 (conj Hl0 Hi0)) Hind)). }
        destruct (leading_blanks_Some _ _ Hli) as (_ & _ & Hmax).
        apply Hmax; [done|].
        apply (proj1 (Forall_forall _ _) Hlines); [done|].
        destruct (Py.all_chars Py.isblank l) eqn:Hb; [|done].
        apply leading_blanks_None in Hb. congruence. }
      apply Hg; [apply Hip; left|].
      apply Forall_forall. intros i Hi. apply Hip. by right.
Qed.


(** *** Lines *)

Lemma lstrip_spec s :
  ∃ ws, s = ws +:+ Py.lstrip s
        ∧ Py.all_chars Py.isspace ws = true
        ∧ starts_with_char Py.isspace (Py.lstrip s) = false.
Proof.
  induction s as [|a s (ws & IH & Hws & Hs)]; simpl.
  - by exists "".
  - destruct (Py.isspace a) eqn:Ha.
    + exists (String a ws). simpl. by rewrite <- IH, Ha, Hws.
    + exists "". simpl. by rewrite Ha.
Qed.

Lemma linebreak_newline c :
  Py.islinebreak c = false → Py.char_eqb c Py.newline = false.
Proof.
  intros H. destruct (Py.char_eqb c Py.newline) eqn:E; [|done].
  apply char_eqb_eq in E as ->. by vm_compute in H.
Qed.

Lemma splitlines_no_newline s :
  Forall (λ l, Py.contains Py.newline l = false) (Py.splitlines s).
Proof.
  cut (Forall (λ l, Py.contains Py.newline l = false) (Py.splitlines s)
       ∧ ∀ c s', s = String c s' →
           Forall (λ l, Py.contains Py.newline l = false) (Py.splitlines s')).
  { by intros [H _]. }
  induction s as [|a s [IH1 IH2]]; [by split|].
  split; [|by intros c s' [= _ <-]].
  simpl. destruct (Py.islinebreak a) eqn:Ha.
  - constructor; [done|]. destruct s as [|d s'']; [done|].
    destruct (_ && _); [by eapply IH2|done].
  - apply linebreak_newline in Ha.
    destruct (Py.splitlines s) as [|l ls]; constructor; simpl;
      rewrite ?Ha; try done.
    + by apply Forall_cons in IH1 as [? _].
    + by apply Forall_cons in IH1 as [_ ?].
Qed.

Lemma splitlines_nonempty s : s ≠ "" → Py.splitlines s ≠ [].
Proof.
  destruct s as [|a s]; [done|]. intros _. simpl.
  destruct (Py.islinebreak a); [done|]. by destruct (Py.splitlines s).
Qed.

Lemma split_no_sep sep s :
  Py.contains sep s = false → Py.split sep s = [s].
Proof.
  induction s as [|a s IH]; simpl; [done|].
  destruct (Py.char_eqb a sep); simpl; [done|]. intros H. by rewrite IH.
Qed.

Lemma split_at_sep sep s t :
  Py.contains sep s = false →
  Py.split sep (s +:+ String sep t) = s :: Py.split sep t.
Proof.
  induction s as [|a s IH]; simpl.
  - by rewrite char_eqb_refl.
  - destruct (Py.char_eqb a sep); simpl; [done|]. intros H. by rewrite IH.
Qed.

Lemma join_cons sep l l' ls :
  Py.join sep (l :: l' :: ls) = l +:+ sep +:+ Py.join sep (l' :: ls).
Proof. done. Qed.

Lemma split_join ls :
  ls ≠ [] → Forall (λ l, Py.contains Py.newline l = false) ls →
  Py.split Py.newline (Py.join Py.nl ls) = ls.
Proof.
  induction ls as [|l ls IH]; [done|]. intros _ [Hl Hls]%Forall_cons.
  destruct ls as [|l' ls]; [by apply split_no_sep|].
  rewrite join_cons.
  change (l +:+ Py.nl +:+ Py.join Py.nl (l' :: ls))
    with (l +:+ String Py.newline (Py.join Py.nl (l' :: ls))).
  rewrite split_at_sep by done. by rewrite IH.
Qed.

(** *** [dedent] line by line *)

Lemma cut_margin_nil l : Py.cut_margin "" l = l.
Proof. done. Qed.

Lemma cut_margin_empty m : Py.cut_margin m "" = "".
Proof. by destruct m. Qed.

Lemma dedent_margin_blank_to_empty ls :
  Py.dedent_margin (map Py.blank_to_empty ls) = Py.dedent_margin ls.
Proof.
  unfold Py.dedent_margin. f_equal.
  induction ls as [|l ls IH]; [done|]. simpl.
  rewrite leading_blanks_blank_to_empty.
  change (list_omap string string Py.leading_blanks
            (map Py.blank_to_empty ls))
    with (omap Py.leading_blanks (map Py.blank_to_empty ls)).
  by rewrite IH.
Qed.

Lemma dedent_join ls :
  Forall (λ l, Py.contains Py.newline l = false) ls →
  Py.dedent (Py.join Py.nl ls)
  = Py.join Py.nl
      (map (λ l, Py.cut_margin (default "" (Py.dedent_margin ls))
                   (Py.blank_to_empty l)) ls).
Proof.
  intros Hls. destruct (decide (ls = [])) as [->|Hne]; [done|].
  unfold Py.dedent. rewrite split_join by done.
  rewrite dedent_margin_blank_to_empty.
  destruct (Py.dedent_margin ls) as [[|c m]|]; simpl;
    f_equal; rewrite ?map_map; done.
Qed.

Lemma dedented_line margin l :
  (Py.all_chars Py.isblank l = false → Py.startswith l margin = true) →
  dedented margin l (Py.cut_margin margin (Py.blank_to_empty l)).
Proof.
  intros H. unfold dedented, Py.blank_to_empty.
  destruct (Py.all_chars Py.isblank l) eqn:Hb.
  - apply cut_margin_empty.
  - specialize (H eq_refl). apply startswith_drop_prefix in H as [r Hr].
    unfold Py.cut_margin. rewrite Hr. by apply drop_prefix_Some.
Qed.

End dedent_facts.

(** C8, for a description that is not empty (both callers ask for that
    before they normalize): the result is the first line without its
    leading whitespace, a line feed, the following lines dedented and
    joined by line feeds, and two line feeds.  The following lines are
    dedented as a block: there is a margin of blanks that every following
    line holding something else starts with, the longest such text; such a
    line loses the margin, and a line of blanks only becomes empty.  The
    example of the specification normalizes as it says. *)
Theorem description_normalized (pkg_info : Message) (description : string) :
  msg_get pkg_info "Description" = Some description →
  description ≠ "" →
  (∃ first following ws margin outs,
      Py.splitlines description = first :: following
      ∧ dedent_description pkg_info
        = Ok (Py.lstrip first +:+ Py.nl +:+ Py.join Py.nl outs
              +:+ Py.nl +:+ Py.nl)
      ∧ first = ws +:+ Py.lstrip first
      ∧ Py.all_chars Py.isspace ws = true
      ∧ starts_with_char Py.isspace (Py.lstrip first) = false
      ∧ Py.all_chars Py.isblank margin = true
      ∧ Forall2 (dedented margin) following outs
      ∧ ∀ p, Py.all_chars Py.isblank p = true →
             Forall (λ l, Py.all_chars Py.isblank l = false →
                          Py.startswith l p = true) following →
             Exists (λ l, Py.all_chars Py.isblank l = false) following →
             Py.startswith margin p = true)
  ∧ dedent_description
      (mkMessage
         [("Description",
           "Para one." +:+ Py.nl +:+ "    Para two line A." +:+ Py.nl
           +:+ "    Para two line B.")] "")
    = Ok ("Para one." +:+ Py.nl +:+ "Para two line A." +:+ Py.nl
          +:+ "Para two line B." +:+ Py.nl +:+ Py.nl).
Proof.
  intros Hget Hne. split; [|by vm_compute].
  unfold dedent_description. rewrite Hget.
  pose proof (splitlines_nonempty _ Hne) as Hlines.
  pose proof (splitlines_no_newline description) as Hnl.
  destruct (Py.splitlines description) as [|first following]; [done|].
  apply Forall_cons in Hnl as [_ Hnl].
  destruct (lstrip_spec first) as (ws & Hws & Hsp & Hst).
  destruct (dedent_margin_spec following) as (Hb & Hstart & Hmax).
  exists first, following, ws, (default "" (Py.dedent_margin following)).
  eexists. split; [done|]. split.
  { rewrite dedent_join by done. simpl Py.join.
    unfold Py.nl. simpl. by rewrite ?str_app_assoc. }
  repeat (split; [done|]). split; [|done].
  apply Forall2_fmap_r, Forall_Forall2_diag.
  eapply Forall_impl; [exact Hstart|]. intros l Hl. by apply dedented_line.
Qed.

Lemma description_normalized_witness :
  msg_get (mkMessage [("Description", " Hello" +:+ Py.nl +:+ "  world")] "")
    "Description" = Some (" Hello" +:+ Py.nl +:+ "  world")
  ∧ " Hello" +:+ Py.nl +:+ "  world" ≠ ""
  ∧ ∃ first following ws margin outs,
      Py.splitlines (" Hello" +:+ Py.nl +:+ "  world") = first :: following
      ∧ dedent_description
          (mkMessage [("Description", " Hello" +:+ Py.nl +:+ "  world")] "")
        = Ok (Py.lstrip first +:+ Py.nl +:+ Py.join Py.nl outs
              +:+ Py.nl +:+ Py.nl)
      ∧ first = ws +:+ Py.lstrip first
      ∧ Py.all_chars Py.isspace ws = true
      ∧ starts_with_char Py.isspace (Py.lstrip first) = false
      ∧ Py.all_chars Py.isblank margin = true
      ∧ Forall2 (dedented margin) following outs
      ∧ ∀ p, Py.all_chars Py.isblank p = true →
             Forall (λ l, Py.all_chars Py.isblank l = false →
                          Py.startswith l p = true) following →
             Exists (λ l, Py.all_chars Py.isblank l = false) following →
             Py.startswith margin p = true.
Proof.
  split; [by vm_compute|]. split; [by vm_compute|].
  apply (description_normalized
           (mkMessage [("Description", " Hello" +:+ Py.nl +:+ "  world")] "")
           (" Hello" +:+ Py.nl +:+ "  world")); by vm_compute.
Defined.

(** C8, against its wording for every description: the empty description
    has no first line, and the normalizer raises [IndexError]. *)
Lemma empty_description_not_normalized :
  msg_get (mkMessage [("Description", "")] "") "Description" = Some ""
  ∧ dedent_description (mkMessage [("Description", "")] "") = Raise IndexError.
Proof. by vm_compute. Qed.

(** ** The reverse conversion *)

Section reverse.

Implicit Types (hs : list (string * string)) (msg : Message).

Lemma replace_first_Some name value hs hs' :
  replace_first name value hs = Some hs' →
  ∃ pre k v0 post,
    hs = pre ++ (k, v0) :: post ∧ hs' = pre ++ (k, value) :: post
    ∧ same_key name (k, v0) = true
    ∧ Forall (λ kv, same_key name kv = false) pre.
Proof.
  revert hs'. induction hs as [|[k v0] hs IH]; intros hs'; simpl; [done|].
  destruct (same_key name (k, v0)) eqn:E.
  - intros [= <-]. by exists [], k, v0, hs.
  - destruct (replace_first name value hs) as [hs1|]; [|done].
    intros [= <-]. destruct (IH hs1 eq_refl) as (pre & k' & v' & post & -> & -> & ? & ?).
    exists ((k, v0) :: pre), k', v', post. repeat split; [done|].
    by constructor.
Qed.

Lemma replace_first_None name value hs :
  replace_first name value hs = None →
  Forall (λ kv, same_key name kv = false) hs.
Proof.
  induction hs as [|kv hs IH]; simpl; [done|].
  destruct (same_key name kv) eqn:E; [done|].
  destruct (replace_first name value hs); [done|]. intros _.
  constructor; [done|]. by apply IH.
Qed.

Lemma add_section_headers msg section :
  headers (add_section msg section) = headers msg ++ section_headers section
  ∧ payload (add_section msg section) = payload msg.
Proof.
  destruct section as [extra reqs]. unfold add_section, section_headers.
  simpl. unfold requires_dist_line.
  generalize (section_condition extra). intros condition.
  set (start := if truthy (opt_str extra) then _ else msg).
  assert (headers start
          = headers msg ++ (if truthy (opt_str extra)
                            then [("Provides-Extra", default "" extra)]
                            else [])
          ∧ payload start = payload msg) as [Hh Hp].
  { unfold start. destruct (truthy (opt_str extra)); simpl; [done|].
    by rewrite app_nil_r. }
  rewrite <- Hp, app_assoc, <- Hh. clearbody start. clear. revert start.
  induction reqs as [|req reqs IH]; intros start; simpl.
  - by rewrite app_nil_r.
  - destruct (IH (msg_set start "Requires-Dist"
                    (requires_dist_value req condition))) as [-> ->].
    simpl. by rewrite <- app_assoc.
Qed.

Lemma add_sections_headers msg sections :
  headers (fold_left add_section sections msg)
  = headers msg ++ concat (section_headers <$> sections)
  ∧ payload (fold_left add_section sections msg) = payload msg.
Proof.
  revert msg. induction sections as [|section sections IH]; intros msg; simpl.
  - by rewrite app_nil_r.
  - destruct (IH (add_section msg section)) as [-> ->].
    destruct (add_section_headers msg section) as [-> ->].
    by rewrite <- app_assoc.
Qed.

Lemma section_headers_keys section :
  Forall (λ kv, kv.1 = "Provides-Extra" ∨ kv.1 = "Requires-Dist")
    (section_headers section).
Proof.
  unfold section_headers. apply Forall_app. split.
  - destruct (truthy _); repeat constructor.
  - apply Forall_fmap, Forall_forall. intros req _. by right.
Qed.

Lemma appended_headers_keys requires :
  Forall (λ kv, kv.1 = "Provides-Extra" ∨ kv.1 = "Requires-Dist")
    (appended_headers requires).
Proof.
  destruct requires as [sections|]; simpl; [|done].
  induction sections as [|s sections IH]; simpl; [done|].
  apply Forall_app. split; [apply section_headers_keys | done].
Qed.

Lemma find_app_no_key name hs new :
  Forall (λ kv, same_key name kv = false) new →
  List.find (same_key name) (hs ++ new) = List.find (same_key name) hs.
Proof.
  intros Hnew. induction hs as [|kv hs IH]; simpl.
  - induction Hnew as [|kv new Hkv _ IH]; simpl; [done|]. by rewrite Hkv.
  - by destruct (same_key name kv).
Qed.

Lemma find_replaced name value pre k v0 post :
  same_key name (k, v0) = false →
  List.find (same_key name) (pre ++ (k, value) :: post)
  = List.find (same_key name) (pre ++ (k, v0) :: post).
Proof.
  intros Hk. induction pre as [|kv pre IH]; simpl.
  - unfold same_key in *. simpl in *. by rewrite Hk.
  - by destruct (same_key name kv).
Qed.


Lemma filter_all {A} (P : A → bool) (l : list A) :
  Forall (λ x, P x = true) l → List.filter P l = l.
Proof.
  induction 1 as [|x l Hx _ IH]; simpl; [done|]. by rewrite Hx, IH.
Qed.

Lemma filter_filter_implied {A} (P Q : A → bool) (l : list A) :
  (∀ x, P x = true → Q x = true) →
  List.filter P (List.filter Q l) = List.filter P l.
Proof.
  intros HPQ. induction l as [|x l IH]; simpl; [done|].
  destruct (Q x) eqn:HQ; simpl; [by rewrite IH|].
  destruct (P x) eqn:HP; [|done]. apply HPQ in HP. congruence.
Qed.

Lemma appended_not_same_key name requires :
  Py.lower name ≠ "provides-extra" → Py.lower name ≠ "requires-dist" →
  Forall (λ kv, same_key name kv = false) (appended_headers requires).
Proof.
  intros H1 H2. eapply Forall_impl; [apply appended_headers_keys|].
  intros [k v] [Hk|Hk]; simpl in Hk; subst k; unfold same_key; cbn [fst].
  - change (Py.lower "Provides-Extra") with "provides-extra".
    apply String.eqb_neq. congruence.
  - change (Py.lower "Requires-Dist") with "requires-dist".
    apply String.eqb_neq. congruence.
Qed.

Lemma metadata_version_not_description kv :
  same_key "Metadata-Version" kv = true → same_key "Description" kv = false.
Proof.
  unfold same_key. intros H%String.eqb_eq. rewrite H. by vm_compute.
Qed.

Lemma dedent_description_get msg msg' :
  msg_get msg' "Description" = msg_get msg "Description" →
  dedent_description msg' = dedent_description msg.
Proof. unfold dedent_description. by intros ->. Qed.

Lemma dedent_description_Ok msg c d :
  msg_get msg "Description" = Some (String c d) →
  ∃ normalized, dedent_description msg = Ok normalized.
Proof.
  intros H. unfold dedent_description. rewrite H.
  pose proof (splitlines_nonempty (String c d)) as Hne.
  destruct (Py.splitlines (String c d)); [by destruct Hne|]. eauto.
Qed.

End reverse.

(** C9: the reverse conversion raises [KeyError] for a header block
    without a [Metadata-Version] header and returns a header block
    otherwise.  In the block it returns, the first [Metadata-Version]
    header holds ["2.0"] under its own key; the [Provides-Extra] and
    [Requires-Dist] headers of the listing stand at the end; when the first
    [Description] header holds a text that is not empty, the [Description]
    headers are gone and the payload is that text normalized, else both
    are as they were; every other header stands where it stood with the
    value it had. *)
Theorem reverse_conversion_frame
    (requires : option (list (option string * list Requirement)))
    (pkg_info : Message) :
  match pkginfo_to_metadata requires pkg_info with
  | Ok out =>
      ∃ pre k v0 post,
        headers pkg_info = pre ++ (k, v0) :: post
        ∧ same_key "Metadata-Version" (k, v0) = true
        ∧ Forall (λ kv, same_key "Metadata-Version" kv = false) pre
        ∧ match msg_get pkg_info "Description" with
          | Some (String c d) =>
              headers out
              = List.filter (λ kv, negb (same_key "Description" kv))
                  (pre ++ (k, "2.0") :: post)
                ++ appended_headers requires
              ∧ dedent_description pkg_info = Ok (payload out)
          | _ =>
              headers out
              = (pre ++ (k, "2.0") :: post) ++ appended_headers requires
              ∧ payload out = payload pkg_info
          end
        ∧ List.filter other_header (headers out)
          = List.filter other_header (headers pkg_info)
            ++ appended_headers requires
  | Raise e =>
      e = KeyError "metadata-version"
      ∧ Forall (λ kv, same_key "Metadata-Version" kv = false)
          (headers pkg_info)
  end.
Proof.
  unfold pkginfo_to_metadata, msg_replace_header.
  destruct (replace_first _ _ (headers pkg_info)) as [hs'|] eqn:Hr.
  2:{ split; [done|]. by eapply replace_first_None. }
  apply replace_first_Some in Hr as (pre & k & v0 & post & Hhs & -> & Hk & Hpre).
  cbn [mbind result_bind].
  set (replaced := mkMessage (pre ++ (k, "2.0") :: post) (payload pkg_info)).
  set (listed := match requires with
                 | Some sections => fold_left add_section sections replaced
                 | None => replaced
                 end).
  assert (headers listed
          = (pre ++ (k, "2.0") :: post) ++ appended_headers requires
          ∧ payload listed = payload pkg_info) as [Hlh Hlp].
  { unfold listed. destruct requires as [sections|]; simpl.
    - by destruct (add_sections_headers replaced sections) as [-> ->].
    - by rewrite app_nil_r. }
  assert (Forall (λ kv, same_key "Description" kv = false)
            (appended_headers requires)) as Hnd
    by by apply appended_not_same_key.
  assert (msg_get listed "Description" = msg_get pkg_info "Description") as Hget.
  { unfold msg_get. rewrite Hlh, Hhs, find_app_no_key by done. simpl.
    by rewrite (find_replaced _ "2.0" pre k v0 post)
      by by apply metadata_version_not_description. }
  assert (List.filter other_header (pre ++ (k, "2.0") :: post)
          = List.filter other_header (headers pkg_info)) as Hother.
  { rewrite Hhs, !List.filter_app. cbn [List.filter].
    assert (∀ v, other_header (k, v) = false) as Hkv.
    { intros v. unfold other_header, same_key in *. cbn [fst] in *.
      by rewrite Hk. }
    by rewrite !Hkv. }
  assert (List.filter other_header (appended_headers requires)
          = appended_headers requires) as Happ.
  { apply filter_all. unfold other_header.
    assert (Forall (λ kv, same_key "Metadata-Version" kv = false)
              (appended_headers requires)) as Hmv
      by by apply appended_not_same_key.
    apply Forall_forall. intros kv Hkv.
    by rewrite (proj1 (Forall_forall _ _) Hmv kv Hkv),
      (proj1 (Forall_forall _ _) Hnd kv Hkv). }
  rewrite Hget. rewrite (dedent_description_get pkg_info listed Hget).
  destruct (msg_get pkg_info "Description") as [[|c d]|] eqn:Hd; simpl.
  - exists pre, k, v0, post. split_and!; try done.
    by rewrite Hlh, List.filter_app, Hother, Happ.
  - destruct (dedent_description_Ok pkg_info c d Hd) as [normalized ->].
    cbn [mbind result_bind]. simpl.
    exists pre, k, v0, post. split_and!; try done.
    + rewrite Hlh, List.filter_app. f_equal. apply filter_all.
      eapply Forall_impl; [exact Hnd|]. by intros kv ->.
    + rewrite Hlh.
      rewrite filter_filter_implied, List.filter_app, Hother, Happ; [done|].
      unfold other_header. by intros kv [_ ?]%andb_true_iff.
  - exists pre, k, v0, post. split_and!; try done.
    by rewrite Hlh, List.filter_app, Hother, Happ.
Qed.

(** ** Keys of the header block *)

Section keys.

Implicit Types (l : list string) (seen : gset string) (msg : Message).

Lemma unique_from_elem seen l x :
  x ∈ unique_from seen l ↔ x ∈ l ∧ x ∉ seen.
Proof.
  revert seen. induction l as [|y l IH]; intros seen; simpl.
  - split; [by intros ?%elem_of_nil | by intros [?%elem_of_nil _]].
  - destruct (decide (y ∈ seen)) as [Hy|Hy].
    + rewrite IH, elem_of_cons. split; [naive_solver|].
      intros [[->|?] ?]; naive_solver.
    + rewrite !elem_of_cons, IH. split.
      * intros [->|[? ?]]; [naive_solver|]. split; [by right|]. set_solver.
      * intros [[->|?] ?]; [by left|].
        destruct (decide (x = y)) as [->|?]; [by left|]. right. set_solver.
Qed.

Lemma unique_from_NoDup seen l : NoDup (unique_from seen l).
Proof.
  revert seen. induction l as [|y l IH]; intros seen; simpl; [constructor|].
  destruct (decide (y ∈ seen)); [done|]. constructor; [|done].
  rewrite unique_from_elem. set_solver.
Qed.

Lemma unique_elem l x : x ∈ unique l ↔ x ∈ l.
Proof. unfold unique. rewrite unique_from_elem. set_solver. Qed.

Lemma unique_NoDup l : NoDup (unique l).
Proof. apply unique_from_NoDup. Qed.

(** Leaving one value out commutes with [unique]. *)
Lemma unique_from_without seen seen' l k :
  (∀ x, x ≠ k → x ∈ seen ↔ x ∈ seen') →
  unique_from seen (List.filter (λ x, negb (String.eqb x k)) l)
  = List.filter (λ x, negb (String.eqb x k)) (unique_from seen' l).
Proof.
  revert seen seen'. induction l as [|y l IH]; intros seen seen' Hs; simpl;
    [done|].
  destruct (String.eqb_spec y k) as [->|Hne]; simpl.
  - destruct (decide (k ∈ seen')); simpl.
    + by apply IH.
    + rewrite String.eqb_refl. simpl. apply IH. set_solver.
  - destruct (decide (y ∈ seen)) as [Hy|Hy], (decide (y ∈ seen')) as [Hy'|Hy'];
      try (by apply Hs in Hy); try (by apply Hs in Hy').
    + by apply IH.
    + simpl. destruct (String.eqb_spec y k); [done|]. simpl. f_equal.
      apply IH. set_solver.
Qed.

Lemma unique_without l k :
  unique (List.filter (λ x, negb (String.eqb x k)) l)
  = List.filter (λ x, negb (String.eqb x k)) (unique l).
Proof. by apply unique_from_without. Qed.

Lemma lower_char_idemp c : Py.lower_char (Py.lower_char c) = Py.lower_char c.
Proof. by destruct c as [[] [] [] [] [] [] [] []]. Qed.

Lemma lower_idemp s : Py.lower (Py.lower s) = Py.lower s.
Proof.
  unfold Py.lower. induction s as [|c s IH]; cbn [Py.map_chars]; [done|].
  by rewrite lower_char_idemp, IH.
Qed.

Lemma same_key_lower name kv :
  same_key (Py.lower name) kv = same_key name kv.
Proof. unfold same_key. by rewrite lower_idemp. Qed.

Lemma msg_get_lower msg name :
  msg_get msg (Py.lower name) = msg_get msg name.
Proof.
  unfold msg_get. f_equal.
  induction (headers msg) as [|kv hs IH]; simpl; [done|].
  by rewrite same_key_lower, IH.
Qed.

Lemma values_of_lower msg name :
  values_of msg (Py.lower name) = values_of msg name.
Proof.
  unfold values_of. f_equal.
  induction (headers msg) as [|kv hs IH]; simpl; [done|].
  by rewrite same_key_lower, IH.
Qed.

(** Deleting the headers of another name changes no lookup. *)
Lemma same_key_other name name' kv :
  Py.lower name ≠ Py.lower name' →
  same_key name kv = true → same_key name' kv = false.
Proof.
  unfold same_key. intros Hne H%String.eqb_eq.
  apply String.eqb_neq. congruence.
Qed.

Lemma msg_get_del_ne msg name name' :
  Py.lower name ≠ Py.lower name' →
  msg_get (msg_del msg name') name = msg_get msg name.
Proof.
  intros Hne. unfold msg_get, msg_del. simpl. f_equal.
  induction (headers msg) as [|kv hs IH]; simpl; [done|].
  destruct (same_key name kv) eqn:Hk.
  - rewrite (same_key_other name name' kv) by done. simpl. by rewrite Hk.
  - destruct (same_key name' kv); simpl; [done|]. by rewrite Hk.
Qed.

Lemma values_of_del_ne msg name name' :
  Py.lower name ≠ Py.lower name' →
  values_of (msg_del msg name') name = values_of msg name.
Proof.
  intros Hne. unfold values_of, msg_del. simpl. f_equal.
  induction (headers msg) as [|kv hs IH]; simpl; [done|].
  destruct (same_key name kv) eqn:Hk.
  - rewrite (same_key_other name name' kv) by done. simpl.
    by rewrite Hk, IH.
  - destruct (same_key name' kv); simpl; [done|]. by rewrite Hk.
Qed.

Lemma msg_get_all_del_ne msg name name' :
  Py.lower name ≠ Py.lower name' →
  msg_get_all (msg_del msg name') name = msg_get_all msg name.
Proof. intros Hne. unfold msg_get_all. by rewrite values_of_del_ne. Qed.

Lemma msg_del_del msg name name' :
  msg_del (msg_del msg name) name' = msg_del (msg_del msg name') name.
Proof.
  unfold msg_del. simpl. f_equal.
  induction (headers msg) as [|kv hs IH]; simpl; [done|].
  destruct (same_key name kv) eqn:E1, (same_key name' kv) eqn:E2; simpl;
    rewrite ?E1, ?E2; simpl; by rewrite ?IH.
Qed.

(** The keys of the loop after a deletion. *)
Lemma lowered_keys_del msg name :
  Py.lower <$> msg_keys (msg_del msg name)
  = List.filter (λ x, negb (String.eqb x (Py.lower name)))
      (Py.lower <$> msg_keys msg).
Proof.
  unfold msg_keys, msg_del. simpl.
  induction (headers msg) as [|kv hs IH]; simpl; [done|].
  unfold same_key at 1. destruct (String.eqb _ _); simpl; [done|].
  f_equal. exact IH.
Qed.

(** A key of the loop is the lowered key of a header, and has values. *)
Lemma loop_key_header msg key :
  key ∈ unique (Py.lower <$> msg_keys msg) →
  Py.lower key = key
  ∧ ∃ v vs, msg_get msg key = Some v ∧ msg_get_all msg key = Some (v :: vs).
Proof.
  rewrite unique_elem. unfold msg_keys.
  intros (k & -> & (kv & -> & Hkv)%list_elem_of_fmap)%list_elem_of_fmap.
  split; [apply lower_idemp|].
  unfold msg_get, msg_get_all, values_of.
  induction (headers msg) as [|kv' hs IH]; [by apply elem_of_nil in Hkv|].
  simpl. destruct (same_key (Py.lower kv.1) kv') eqn:E; simpl; [by eauto|].
  apply elem_of_cons in Hkv as [->|Hkv]; [|by apply IH].
  unfold same_key in E. rewrite lower_idemp, String.eqb_refl in E. done.
Qed.

End keys.

(** ** The loop over the keys *)

Section key_loop.

Implicit Types (metadata m : gmap string pyval) (msg pkg_info : Message)
  (key low f : string).

Lemma plural_fields_lookup low :
  PLURAL_FIELDS !! low
  = if decide (low = "classifier") then Some "classifiers"
    else if decide (low = "provides_dist") then Some "provides"
    else if decide (low = "provides_extra") then Some "extras"
    else None.
Proof.
  unfold PLURAL_FIELDS. repeat case_decide; subst; try done.
  by rewrite !lookup_insert_ne, lookup_singleton_ne by done.
Qed.

(** The loop body by the rule of the key. *)
Lemma process_key_rule pkg_info metadata key :
  process_key pkg_info metadata key
  = if placeholder pkg_info key then Ok metadata
    else match rule_of (Py.replace "-" "_" key) with
         | PluralRule plural =>
             Ok (<[plural := opt_list (msg_get_all pkg_info key)]> metadata)
         | RequirementRule =>
             match msg_get_all pkg_info key with
             | None => Raise TypeError
             | Some values => store_requirements metadata values
             end
         | HomePageRule =>
             Ok (<["project_urls" :=
                     PDict {[ "Home" := opt_str (msg_get pkg_info key) ]}]>
                   metadata)
         | DefaultRule =>
             Ok (<[Py.replace "-" "_" key := opt_str (msg_get pkg_info key)]>
                   metadata)
         end.
Proof.
  unfold process_key, placeholder, rule_of.
  destruct (decide (_ ∈ SKIP_FIELDS)) as [Hs|_]; [by apply elem_of_empty in Hs|].
  destruct (_ && _); [done|].
  rewrite plural_fields_lookup.
  repeat case_decide; try done.
  destruct (String.eqb_spec (Py.replace "-" "_" key) "requires_dist"); [done|].
  destruct (String.eqb_spec (Py.replace "-" "_" key) "provides_extra"); [done|].
  by destruct (String.eqb (Py.replace "-" "_" key) "home_page").
Qed.

Lemma extend_extras_frame metadata more m f :
  extend_extras metadata more = Ok m → f ≠ "extras" →
  m !! f = metadata !! f.
Proof.
  unfold extend_extras. intros H Hf.
  destruct (metadata !! "extras") as [v|] eqn:E.
  - rewrite E in H. destruct v; try done.
    injection H as <-. by rewrite lookup_insert_ne.
  - rewrite lookup_insert_eq in H. injection H as <-.
    by rewrite !lookup_insert_ne.
Qed.

Lemma store_requirements_frame metadata values m f :
  store_requirements metadata values = Ok m →
  f ∉ ["requires"; "may_require"; "extras"] →
  m !! f = metadata !! f.
Proof.
  unfold store_requirements.
  destruct (group_requirements values) as [rs ex]. intros H Hf.
  assert (f ≠ "requires" ∧ f ≠ "may_require" ∧ f ≠ "extras") as (?&?&?).
  { set_solver. }
  destruct (bool_decide _).
  - apply extend_extras_frame with (f := f) in H; [|done].
    by rewrite H, !lookup_insert_ne.
  - injection H as <-. by rewrite lookup_insert_ne.
Qed.

(** A key changes no field but those it writes. *)
Lemma process_key_frame pkg_info metadata key m f :
  process_key pkg_info metadata key = Ok m →
  f ∉ writes (Py.replace "-" "_" key) →
  m !! f = metadata !! f.
Proof.
  rewrite process_key_rule. unfold writes.
  destruct (placeholder pkg_info key); [by intros [= <-]|].
  destruct (rule_of _).
  - intros [= <-] Hf. rewrite lookup_insert_ne; [done|]. set_solver.
  - destruct (msg_get_all pkg_info key); [|done].
    apply store_requirements_frame.
  - intros [= <-] Hf. rewrite lookup_insert_ne; [done|]. set_solver.
  - intros [= <-] Hf. rewrite lookup_insert_ne; [done|]. set_solver.
Qed.

(** Only the requirement rule can raise. *)
Lemma process_key_Ok pkg_info metadata key :
  rule_of (Py.replace "-" "_" key) ≠ RequirementRule →
  ∃ m, process_key pkg_info metadata key = Ok m.
Proof.
  rewrite process_key_rule. intros Hr.
  destruct (placeholder pkg_info key); [by eauto|].
  destruct (rule_of _); by eauto.
Qed.

Lemma fold_result_app {A B} (f : A → B → result A) (l1 l2 : list B) (a : A) :
  fold_result f (l1 ++ l2) a = (a' ← fold_result f l1 a; fold_result f l2 a').
Proof.
  revert a. induction l1 as [|b l1 IH]; intros a; simpl; [done|].
  destruct (f a b); simpl; [apply IH|done].
Qed.

(** Keys that do not write a field leave it as it is. *)
Lemma loop_frame pkg_info keys metadata m f :
  fold_result (process_key pkg_info) keys metadata = Ok m →
  Forall (λ key, f ∉ writes (Py.replace "-" "_" key)) keys →
  m !! f = metadata !! f.
Proof.
  revert metadata. induction keys as [|key keys IH]; intros metadata; simpl.
  - by intros [= <-].
  - destruct (process_key pkg_info metadata key) as [m1|] eqn:H1; [|done].
    simpl. intros H [Hk Hks]%Forall_cons.
    rewrite (IH _ H Hks). by eapply process_key_frame.
Qed.

(** Keys under other rules than the requirement rule do not raise. *)
Lemma loop_Ok pkg_info keys metadata :
  Forall (λ key, rule_of (Py.replace "-" "_" key) ≠ RequirementRule) keys →
  ∃ m, fold_result (process_key pkg_info) keys metadata = Ok m.
Proof.
  revert metadata. induction keys as [|key keys IH]; intros metadata; simpl.
  - by eauto.
  - intros [Hk Hks]%Forall_cons.
    destruct (process_key_Ok pkg_info metadata key Hk) as [m1 ->]. simpl.
    by apply IH.
Qed.

End key_loop.

(** ** The forward conversion *)

Section forward.

Implicit Types (metadata m : gmap string pyval) (msg pkg_info : Message)
  (key low f : string).

(** The three ways the description is taken (lines 53-59). *)
Lemma take_description_cases pkg_info :
  (∃ c d normalized,
     msg_get pkg_info "Description" = Some (String c d)
     ∧ dedent_description pkg_info = Ok normalized
     ∧ normalized ≠ ""
     ∧ take_description pkg_info
       = Ok ({[ "description" := PStr normalized ]},
             msg_del pkg_info "Description"))
  ∨ (truthy (opt_str (msg_get pkg_info "Description")) = false
     ∧ payload pkg_info ≠ ""
     ∧ take_description pkg_info
       = Ok ({[ "description" := PStr (payload pkg_info) ]}, pkg_info))
  ∨ (truthy (opt_str (msg_get pkg_info "Description")) = false
     ∧ payload pkg_info = ""
     ∧ take_description pkg_info = Ok (∅, pkg_info)).
Proof.
  unfold take_description.
  destruct (msg_get pkg_info "Description") as [[|c d]|] eqn:Hd; simpl.
  2:{ left. destruct (dedent_description_Ok pkg_info c d Hd) as [n Hn].
      exists c, d, n. rewrite Hn. simpl. split_and!; try done.
      unfold dedent_description in Hn. rewrite Hd in Hn.
      destruct (Py.splitlines _); [done|]. injection Hn as <-.
      simpl. intros H. destruct (Py.lstrip s); [|done].
      destruct (Py.dedent _); by destruct l. }
  all: right; destruct (payload pkg_info) eqn:Hp; simpl; [by right|by left].
Qed.

Lemma values_of_elem msg key v :
  v ∈ values_of msg key → ∃ k, (k, v) ∈ headers msg ∧ Py.lower k = Py.lower key.
Proof.
  unfold values_of. intros ([k v'] & -> & Hin)%list_elem_of_fmap.
  apply list_elem_of_In, List.filter_In in Hin as [Hin Hk].
  exists k. split; [by apply list_elem_of_In|].
  unfold same_key in Hk. by apply String.eqb_eq in Hk.
Qed.

Lemma msg_del_headers msg name kv :
  kv ∈ headers (msg_del msg name) → kv ∈ headers msg.
Proof.
  unfold msg_del. simpl. intros H%list_elem_of_In%List.filter_In.
  apply list_elem_of_In. tauto.
Qed.

Lemma msg_keys_elem msg k :
  k ∈ msg_keys msg ↔ ∃ v, (k, v) ∈ headers msg.
Proof.
  unfold msg_keys. rewrite list_elem_of_fmap. split.
  - intros ([k' v] & -> & H). by exists v.
  - intros [v H]. by exists (k, v).
Qed.

(** The block the loop reads has headers of the block read. *)
Lemma take_description_block pkg_info m0 block :
  take_description pkg_info = Ok (m0, block) →
  (block = pkg_info ∨ block = msg_del pkg_info "Description")
  ∧ (∀ kv, kv ∈ headers block → kv ∈ headers pkg_info)
  ∧ (∀ f, f ≠ "description" → m0 !! f = None).
Proof.
  intros H.
  destruct (take_description_cases pkg_info)
    as [(c & d & n & _ & _ & _ & H')|[(_ & _ & H')|(_ & _ & H')]];
    rewrite H' in H; injection H as <- <-; split_and!; eauto.
  - apply msg_del_headers.
  - intros f Hf. by rewrite lookup_singleton_ne.
  - intros f Hf. by rewrite lookup_singleton_ne.
Qed.

(** A key of the loop comes from a header of the block. *)
Lemma loop_key_origin msg key :
  key ∈ unique (Py.lower <$> msg_keys msg) →
  ∃ k v, (k, v) ∈ headers msg ∧ key = Py.lower k.
Proof.
  rewrite unique_elem. intros (k & -> & Hk)%list_elem_of_fmap.
  apply msg_keys_elem in Hk as [v Hv]. eauto.
Qed.

(** Without a value conditioned on an extra the grouping has no bucket. *)
Lemma group_requirements_no_extra values :
  Forall (λ value, ∀ name, conditioned_on name value = false) values →
  (group_requirements values).2 = ∅.
Proof.
  intros H. apply map_empty. intros name.
  destruct (group_requirements_spec values) as [_ ->].
  assert (List.filter (conditioned_on name) values = []) as ->; [|done].
  induction H as [|v vs Hv _ IH]; simpl; [done|]. by rewrite Hv.
Qed.


Lemma rule_of_cases low :
  low = "classifier" ∧ rule_of low = PluralRule "classifiers"
  ∨ low = "provides_dist" ∧ rule_of low = PluralRule "provides"
  ∨ low = "provides_extra" ∧ rule_of low = PluralRule "extras"
  ∨ low = "requires_dist" ∧ rule_of low = RequirementRule
  ∨ low = "home_page" ∧ rule_of low = HomePageRule
  ∨ rule_of low = DefaultRule
    ∧ low ∉ ["classifier"; "provides_dist"; "provides_extra";
             "requires_dist"; "home_page"].
Proof.
  unfold rule_of. rewrite plural_fields_lookup.
  repeat case_decide; subst; try (by auto 10).
  destruct (String.eqb_spec low "requires_dist") as [->|?]; [by auto 10|].
  destruct (String.eqb_spec low "home_page") as [->|?]; [by auto 10|].
  do 5 right. split; [done|]. set_solver.
Qed.

Lemma store_requirements_no_extra metadata values :
  Forall (λ value, ∀ name, conditioned_on name value = false) values →
  store_requirements metadata values
  = Ok (<["requires" :=
            str_list (requirement_of <$> List.filter is_unconditional values)]>
          metadata).
Proof.
  intros H. unfold store_requirements.
  pose proof (group_requirements_no_extra values H) as He.
  destruct (group_requirements_spec values) as [Hr _].
  destruct (group_requirements values) as [rs ex]. simpl in *. subst.
  by rewrite bool_decide_eq_false_2 by by intros [].
Qed.

(** The headers that never lead to an [extras] entry. *)
Lemma process_key_no_extras pkg_info block metadata key :
  Forall (λ kv, normalized kv.1 ≠ "provides_extra"
                ∧ normalized kv.1 ≠ "extras"
                ∧ (normalized kv.1 = "requires_dist" →
                   ∀ name, conditioned_on name kv.2 = false))
    (headers pkg_info) →
  (∀ kv, kv ∈ headers block → kv ∈ headers pkg_info) →
  key ∈ unique (Py.lower <$> msg_keys block) →
  metadata !! "extras" = None →
  ∃ m, process_key block metadata key = Ok m ∧ m !! "extras" = None.
Proof.
  intros Hall Hsub Hkey Hm. rewrite Forall_forall in Hall.
  destruct (loop_key_header block key Hkey) as (Hlow & v & vs & Hget & Hgetall).
  destruct (loop_key_origin block key Hkey) as (k & v' & Hkv & ->).
  destruct (Hall _ (Hsub _ Hkv)) as (Hpe & Hex & _). simpl in *.
  unfold normalized in *. rewrite process_key_rule.
  destruct (placeholder block (Py.lower k)); [by eauto|].
  destruct (rule_of_cases (Py.replace "-" "_" (Py.lower k)))
    as [[_ ->]|[[_ ->]|[[? _]|[[Hrd ->]|[[_ ->]|[-> _]]]]]]; try done.
  - eexists. split; [done|]. by rewrite lookup_insert_ne.
  - eexists. split; [done|]. by rewrite lookup_insert_ne.
  - rewrite Hgetall. rewrite store_requirements_no_extra.
    { eexists. split; [done|]. by rewrite lookup_insert_ne. }
    apply Forall_forall. intros value Hvalue.
    assert (value ∈ values_of block (Py.lower k)) as Hin.
    { unfold msg_get_all in Hgetall.
      destruct (values_of block (Py.lower k)); [done|]. congruence. }
    apply values_of_elem in Hin as (k' & Hin & Hk').
    destruct (Hall _ (Hsub _ Hin)) as (_ & _ & Hc). simpl in Hc.
    apply Hc. unfold normalized. rewrite Hk', lower_idemp. done.
  - eexists. split; [done|]. by rewrite lookup_insert_ne.
  - eexists. split; [done|]. by rewrite lookup_insert_ne.
Qed.

Lemma loop_no_extras pkg_info block keys metadata :
  Forall (λ kv, normalized kv.1 ≠ "provides_extra"
                ∧ normalized kv.1 ≠ "extras"
                ∧ (normalized kv.1 = "requires_dist" →
                   ∀ name, conditioned_on name kv.2 = false))
    (headers pkg_info) →
  (∀ kv, kv ∈ headers block → kv ∈ headers pkg_info) →
  Forall (λ key, key ∈ unique (Py.lower <$> msg_keys block)) keys →
  metadata !! "extras" = None →
  ∃ m, fold_result (process_key block) keys metadata = Ok m
       ∧ m !! "extras" = None.
Proof.
  intros Hall Hsub. revert metadata.
  induction keys as [|key keys IH]; intros metadata Hkeys Hm; simpl.
  - by eauto.
  - apply Forall_cons in Hkeys as [Hkey Hkeys].
    destruct (process_key_no_extras pkg_info block metadata key)
      as (m1 & -> & Hm1); try done.
    simpl. by apply IH.
Qed.

End forward.

(** C1, on the code: a header block without a header that gives an
    extra (no [Provides-Extra], no [Extras], no [Requires-Dist] value
    conditioned on an extra) has no [extras] entry after the loop, and
    line 107 raises [KeyError] where the claim expects a document. *)
Theorem conversion_without_extras_raises (pkg_info : Message)
    (distribution : option Distribution) :
  Forall (λ kv, normalized kv.1 ≠ "provides_extra"
                ∧ normalized kv.1 ≠ "extras"
                ∧ (normalized kv.1 = "requires_dist" →
                   ∀ name, conditioned_on name kv.2 = false))
    (headers pkg_info) →
  pkginfo_to_dict pkg_info distribution = Raise (KeyError "extras").
Proof.
  intros Hall. unfold pkginfo_to_dict.
  assert (∃ m0 block, take_description pkg_info = Ok (m0, block))
    as (m0 & block & Ht).
  { destruct (take_description_cases pkg_info)
      as [(?&?&?&_&_&_&->)|[(_&_&->)|(_&_&->)]]; eauto. }
  rewrite Ht. cbn [mbind result_bind].
  destruct (take_description_block _ _ _ Ht) as (_ & Hsub & Hm0).
  destruct (loop_no_extras pkg_info block
              (unique (Py.lower <$> msg_keys block)) m0)
    as (m & -> & Hm); try done.
  { by apply Forall_forall. }
  { by apply Hm0. }
  cbn [mbind result_bind]. by rewrite lookup_insert_ne, Hm.
Qed.

Lemma conversion_without_extras_raises_witness :
  Forall (λ kv, normalized kv.1 ≠ "provides_extra"
                ∧ normalized kv.1 ≠ "extras"
                ∧ (normalized kv.1 = "requires_dist" →
                   ∀ name, conditioned_on name kv.2 = false))
    [("Metadata-Version", "1.1"); ("Name", "foo"); ("Version", "1.0");
     ("Requires-Dist", "bar>=2")]
  ∧ pkginfo_to_dict
      (mkMessage [("Metadata-Version", "1.1"); ("Name", "foo");
                  ("Version", "1.0"); ("Requires-Dist", "bar>=2")] "")
      None
    = Raise (KeyError "extras").
Proof.
  assert (Forall (λ kv, normalized kv.1 ≠ "provides_extra"
                ∧ normalized kv.1 ≠ "extras"
                ∧ (normalized kv.1 = "requires_dist" →
                   ∀ name, conditioned_on name kv.2 = false))
    [("Metadata-Version", "1.1"); ("Name", "foo"); ("Version", "1.0");
     ("Requires-Dist", "bar>=2")]) as H.
  { repeat constructor; by vm_compute. }
  split; [exact H|].
  exact (conversion_without_extras_raises
           (mkMessage [("Metadata-Version", "1.1"); ("Name", "foo");
                       ("Version", "1.0"); ("Requires-Dist", "bar>=2")] "")
           None H).
Defined.

(** ** The fields of the document after the loop *)

Section after_loop.

Implicit Types (metadata m : gmap string pyval) (msg pkg_info block : Message)
  (key low f : string).

Lemma add_distribution_fields_frame distribution m f :
  f ≠ "test_requires" →
  add_distribution_fields distribution m !! f = m !! f.
Proof.
  intros Hf. unfold add_distribution_fields.
  destruct distribution as [dist|]; [|done]. simpl.
  destruct (dist !! "tests_require") as [v|]; [|done].
  destruct (truthy v); [|done]. by rewrite lookup_insert_ne.
Qed.

Lemma handle_contacts_frame m f :
  f ∉ ["author"; "author_email"; "maintainer"; "maintainer_email";
       "contacts"] →
  handle_contacts m !! f = m !! f.
Proof.
  intros Hf. rewrite handle_contacts_eq. cbv zeta.
  assert (f ≠ "author" ∧ f ≠ "author_email" ∧ f ≠ "maintainer"
          ∧ f ≠ "maintainer_email" ∧ f ≠ "contacts") as (?&?&?&?&?).
  { set_solver. }
  destruct (_ ++ _); rewrite ?lookup_insert_ne by done;
    by rewrite !lookup_delete_ne by done.
Qed.

(** The conversion, given what the loop returns. *)
Lemma pkginfo_to_dict_after_loop pkg_info distribution m0 block m v ex :
  take_description pkg_info = Ok (m0, block) →
  fold_result (process_key block) (unique (Py.lower <$> msg_keys block)) m0
  = Ok m →
  m !! "extras" = Some v → sorted_unique v = Ok ex →
  pkginfo_to_dict pkg_info distribution
  = Ok (handle_contacts
          (add_distribution_fields distribution
             (<["extras" := ex]>
                (<["metadata_version" := PStr METADATA_VERSION]> m)))).
Proof.
  intros Ht Hl Hv Hex. unfold pkginfo_to_dict.
  rewrite Ht. cbn [mbind result_bind]. rewrite Hl. cbn [mbind result_bind].
  rewrite lookup_insert_ne by done. rewrite Hv, Hex. done.
Qed.

(** What a returned document says about the loop. *)
Lemma pkginfo_to_dict_Ok pkg_info distribution doc :
  pkginfo_to_dict pkg_info distribution = Ok doc →
  ∃ m0 block m v ex,
    take_description pkg_info = Ok (m0, block)
    ∧ fold_result (process_key block)
        (unique (Py.lower <$> msg_keys block)) m0 = Ok m
    ∧ m !! "extras" = Some v ∧ sorted_unique v = Ok ex
    ∧ doc = handle_contacts
              (add_distribution_fields distribution
                 (<["extras" := ex]>
                    (<["metadata_version" := PStr METADATA_VERSION]> m))).
Proof.
  unfold pkginfo_to_dict.
  destruct (take_description pkg_info) as [[m0 block]|] eqn:Ht; [|done].
  cbn [mbind result_bind].
  destruct (fold_result _ _ m0) as [m|] eqn:Hl; [|done].
  cbn [mbind result_bind]. rewrite lookup_insert_ne by done.
  destruct (m !! "extras") as [v|] eqn:Hv; [|done].
  destruct (sorted_unique v) as [ex|] eqn:Hex; [|done].
  cbn [mbind result_bind]. intros [= <-]. by exists m0, block, m, v, ex.
Qed.

(** In a loop that returns, a field that one key alone writes holds what
    that key stored. *)
Lemma loop_single_writer block keys m0 m key0 f :
  NoDup keys → key0 ∈ keys →
  (∀ key, key ∈ keys → key ≠ key0 → f ∉ writes (Py.replace "-" "_" key)) →
  fold_result (process_key block) keys m0 = Ok m →
  ∃ m1 m2, m1 !! f = m0 !! f
           ∧ process_key block m1 key0 = Ok m2
           ∧ m !! f = m2 !! f.
Proof.
  intros Hnd Hin Hw Hfold.
  apply list_elem_of_split in Hin as (l1 & l2 & ->).
  apply NoDup_app in Hnd as (_ & Hl1 & [Hl2 _]%NoDup_cons).
  rewrite fold_result_app in Hfold.
  destruct (fold_result _ l1 m0) as [m1|] eqn:H1; [|done].
  cbn [mbind result_bind fold_result] in Hfold.
  destruct (process_key block m1 key0) as [m2|] eqn:H2; [|done].
  cbn [mbind result_bind] in Hfold.
  exists m1, m2. split_and!; [|done|].
  - eapply loop_frame; [done|]. apply Forall_forall. intros key Hkey.
    apply Hw; [set_solver|]. intros ->. by eapply Hl1; [|left].
  - eapply loop_frame; [done|]. apply Forall_forall. intros key Hkey.
    apply Hw; [set_solver|]. by intros ->.
Qed.

Lemma replace_no_underscore key t :
  Py.contains "_" t = false → Py.replace "-" "_" key = t → key = t.
Proof.
  revert t. unfold Py.replace.
  induction key as [|c key IH]; intros t Ht; cbn [Py.map_chars];
    [done|].
  destruct t as [|d t]; [done|]. simpl in Ht.
  apply orb_false_iff in Ht as [Hd Ht]. intros [= Hc Hk].
  rewrite (IH t Ht Hk). f_equal.
  destruct (Py.char_eqb c "-") eqn:E; [|done]. subst d. done.
Qed.

Lemma replace_cons key d t :
  Py.replace "-" "_" key = String d t →
  ∃ c key', key = String c key' ∧ Py.replace "-" "_" key' = t
            ∧ (c = d ∨ c = "-"%char ∧ d = "_"%char).
Proof.
  destruct key as [|c key]; [done|]. unfold Py.replace. cbn [Py.map_chars].
  intros [= Hc Hk]. exists c, key. split_and!; [done..|].
  destruct (Py.char_eqb c "-") eqn:E; [|by left].
  apply char_eqb_eq in E. by right.
Qed.

Lemma replace_provides_dist key :
  Py.replace "-" "_" key = "provides_dist" →
  key = "provides-dist" ∨ key = "provides_dist".
Proof.
  intros H.
  do 8 (apply replace_cons in H as (? & ? & -> & H & [->|[_ [=]]])).
  apply replace_cons in H as (c & ? & -> & H & Hc).
  apply replace_no_underscore in H as ->; [|done].
  destruct Hc as [->|[-> _]]; auto.
Qed.


Lemma take_description_values pkg_info m0 block name :
  take_description pkg_info = Ok (m0, block) →
  Py.lower name ≠ "description" →
  values_of block name = values_of pkg_info name
  ∧ msg_get block name = msg_get pkg_info name.
Proof.
  intros Ht Hn.
  destruct (take_description_block _ _ _ Ht) as ([->| ->] & _ & _); [done|].
  by rewrite values_of_del_ne, msg_get_del_ne.
Qed.

Lemma values_of_loop_key msg name :
  values_of msg name ≠ [] →
  Py.lower name ∈ unique (Py.lower <$> msg_keys msg).
Proof.
  intros H. rewrite unique_elem.
  destruct (values_of msg name) as [|v vs] eqn:Hv; [done|].
  assert (v ∈ values_of msg name) as Hin by (rewrite Hv; left).
  apply values_of_elem in Hin as (k & Hin & <-).
  apply list_elem_of_fmap. exists k. split; [done|].
  apply msg_keys_elem. eauto.
Qed.

Lemma final_fields_frame distribution m ex f :
  f ∉ ["extras"; "metadata_version"; "test_requires"; "author";
       "author_email"; "maintainer"; "maintainer_email"; "contacts"] →
  handle_contacts
    (add_distribution_fields distribution
       (<["extras" := ex]>
          (<["metadata_version" := PStr METADATA_VERSION]> m))) !! f
  = m !! f.
Proof.
  intros Hf.
  rewrite handle_contacts_frame by set_solver.
  rewrite add_distribution_fields_frame by set_solver.
  rewrite !lookup_insert_ne; [done|set_solver..].
Qed.

(** A plural field that the headers of one name alone write holds all
    their values, in the order of the headers. *)
Lemma plural_field_value pkg_info distribution doc name plural :
  pkginfo_to_dict pkg_info distribution = Ok doc →
  rule_of (normalized name) = PluralRule plural →
  plural ∉ ["extras"; "metadata_version"; "test_requires"; "author";
            "author_email"; "maintainer"; "maintainer_email"; "contacts"] →
  Py.lower name ≠ "description" →
  normalized name ∉ UNKNOWN_FIELDS →
  values_of pkg_info name ≠ [] →
  (∀ kv, kv ∈ headers pkg_info → Py.lower kv.1 ≠ Py.lower name →
         plural ∉ writes (normalized kv.1)) →
  doc !! plural = Some (str_list (values_of pkg_info name)).
Proof.
  intros Hdoc Hrule Hplural Hname Hunk Hvalues Hothers.
  apply pkginfo_to_dict_Ok in Hdoc
    as (m0 & block & m & v & ex & Ht & Hl & _ & _ & ->).
  rewrite final_fields_frame by done.
  destruct (take_description_values _ _ _ name Ht Hname) as [Hv Hg].
  destruct (take_description_block _ _ _ Ht) as (_ & Hsub & _).
  destruct (loop_single_writer block
              (unique (Py.lower <$> msg_keys block)) m0 m (Py.lower name)
              plural (unique_NoDup _))
    as (m1 & m2 & _ & Hstep & ->); [| |done|].
  { apply values_of_loop_key. by rewrite Hv. }
  { intros key Hkey Hne.
    destruct (loop_key_origin block key Hkey) as (k & v' & Hkv & ->).
    by apply (Hothers (k, v')); [apply Hsub|]. }
  rewrite process_key_rule in Hstep.
  unfold placeholder in Hstep.
  rewrite (bool_decide_eq_false_2 (_ ∈ UNKNOWN_FIELDS)) in Hstep by done.
  simpl in Hstep. unfold normalized in Hrule. rewrite Hrule in Hstep.
  injection Hstep as <-. rewrite lookup_insert_eq.
  unfold msg_get_all. rewrite values_of_lower, Hv.
  by destruct (values_of pkg_info name).
Qed.

End after_loop.

(** C5, as the code has it: the plural fields hold every value of their
    headers, in the order of the headers and with the repetitions.  When
    the document is returned, [classifiers] is the list of the values of
    the [Classifier] headers, unless a header [Classifiers] writes the field
    too, and [provides] that of the [Provides-Dist] headers, unless a header
    [Provides_Dist] or [Provides] writes the field too. *)
Theorem plural_fields_hold_all_values (pkg_info : Message)
    (distribution : option Distribution) (doc : gmap string pyval) :
  pkginfo_to_dict pkg_info distribution = Ok doc →
  (values_of pkg_info "Classifier" ≠ [] →
   Forall (λ kv, Py.lower kv.1 ≠ "classifiers") (headers pkg_info) →
   doc !! "classifiers" = Some (str_list (values_of pkg_info "Classifier")))
  ∧ (values_of pkg_info "Provides-Dist" ≠ [] →
     Forall (λ kv, Py.lower kv.1 ≠ "provides_dist"
                   ∧ Py.lower kv.1 ≠ "provides") (headers pkg_info) →
     doc !! "provides"
     = Some (str_list (values_of pkg_info "Provides-Dist"))).
Proof.
  intros Hdoc. split; intros Hvalues Hall; rewrite Forall_forall in Hall.
  - apply (plural_field_value pkg_info distribution doc "Classifier");
      [done|evaluate|not_in_list|by vm_compute|by vm_compute|done|].
    intros [k v] Hkv Hk. specialize (Hall _ Hkv). simpl in *.
    unfold writes, normalized.
    destruct (rule_of_cases (Py.replace "-" "_" (Py.lower k)))
      as [[Hlow _]|[[_ ->]|[[_ ->]|[[_ ->]|[[_ ->]|[-> _]]]]]];
      try not_in_list.
    + by apply replace_no_underscore in Hlow.
    + intros Hin%list_elem_of_singleton. symmetry in Hin.
      by apply replace_no_underscore in Hin.
  - apply (plural_field_value pkg_info distribution doc "Provides-Dist");
      [done|evaluate|not_in_list|by vm_compute|by vm_compute|done|].
    intros [k v] Hkv Hk. destruct (Hall _ Hkv) as [H1 H2]. simpl in *.
    unfold writes, normalized.
    destruct (rule_of_cases (Py.replace "-" "_" (Py.lower k)))
      as [[_ ->]|[[Hlow _]|[[_ ->]|[[_ ->]|[[_ ->]|[-> _]]]]]];
      try not_in_list.
    + by apply replace_provides_dist in Hlow as [?|?].
    + intros Hin%list_elem_of_singleton. symmetry in Hin.
      by apply replace_no_underscore in Hin.
Qed.

Lemma plural_fields_hold_all_values_witness :
  pkginfo_to_dict
    (mkMessage [("Name", "foo"); ("Classifier", "B"); ("Classifier", "A");
                ("Provides-Dist", "p"); ("Provides-Extra", "x");
                ("Classifier", "B")] "") None
  = Ok {[ "name" := PStr "foo"; "classifiers" := str_list ["B"; "A"; "B"];
          "provides" := str_list ["p"]; "extras" := str_list ["x"];
          "metadata_version" := PStr "2.0" ]}
  ∧ ({[ "name" := PStr "foo"; "classifiers" := str_list ["B"; "A"; "B"];
        "provides" := str_list ["p"]; "extras" := str_list ["x"];
        "metadata_version" := PStr "2.0" ]} : gmap string pyval)
      !! "classifiers"
    = Some (str_list
              (values_of
                 (mkMessage [("Name", "foo"); ("Classifier", "B");
                             ("Classifier", "A"); ("Provides-Dist", "p");
                             ("Provides-Extra", "x"); ("Classifier", "B")] "")
                 "Classifier")).
Proof.
  assert (pkginfo_to_dict
    (mkMessage [("Name", "foo"); ("Classifier", "B"); ("Classifier", "A");
                ("Provides-Dist", "p"); ("Provides-Extra", "x");
                ("Classifier", "B")] "") None
  = Ok {[ "name" := PStr "foo"; "classifiers" := str_list ["B"; "A"; "B"];
          "provides" := str_list ["p"]; "extras" := str_list ["x"];
          "metadata_version" := PStr "2.0" ]}) as H by evaluate.
  split; [exact H|].
  refine (proj1 (plural_fields_hold_all_values _ _ _ H) _ _).
  - by vm_compute.
  - repeat constructor; by vm_compute.
Defined.

(** C5, against its wording: a [Classifier] value given twice stands
    twice in [classifiers]. *)
Lemma classifiers_keep_duplicates :
  pkginfo_to_dict
    (mkMessage [("Classifier", "A"); ("Classifier", "A");
                ("Provides-Extra", "x")] "") None
  = Ok {[ "classifiers" := str_list ["A"; "A"]; "extras" := str_list ["x"];
          "metadata_version" := PStr "2.0" ]}
  ∧ ¬ NoDup ["A"; "A"].
Proof.
  split; [evaluate|]. intros H. apply NoDup_cons in H as [H _].
  apply H. by left.
Qed.

(** ** Where the fields of the document come from *)

Section provenance.

Implicit Types (metadata m : gmap string pyval) (msg pkg_info block : Message)
  (key low f : string) (v : pyval).

Lemma insert_sorted_not_nil {A} (le : A → A → bool) x (l : list A) :
  insert_sorted le x l ≠ [].
Proof. destruct l; simpl; [done|]. by destruct (le x a). Qed.

Lemma sorted_by_not_nil {A} (le : A → A → bool) (l : list A) :
  l ≠ [] → sorted_by le l ≠ [].
Proof. destruct l; [done|]. intros _. simpl. apply insert_sorted_not_nil. Qed.

Lemma sorted_items_not_nil {V} (d : gmap string V) :
  d ≠ ∅ → sorted_items d ≠ [].
Proof.
  intros Hd. apply sorted_by_not_nil. by rewrite map_to_list_empty_iff.
Qed.

Lemma unique_not_nil (l : list string) : l ≠ [] → unique l ≠ [].
Proof.
  destruct l as [|x l]; [done|]. intros _. unfold unique. simpl.
  destruct (decide (x ∈ ∅)) as [H|_]; [by apply elem_of_empty in H|done].
Qed.

Lemma map_result_length {A B} (g : A → result B) (l : list A) bs :
  map_result g l = Ok bs → length bs = length l.
Proof.
  revert bs. induction l as [|a l IH]; intros bs; simpl.
  - by intros [= <-].
  - destruct (g a); [|done]. cbn [mbind result_bind].
    destruct (map_result g l) as [bs'|]; [|done]. cbn [mbind result_bind].
    intros [= <-]. simpl. by rewrite (IH bs').
Qed.

Lemma truthy_str_list (l : list string) : truthy (str_list l) = true ↔ l ≠ [].
Proof. by destruct l. Qed.

Lemma iterate_not_nil v items :
  truthy v = true → iterate v = Ok items → items ≠ [].
Proof.
  destruct v as [|s|l|d]; simpl; try done.
  - destruct s; [done|]. by intros _ [= <-].
  - destruct l; [done|]. by intros _ [= <-].
  - intros Hd%bool_decide_eq_true [= <-].
    intros H. apply fmap_nil_inv, fmap_nil_inv in H.
    by apply map_to_list_empty_iff in H.
Qed.

(** Line 107 keeps a value that is not empty from becoming empty. *)
Lemma sorted_unique_truthy v ex :
  sorted_unique v = Ok ex → truthy v = true → truthy ex = true.
Proof.
  unfold sorted_unique. intros H Hv.
  destruct (iterate v) as [items|] eqn:Hi; [|done].
  cbn [mbind result_bind] in H.
  pose proof (iterate_not_nil v items Hv Hi) as Hne.
  assert (∀ texts, map_result as_text items = Ok texts →
            truthy (str_list (sorted (unique texts))) = true) as Htexts.
  { intros texts Ht. apply truthy_str_list, sorted_by_not_nil, unique_not_nil.
    apply map_result_length in Ht. by destruct texts, items. }
  destruct items as [|[] [|]]; try done;
    try (by injection H as <-);
    destruct (map_result as_text _) as [texts|] eqn:Ht; try done;
    cbn [mbind result_bind] in H; injection H as <-; by apply Htexts.
Qed.


Lemma extend_extras_written m more m' f v :
  extend_extras m more = Ok m' → more ≠ [] → m' !! f = Some v →
  m !! f = Some v ∨ f = "extras" ∧ truthy v = true.
Proof.
  unfold extend_extras. intros H Hmore Hv.
  destruct (decide (f = "extras")) as [->|Hf].
  - right. split; [done|].
    destruct (m !! "extras") as [old|] eqn:E.
    + rewrite E in H. destruct old as [| |l|]; try done.
      injection H as <-. rewrite lookup_insert_eq in Hv. injection Hv as <-.
      destruct more; [done|]. by destruct l.
    + rewrite lookup_insert_eq in H. injection H as <-.
      rewrite lookup_insert_eq in Hv. injection Hv as <-. by destruct more.
  - left. by rewrite <- (extend_extras_frame _ _ _ _ H Hf).
Qed.

Lemma store_requirements_written m values m' f v :
  store_requirements m values = Ok m' → m' !! f = Some v →
  m !! f = Some v
  ∨ f ∈ ["requires"; "may_require"; "extras"]
    ∧ (truthy v = true ∨ f = "requires").
Proof.
  unfold store_requirements.
  destruct (group_requirements values) as [rs ex]. intros H Hv.
  destruct (bool_decide (ex ≠ ∅)) eqn:Hex.
  - apply bool_decide_eq_true in Hex.
    pose proof (sorted_items_not_nil ex Hex) as Hne.
    destruct (extend_extras_written _ _ _ f v H) as [H'|[-> ?]];
      [by destruct (sorted_items ex)|done| |].
    + destruct (decide (f = "may_require")) as [->|?].
      { rewrite lookup_insert_eq in H'. injection H' as <-. right.
        split; [by repeat constructor|]. left. by destruct (sorted_items ex). }
      rewrite lookup_insert_ne in H' by done.
      destruct (decide (f = "requires")) as [->|?].
      { right. split; [by repeat constructor|]. by right. }
      left. by rewrite lookup_insert_ne in H'.
    + right. split; [by repeat constructor|]. by left.
  - injection H as <-.
    destruct (decide (f = "requires")) as [->|?].
    + right. split; [by repeat constructor|]. by right.
    + left. by rewrite lookup_insert_ne in Hv.
Qed.

(** What the loop knows of one of its keys. *)
Lemma block_key_facts pkg_info m0 block key :
  take_description pkg_info = Ok (m0, block) →
  key ∈ unique (Py.lower <$> msg_keys block) →
  ∃ k hv first others,
    (k, hv) ∈ headers pkg_info ∧ key = Py.lower k
    ∧ msg_get block key = Some first
    ∧ msg_get_all block key = Some (first :: others)
    ∧ msg_get pkg_info k = Some first.
Proof.
  intros Ht Hkey.
  destruct (loop_key_header block key Hkey) as (_ & first & others & Hg & Hga).
  destruct (loop_key_origin block key Hkey) as (k & hv & Hkv & ->).
  destruct (take_description_block _ _ _ Ht) as (Hb & Hsub & _).
  exists k, hv, first, others. split_and!; try done; [by apply Hsub|].
  rewrite msg_get_lower in Hg.
  destruct Hb as [->| ->]; [done|].
  rewrite msg_get_del_ne in Hg; [done|].
  unfold msg_del in Hkv. simpl in Hkv.
  apply list_elem_of_In, List.filter_In in Hkv as [_ Hk].
  apply negb_true_iff in Hk. unfold same_key in Hk. simpl in Hk.
  apply String.eqb_neq in Hk. done.
Qed.

Lemma placeholder_lower pkg_info k :
  placeholder pkg_info (Py.lower k)
  = bool_decide (normalized k ∈ UNKNOWN_FIELDS)
    && bool_decide (msg_get pkg_info k = Some "UNKNOWN").
Proof. unfold placeholder, normalized. by rewrite msg_get_lower. Qed.

Lemma header_source_intro pkg_info f k hv :
  (k, hv) ∈ headers pkg_info →
  f ∈ writes (normalized k) →
  placeholder pkg_info (Py.lower k) = false →
  header_source pkg_info f = true.
Proof.
  intros Hin Hf Hp. unfold header_source. apply List.existsb_exists.
  exists (k, hv). split; [by apply list_elem_of_In|].
  unfold produces. cbn [fst]. rewrite Hp.
  by rewrite bool_decide_eq_true_2.
Qed.

Lemma has_source_header pkg_info f :
  header_source pkg_info f = true → has_source pkg_info f = true.
Proof. unfold has_source. by intros ->. Qed.

Lemma written_given pkg_info f v k hv :
  (k, hv) ∈ headers pkg_info →
  f ∈ writes (normalized k) →
  placeholder pkg_info (Py.lower k) = false →
  (truthy v = false → f = "requires" ∨ msg_get pkg_info k = Some "") →
  given pkg_info f v.
Proof.
  intros Hin Hf Hp Hv. split.
  - by eapply has_source_header, header_source_intro.
  - intros [->|Hg]%Hv; [by left|right].
    unfold empty_source. apply List.existsb_exists.
    exists (k, hv). split; [by apply list_elem_of_In|]. simpl.
    apply andb_true_iff. split; by apply bool_decide_eq_true.
Qed.

(** The loop keeps every field given by the header block. *)
Lemma process_key_given pkg_info m0 block m key m' :
  take_description pkg_info = Ok (m0, block) →
  key ∈ unique (Py.lower <$> msg_keys block) →
  process_key block m key = Ok m' →
  (∀ f v, m !! f = Some v → given pkg_info f v) →
  ∀ f v, m' !! f = Some v → given pkg_info f v.
Proof.
  intros Ht Hkey Hstep Hm f v Hv.
  destruct (block_key_facts _ _ _ _ Ht Hkey)
    as (k & hv & first & others & Hin & -> & Hg & Hga & Hgp).
  rewrite process_key_rule in Hstep.
  destruct (placeholder block (Py.lower k)) eqn:Hp.
  { injection Hstep as <-. by apply Hm. }
  assert (placeholder pkg_info (Py.lower k) = false) as Hp'.
  { rewrite placeholder_lower. unfold placeholder in Hp.
    rewrite Hg in Hp. by rewrite Hgp. }
  change (Py.replace "-" "_" (Py.lower k)) with (normalized k) in Hstep.
  assert (∀ f', f' ∈ writes (normalized k) →
            (truthy v = false →
             f' = "requires" ∨ msg_get pkg_info k = Some "") →
            given pkg_info f' v) as Hgiven.
  { intros f' Hf' Hempty. by eapply written_given. }
  unfold writes in Hgiven.
  destruct (rule_of (normalized k)) as [plural| | |] eqn:Hrule.
  - injection Hstep as <-.
    destruct (decide (f = plural)) as [->|Hne].
    + rewrite lookup_insert_eq in Hv. injection Hv as <-.
      apply Hgiven; [by repeat constructor|]. by rewrite Hga.
    + rewrite lookup_insert_ne in Hv by done. by apply Hm.
  - rewrite Hga in Hstep.
    eapply store_requirements_written in Hstep as [H|[Hf Ht']]; [| |done].
    + by apply Hm.
    + apply Hgiven; [done|]. intros Hfalse.
      destruct Ht' as [?|?]; [congruence|by left].
  - injection Hstep as <-.
    destruct (decide (f = "project_urls")) as [->|Hne].
    + rewrite lookup_insert_eq in Hv. injection Hv as <-.
      apply Hgiven; [by repeat constructor|]. simpl.
      rewrite bool_decide_eq_true_2; [done|]. apply map_non_empty_singleton.
    + rewrite lookup_insert_ne in Hv by done. by apply Hm.
  - injection Hstep as <-.
    destruct (decide (f = normalized k)) as [->|Hne].
    + rewrite lookup_insert_eq in Hv. injection Hv as <-.
      apply Hgiven; [by repeat constructor|]. rewrite Hg. simpl.
      intros H%negb_false_iff%String.eqb_eq. subst first. by right.
    + rewrite lookup_insert_ne in Hv by done. by apply Hm.
Qed.

Lemma loop_given pkg_info m0 block keys m m' :
  take_description pkg_info = Ok (m0, block) →
  Forall (λ key, key ∈ unique (Py.lower <$> msg_keys block)) keys →
  fold_result (process_key block) keys m = Ok m' →
  (∀ f v, m !! f = Some v → given pkg_info f v) →
  ∀ f v, m' !! f = Some v → given pkg_info f v.
Proof.
  intros Ht. revert m. induction keys as [|key keys IH]; intros m Hkeys; simpl.
  - by intros [= <-].
  - apply Forall_cons in Hkeys as [Hkey Hkeys].
    destruct (process_key block m key) as [m1|] eqn:H1; [|done].
    cbn [mbind result_bind]. intros Hfold Hm. apply (IH m1); [done..|].
    by eapply process_key_given.
Qed.

(** The description the conversion starts with is given. *)
Lemma take_description_given pkg_info m0 block :
  take_description pkg_info = Ok (m0, block) →
  ∀ f v, m0 !! f = Some v → given pkg_info f v.
Proof.
  intros Ht f v Hv.
  destruct (take_description_cases pkg_info)
    as [(c & d & n & Hd & _ & Hn & H')|[(_ & Hp & H')|(_ & _ & H')]];
    rewrite H' in Ht; injection Ht as <- <-.
  - apply lookup_singleton_Some in Hv as [<- <-].
    split; [|by destruct n].
    apply has_source_header.
    unfold msg_get in Hd.
    destruct (List.find _ _) as [[k hv]|] eqn:Hf; [|done].
    apply List.find_some in Hf as [Hin Hk].
    apply (header_source_intro _ _ k hv); [by apply list_elem_of_In| |].
    + unfold same_key in Hk. apply String.eqb_eq in Hk. simpl in Hk.
      unfold normalized. rewrite Hk. vm_compute. by repeat constructor.
    + unfold same_key in Hk. apply String.eqb_eq in Hk. simpl in Hk.
      unfold placeholder. rewrite Hk.
      by rewrite bool_decide_eq_false_2 by by vm_compute.
  - apply lookup_singleton_Some in Hv as [<- <-].
    split; [|by destruct (payload pkg_info)].
    unfold has_source. simpl.
    apply String.eqb_neq in Hp. rewrite Hp. simpl.
    by rewrite orb_true_r.
  - by rewrite lookup_empty in Hv.
Qed.

Lemma has_source_piece pkg_info f :
  f ∈ ["author"; "author_email"; "maintainer"; "maintainer_email"] →
  has_source pkg_info f = true → header_source pkg_info f = true.
Proof.
  intros Hf. unfold has_source. in_cases Hf; subst; simpl;
    by rewrite !orb_false_r.
Qed.

Lemma contact_records_piece name email role :
  contact_records name email role ≠ [] → is_Some name ∨ is_Some email.
Proof. destruct name, email; simpl; intros H; eauto; done. Qed.

(** Every field of the document is accounted for. *)
Lemma document_accounted pkg_info distribution doc f v :
  pkginfo_to_dict pkg_info distribution = Ok doc →
  doc !! f = Some v → accounted pkg_info distribution f v.
Proof.
  intros Hdoc Hv.
  apply pkginfo_to_dict_Ok in Hdoc
    as (m0 & block & m & v0 & ex & Ht & Hl & Hex0 & Hex & ->).
  assert (∀ f v, m !! f = Some v → given pkg_info f v) as Hm.
  { eapply loop_given; [done| |done|by eapply take_description_given].
    by apply Forall_forall. }
  set (versioned := <["extras" := ex]>
                      (<["metadata_version" := PStr METADATA_VERSION]> m)).
  assert (∀ f v, versioned !! f = Some v →
                 accounted pkg_info distribution f v) as Hversioned.
  { intros f' v' H. unfold versioned in H.
    destruct (decide (f' = "extras")) as [->|?].
    - rewrite lookup_insert_eq in H. injection H as <-.
      right; right. destruct (Hm _ _ Hex0) as [Hs He].
      split; [done|]. intros Hfalse. apply He.
      destruct (truthy v0) eqn:Hv0; [|done].
      by rewrite (sorted_unique_truthy _ _ Hex Hv0) in Hfalse.
    - rewrite lookup_insert_ne in H by done.
      destruct (decide (f' = "metadata_version")) as [->|?]; [by left|].
      rewrite lookup_insert_ne in H by done. right; right. by apply Hm. }
  set (supplied := add_distribution_fields distribution versioned).
  assert (∀ f v, supplied !! f = Some v →
                 accounted pkg_info distribution f v) as Hsupplied.
  { intros f' v' H. unfold supplied, add_distribution_fields in H.
    destruct distribution as [dist|]; [|by apply Hversioned].
    simpl in H. destruct (dist !! "tests_require") as [req|] eqn:Hreq;
      [|by apply Hversioned].
    destruct (truthy req) eqn:Hreq'; [|by apply Hversioned].
    destruct (decide (f' = "test_requires")) as [->|?].
    - rewrite lookup_insert_eq in H. injection H as <-.
      right; left. split; [done|]. by exists dist.
    - rewrite lookup_insert_ne in H by done. by apply Hversioned. }
  fold versioned supplied in Hv. rewrite handle_contacts_eq in Hv.
  cbv zeta in Hv.
  set (contacts := contact_records (supplied !! "author")
                     (supplied !! "author_email") "author"
                   ++ contact_records (supplied !! "maintainer")
                        (supplied !! "maintainer_email") "maintainer") in Hv.
  assert (∀ f v,
            delete "maintainer" (delete "maintainer_email"
              (delete "author" (delete "author_email" supplied))) !! f
            = Some v → supplied !! f = Some v) as Hrest.
  { intros f' v' H.
    by repeat (apply lookup_delete_Some in H as [_ H]). }
  assert (contacts ≠ [] → given pkg_info "contacts" (PList contacts))
    as Hcontacts.
  { intros Hne. split; [|by destruct contacts].
    assert (∃ f' v', f' ∈ ["author"; "author_email"; "maintainer";
                           "maintainer_email"]
                     ∧ supplied !! f' = Some v') as (f' & v' & Hf' & Hs).
    { unfold contacts in Hne.
      destruct (contact_records (supplied !! "author") _ _) eqn:Ha.
      - simpl in Hne. apply contact_records_piece in Hne as [[? ?]|[? ?]];
          eexists _, _; (split; [|done]); by repeat constructor.
      - assert (contact_records (supplied !! "author")
                  (supplied !! "author_email") "author" ≠ []) as Hne'
          by by rewrite Ha.
        apply contact_records_piece in Hne' as [[? ?]|[? ?]];
          eexists _, _; (split; [|done]); by repeat constructor. }
    destruct (Hsupplied _ _ Hs) as [->|[[-> _]|[Hsrc _]]];
      [by in_cases Hf'..|].
    apply has_source_piece in Hsrc; [|done].
    unfold has_source. simpl.
    in_cases Hf'; subst; rewrite Hsrc; by rewrite ?orb_true_r. }
  destruct contacts as [|c cs] eqn:Hc.
  - by apply Hsupplied, Hrest.
  - destruct (decide (f = "contacts")) as [->|?].
    + rewrite lookup_insert_eq in Hv. injection Hv as <-.
      right; right. by apply Hcontacts.
    + rewrite lookup_insert_ne in Hv by done. by apply Hsupplied, Hrest.
Qed.

End provenance.

(** ** Placeholder values *)

Section suppression.

Implicit Types (m : gmap string pyval) (pkg_info block : Message)
  (key name : string).

Lemma process_key_same_lookups block block' m key :
  msg_get block' key = msg_get block key →
  msg_get_all block' key = msg_get_all block key →
  process_key block' m key = process_key block m key.
Proof. unfold process_key. by intros -> ->. Qed.

Lemma fold_result_ext {A B} (g h : A → B → result A) (l : list B) (a : A) :
  Forall (λ b, ∀ a, g a b = h a b) l →
  fold_result g l a = fold_result h l a.
Proof.
  revert a. induction l as [|b l IH]; intros a Hl; simpl; [done|].
  apply Forall_cons in Hl as [Hb Hl]. rewrite Hb.
  destruct (h a b); simpl; [by apply IH|done].
Qed.

(** A key whose turn changes nothing can be left out of the loop. *)
Lemma fold_result_skip {A} (g : A → string → result A) (l : list string)
    (k : string) (a : A) :
  (∀ a, g a k = Ok a) →
  fold_result g (List.filter (λ x, negb (String.eqb x k)) l) a
  = fold_result g l a.
Proof.
  intros Hk. revert a. induction l as [|x l IH]; intros a; simpl; [done|].
  destruct (String.eqb_spec x k) as [->|Hne]; simpl.
  - rewrite Hk. simpl. apply IH.
  - destruct (g a x); simpl; [apply IH|done].
Qed.

Lemma unknown_field_not_description name :
  normalized name ∈ UNKNOWN_FIELDS → Py.lower name ≠ "description".
Proof.
  unfold normalized. intros H E. rewrite E in H.
  by apply (bool_decide_pack _) in H.
Qed.

Lemma take_description_del pkg_info name :
  Py.lower name ≠ "description" →
  take_description (msg_del pkg_info name)
  = match take_description pkg_info with
    | Ok (m0, block) => Ok (m0, msg_del block name)
    | Raise e => Raise e
    end.
Proof.
  intros Hname. unfold take_description.
  assert (msg_get (msg_del pkg_info name) "Description"
          = msg_get pkg_info "Description") as Hget.
  { apply msg_get_del_ne. by intros E. }
  rewrite Hget, (dedent_description_get pkg_info _ Hget).
  destruct (truthy (opt_str (msg_get pkg_info "Description"))).
  - destruct (dedent_description pkg_info); [|done].
    cbn [mbind result_bind]. by rewrite msg_del_del.
  - simpl. by destruct (negb _).
Qed.

(** The loop over a block without the headers of a placeholder key. *)
Lemma loop_without_placeholder block name m :
  normalized name ∈ UNKNOWN_FIELDS →
  msg_get block name = Some "UNKNOWN" →
  fold_result (process_key (msg_del block name))
    (unique (Py.lower <$> msg_keys (msg_del block name))) m
  = fold_result (process_key block) (unique (Py.lower <$> msg_keys block)) m.
Proof.
  intros Hunk Hget.
  rewrite lowered_keys_del, unique_without.
  rewrite <- (fold_result_skip (process_key block) _ (Py.lower name)).
  - apply fold_result_ext, Forall_forall. intros key Hkey m'.
    apply list_elem_of_In, List.filter_In in Hkey as [Hkey Hne].
    apply list_elem_of_In, loop_key_header in Hkey as [Hlow _].
    apply negb_true_iff, String.eqb_neq in Hne.
    assert (Py.lower key ≠ Py.lower name) as Hne' by by rewrite Hlow.
    apply process_key_same_lookups.
    + by apply msg_get_del_ne.
    + by apply msg_get_all_del_ne.
  - intros m'. rewrite process_key_rule.
    assert (placeholder block (Py.lower name) = true) as ->; [|done].
    unfold placeholder. rewrite msg_get_lower, Hget.
    apply andb_true_iff. split; by apply bool_decide_eq_true.
Qed.

(** The headers of a key whose first value is the placeholder leave no
    trace in the document. *)
Lemma placeholder_leaves_no_trace pkg_info distribution name :
  normalized name ∈ UNKNOWN_FIELDS →
  msg_get pkg_info name = Some "UNKNOWN" →
  pkginfo_to_dict (msg_del pkg_info name) distribution
  = pkginfo_to_dict pkg_info distribution.
Proof.
  intros Hunk Hget.
  pose proof (unknown_field_not_description name Hunk) as Hname.
  unfold pkginfo_to_dict. rewrite take_description_del by done.
  destruct (take_description pkg_info) as [[m0 block]|] eqn:Ht; [|done].
  cbn [mbind result_bind].
  destruct (take_description_values _ _ _ name Ht Hname) as [_ Hg].
  rewrite loop_without_placeholder; [done..|]. by rewrite Hg.
Qed.

End suppression.

(** C6, as the code has it.  When the conversion returns a document,
    every field of it is the version, or the test requirements that the
    distribution object supplies, or is given by the header block: a header
    whose key writes the field and whose first value is no placeholder
    (the payload for the description, a contact piece for the contacts);
    the value of such a field is empty only for [requires] or when the
    first value of such a header is empty.  The headers of a key of the
    placeholder set whose first value is [UNKNOWN] leave no trace: without
    them the conversion returns the same document. *)
Theorem fields_come_from_headers (pkg_info : Message)
    (distribution : option Distribution) (doc : gmap string pyval) :
  pkginfo_to_dict pkg_info distribution = Ok doc →
  (∀ f v, doc !! f = Some v → accounted pkg_info distribution f v)
  ∧ (∀ name,
       normalized name ∈ UNKNOWN_FIELDS →
       msg_get pkg_info name = Some "UNKNOWN" →
       pkginfo_to_dict (msg_del pkg_info name) distribution = Ok doc).
Proof.
  intros Hdoc. split.
  - intros f v. by apply document_accounted.
  - intros name Hunk Hget. by rewrite placeholder_leaves_no_trace.
Qed.

Lemma fields_come_from_headers_witness :
  pkginfo_to_dict
    (mkMessage [("Name", "pkg"); ("Author", "Jane Doe");
                ("Author-email", "UNKNOWN"); ("Provides-Extra", "x")] "")
    None
  = Ok {[ "name" := PStr "pkg"; "extras" := str_list ["x"];
          "metadata_version" := PStr "2.0";
          "contacts" := PList [PDict {[ "name" := PStr "Jane Doe";
                                        "role" := PStr "author" ]}] ]}
  ∧ pkginfo_to_dict
      (msg_del
         (mkMessage [("Name", "pkg"); ("Author", "Jane Doe");
                     ("Author-email", "UNKNOWN"); ("Provides-Extra", "x")] "")
         "Author-email")
      None
    = Ok {[ "name" := PStr "pkg"; "extras" := str_list ["x"];
            "metadata_version" := PStr "2.0";
            "contacts" := PList [PDict {[ "name" := PStr "Jane Doe";
                                          "role" := PStr "author" ]}] ]}.
Proof.
  assert (pkginfo_to_dict
    (mkMessage [("Name", "pkg"); ("Author", "Jane Doe");
                ("Author-email", "UNKNOWN"); ("Provides-Extra", "x")] "")
    None
  = Ok {[ "name" := PStr "pkg"; "extras" := str_list ["x"];
          "metadata_version" := PStr "2.0";
          "contacts" := PList [PDict {[ "name" := PStr "Jane Doe";
                                        "role" := PStr "author" ]}] ]})
    as H by evaluate.
  split; [exact H|].
  refine (proj2 (fields_come_from_headers _ _ _ H) "Author-email" _ _).
  - by apply (bool_decide_unpack _).
  - evaluate.
Defined.

(** C6, against its wording: the distribution object gives the document
    a field that the header block does not have, and [requires] is stored
    empty when no [Requires-Dist] value is unconditional. *)
Lemma fields_not_from_headers :
  pkginfo_to_dict
    (mkMessage [("Requires-Dist", "bar; extra == 'dev'")] "")
    (Some {[ "tests_require" := str_list ["pytest"] ]})
  = Ok {[ "requires" := str_list [];
          "may_require" :=
            PList [PDict {[ "extra" := PStr "dev";
                            "dependencies" := str_list ["bar"] ]}];
          "extras" := str_list ["dev"];
          "metadata_version" := PStr "2.0";
          "test_requires" := str_list ["pytest"] ]}
  ∧ has_source (mkMessage [("Requires-Dist", "bar; extra == 'dev'")] "")
      "test_requires" = false
  ∧ truthy (str_list []) = false
  ∧ List.filter is_unconditional
      (values_of (mkMessage [("Requires-Dist", "bar; extra == 'dev'")] "")
         "Requires-Dist") = [].
Proof. split_and!; evaluate. Qed.

(** * Further properties of the module *)

(** ** [unique] *)

Lemma unique_from_snoc (seen : gset string) (l : list string) (x : string) :
  unique_from seen (l ++ [x])
  = unique_from seen l
    ++ (if decide (x ∈ l ∨ x ∈ seen) then [] else [x]).
Proof.
  revert seen. induction l as [|y l IH]; intros seen; simpl.
  - destruct (decide (x ∈ seen)) as [Hx|Hx].
    + by rewrite decide_True by by right.
    + rewrite decide_False; [done|]. intros [H|H]; [|done].
      by apply elem_of_nil in H.
  - destruct (decide (y ∈ seen)) as [Hy|Hy].
    + rewrite IH. f_equal.
      destruct (decide (x ∈ l ∨ x ∈ seen)) as [H|H].
      * rewrite decide_True; [done|]. destruct H; [left; by right|by right].
      * rewrite decide_False; [done|].
        intros [[->|?]%elem_of_cons|?]; tauto.
    + rewrite IH. simpl. f_equal.
      destruct (decide (x ∈ l ∨ x ∈ {[y]} ∪ seen)) as [H|H].
      * rewrite decide_True; [done|].
        destruct H as [?|[->%elem_of_singleton|?]%elem_of_union];
          [left; by right|left; by left|by right].
      * rewrite decide_False; [done|].
        intros [[->|?]%elem_of_cons|?]; apply H; [right|by left|right];
          apply elem_of_union; [left; by apply elem_of_singleton|by right].
Qed.

(** X1: [unique] keeps the first occurrence of each value, in order: it
    yields nothing for the empty list, and after the values of [l] a value
    [x] is yielded when it is not among them; so the result has the values
    of the list, each once, and a list without repetition is yielded as it
    is. *)
Theorem unique_keeps_first_occurrences :
  unique [] = []
  ∧ (∀ (l : list string) (x : string),
       unique (l ++ [x]) = if decide (x ∈ l) then unique l else unique l ++ [x])
  ∧ (∀ l : list string, NoDup (unique l))
  ∧ (∀ (l : list string) (x : string), x ∈ unique l ↔ x ∈ l)
  ∧ (∀ l : list string, NoDup l → unique l = l).
Proof.
  split; [done|]. split; [|split; [apply unique_NoDup|split; [apply unique_elem|]]].
  - intros l x. unfold unique. rewrite unique_from_snoc.
    destruct (decide (x ∈ l)) as [H|H].
    + rewrite decide_True by by left. by rewrite app_nil_r.
    + rewrite decide_False; [done|]. intros [?|?%elem_of_empty]; done.
  - intros l. induction l as [|x l IH] using rev_ind; [done|].
    intros (Hl & Hx & _)%NoDup_app.
    unfold unique. rewrite unique_from_snoc.
    rewrite decide_False.
    + f_equal. by apply IH.
    + intros [H|H%elem_of_empty]; [|done].
      apply (Hx x); [done|by left].
Qed.

(** ** The pattern, in full *)

Lemma first_line_rest s :
  ∃ u, s = first_line s +:+ u
       ∧ (u = "" ∨ ∃ u', u = String Py.newline u').
Proof.
  induction s as [|a s (u & IH & Hu)]; simpl.
  - exists "". auto.
  - destruct (Py.char_eqb a Py.newline) eqn:E; simpl.
    + apply char_eqb_eq in E as ->. exists (String Py.newline s). eauto.
    + exists u. by rewrite <- IH.
Qed.

Lemma first_line_of_rest t u :
  Py.contains Py.newline t = false →
  (u = "" ∨ ∃ u', u = String Py.newline u') →
  first_line (t +:+ u) = t.
Proof.
  intros Ht Hu. rewrite first_line_app by done.
  destruct Hu as [->|[u' ->]]; simpl; by rewrite str_app_nil_r.
Qed.

(** A marker of the form is matched with the name up to its last single
    quote on the first line. *)
Lemma EXTRA_RE_match_intro (name tail : string) :
  name ≠ "" → Py.contains Py.newline name = false →
  Py.contains Py.squote (first_line tail) = false →
  EXTRA_RE_match ("extra == '" +:+ name +:+ "'" +:+ tail) = Some name.
Proof.
  intros Hne Hn Ht. unfold EXTRA_RE_match.
  destruct (Py.drop_prefix _ _) as [rest|] eqn:Hd.
  2:{ assert (is_Some (None : option string)) as [? [=]].
      rewrite <- Hd. apply startswith_drop_prefix, startswith_app. eauto. }
  apply drop_prefix_Some in Hd. apply (inj (String.app _)) in Hd as <-.
  rewrite first_line_app by done.
  destruct name as [|c name]; [done|]. simpl.
  assert (upto_last_quote (name +:+ String Py.squote (first_line tail))
          = Some name) as Hq.
  { apply upto_last_quote_Some. by exists (first_line tail). }
  change ("'" +:+ tail) with (String Py.squote tail). simpl.
  change "'"%char with Py.squote. by rewrite Hq.
Qed.

(** X2: the pattern [EXTRA_RE] matches a marker, with the name [name],
    exactly when the marker is [extra == '] followed by [name], a single
    quote and a rest, where the name is not empty and holds no line feed,
    and the rest has no single quote on its first line: the name runs to
    the last single quote of the line, so a compound marker such as
    [extra == 'a' or extra == 'b'] gives the name [a' or extra == 'b]. *)
Theorem EXTRA_RE_match_greedy (marker name : string) :
  (EXTRA_RE_match marker = Some name ↔
   name ≠ "" ∧ Py.contains Py.newline name = false
   ∧ ∃ tail, marker = "extra == '" +:+ name +:+ "'" +:+ tail
             ∧ Py.contains Py.squote (first_line tail) = false)
  ∧ EXTRA_RE_match "extra == 'a' or extra == 'b'" = Some "a' or extra == 'b".
Proof.
  split; [|evaluate]. split.
  - unfold EXTRA_RE_match.
    destruct (Py.drop_prefix _ marker) as [rest|] eqn:Hd; [|done].
    apply drop_prefix_Some in Hd as ->.
    destruct (first_line rest) as [|c s'] eqn:Hl; [done|].
    destruct (upto_last_quote s') as [p|] eqn:Hq; [|done].
    intros [= <-]. apply upto_last_quote_Some in Hq as (t & -> & Ht).
    pose proof (first_line_no_newline rest) as Hn. rewrite Hl in Hn.
    simpl in Hn. rewrite contains_app in Hn.
    apply orb_false_iff in Hn as [Hc Hn]. apply orb_false_iff in Hn as [Hp Hn].
    simpl in Hn.
    split; [done|]. split; [simpl; by rewrite Hc, Hp|].
    destruct (first_line_rest rest) as (u & Hu & Hu'). rewrite Hl in Hu.
    exists (t +:+ u). split.
    + rewrite Hu. simpl. by rewrite !str_app_assoc.
    + by rewrite first_line_of_rest.
  - intros (Hne & Hn & tail & -> & Ht).
    exact (EXTRA_RE_match_intro name tail Hne Hn Ht).
Qed.

(** ** [dedent_description], when it raises *)

(** X3: for a header block whose [Description] value, if there is one,
    is native text (the branch of lines 186-193 and 203-206, for a value
    that is not a [str], is not part of the model): [dedent_description]
    raises [AttributeError] when the block has no [Description] header,
    [IndexError] when the first [Description] value is the empty text, and
    returns a text otherwise; the text ends with two line feeds. *)
Theorem dedent_description_outcome (pkg_info : Message) :
  match msg_get pkg_info "Description" with
  | None => dedent_description pkg_info = Raise AttributeError
  | Some EmptyString => dedent_description pkg_info = Raise IndexError
  | Some (String _ _) =>
      ∃ body, dedent_description pkg_info = Ok (body +:+ Py.nl +:+ Py.nl)
  end.
Proof.
  unfold dedent_description.
  destruct (msg_get pkg_info "Description") as [[|c d]|]; [done| |done].
  pose proof (splitlines_nonempty (String c d)) as Hne.
  destruct (Py.splitlines (String c d)) as [|first following];
    [by destruct Hne|].
  exists (Py.lstrip first +:+ Py.nl
          +:+ Py.dedent (Py.join Py.nl following)).
  f_equal. simpl Py.join. unfold Py.nl. simpl. by rewrite ?str_app_assoc.
Qed.

(** ** The version of the document *)

(** X4: a document that the forward conversion returns has
    [metadata_version] equal to ["2.0"], whatever the [Metadata-Version]
    header of the block says and whatever the distribution object
    supplies. *)
Theorem metadata_version_fixed (pkg_info : Message)
    (distribution : option Distribution) (doc : gmap string pyval) :
  pkginfo_to_dict pkg_info distribution = Ok doc →
  doc !! "metadata_version" = Some (PStr "2.0").
Proof.
  intros (m0 & block & m & v & ex & _ & _ & _ & _ & ->)%pkginfo_to_dict_Ok.
  rewrite handle_contacts_frame by not_in_list.
  rewrite add_distribution_fields_frame by done.
  by rewrite lookup_insert_ne, lookup_insert_eq by done.
Qed.

Lemma metadata_version_fixed_witness :
  pkginfo_to_dict
    (mkMessage [("Metadata-Version", "1.1"); ("Provides-Extra", "x")] "")
    (Some {[ "tests_require" := str_list ["pytest"] ]})
  = Ok {[ "metadata_version" := PStr "2.0"; "extras" := str_list ["x"];
          "test_requires" := str_list ["pytest"] ]}
  ∧ ({[ "metadata_version" := PStr "2.0"; "extras" := str_list ["x"];
        "test_requires" := str_list ["pytest"] ]} : gmap string pyval)
      !! "metadata_version" = Some (PStr "2.0").
Proof.
  assert (pkginfo_to_dict
    (mkMessage [("Metadata-Version", "1.1"); ("Provides-Extra", "x")] "")
    (Some {[ "tests_require" := str_list ["pytest"] ]})
  = Ok {[ "metadata_version" := PStr "2.0"; "extras" := str_list ["x"];
          "test_requires" := str_list ["pytest"] ]}) as H by evaluate.
  split; [exact H|].
  exact (metadata_version_fixed _ _ _ H).
Defined.

(** ** Fields written by one key *)

Section single_fields.

(** [msg.get(name)] is the first of the values of that name. *)
Lemma msg_get_head (msg : Message) (name : string) :
  msg_get msg name = head (values_of msg name).
Proof.
  unfold msg_get, values_of.
  induction (headers msg) as [|kv hs IH]; [done|]. cbn [List.find List.filter].
  by destruct (same_key name kv).
Qed.

Implicit Types (m : gmap string pyval) (pkg_info block : Message)
  (key name low f : string).

(** A field that no rule but the default rule writes is written by the
    keys of its own name only. *)
Lemma default_writer low f :
  f ∈ writes low →
  f ∉ ["classifiers"; "provides"; "extras"; "requires"; "may_require";
       "project_urls"] →
  low = f ∧ rule_of low = DefaultRule.
Proof.
  unfold writes. intros Hf Hn.
  destruct (rule_of_cases low)
    as [[_ H]|[[_ H]|[[_ H]|[[_ H]|[[_ H]|[H _]]]]]];
    rewrite H in Hf; try (by in_cases Hf; subst; destruct Hn;
                             repeat constructor).
  apply list_elem_of_singleton in Hf. by subst.
Qed.

(** The loop reads the block as it reads the header block, for a key
    other than the description. *)
Lemma process_key_block pkg_info m0 block m key :
  take_description pkg_info = Ok (m0, block) →
  Py.lower key ≠ "description" →
  process_key block m key = process_key pkg_info m key.
Proof.
  intros Ht Hkey.
  destruct (take_description_values _ _ _ key Ht Hkey) as [Hv Hg].
  apply process_key_same_lookups; [done|]. unfold msg_get_all. by rewrite Hv.
Qed.

(** The value of a field that the headers of one name alone write. *)
Lemma field_of_single_key pkg_info distribution doc name f :
  pkginfo_to_dict pkg_info distribution = Ok doc →
  f ∉ ["extras"; "metadata_version"; "test_requires"; "author";
       "author_email"; "maintainer"; "maintainer_email"; "contacts"] →
  f ≠ "description" → Py.lower name ≠ "description" →
  (∀ kv, kv ∈ headers pkg_info → Py.lower kv.1 ≠ Py.lower name →
         f ∉ writes (normalized kv.1)) →
  (values_of pkg_info name = [] → doc !! f = None)
  ∧ (values_of pkg_info name ≠ [] →
     ∃ m1 m2, m1 !! f = None
              ∧ process_key pkg_info m1 (Py.lower name) = Ok m2
              ∧ doc !! f = m2 !! f).
Proof.
  intros Hdoc Hfinal Hdesc Hname Hothers.
  apply pkginfo_to_dict_Ok in Hdoc
    as (m0 & block & m & v & ex & Ht & Hl & _ & _ & ->).
  rewrite final_fields_frame by done.
  destruct (take_description_values _ _ _ name Ht Hname) as [Hv Hg].
  destruct (take_description_block _ _ _ Ht) as (_ & Hsub & Hm0).
  assert (∀ key, key ∈ unique (Py.lower <$> msg_keys block) →
            key ≠ Py.lower name → f ∉ writes (Py.replace "-" "_" key))
    as Hkeys.
  { intros key Hkey Hne.
    destruct (loop_key_origin block key Hkey) as (k & hv & Hkv & ->).
    by apply (Hothers (k, hv)); [apply Hsub|]. }
  split.
  - intros Hnil. rewrite <- (Hm0 f Hdesc).
    eapply loop_frame; [done|]. apply Forall_forall. intros key Hkey.
    apply Hkeys; [done|]. intros ->.
    destruct (loop_key_header block _ Hkey) as (_ & first & others & _ & Hga).
    unfold msg_get_all in Hga. by rewrite values_of_lower, Hv, Hnil in Hga.
  - intros Hne.
    destruct (loop_single_writer block
                (unique (Py.lower <$> msg_keys block)) m0 m (Py.lower name)
                f (unique_NoDup _))
      as (m1 & m2 & Hm1 & Hstep & Hm); [|done|done|].
    { apply values_of_loop_key. by rewrite Hv. }
    exists m1, m2. split_and!; [by rewrite Hm1, Hm0|  |done].
    rewrite <- Hstep. symmetry. eapply process_key_block; [done|].
    by rewrite lower_idemp.
Qed.

End single_fields.

(** X5: in a returned document, for a header name whose normalized name
    (lowered, hyphens as underscores) falls under the default rule and is
    none of [reserved_fields] (the fields that another rule or the end of
    the conversion writes: [classifiers], [provides], [extras], [requires],
    [may_require], [project_urls], [metadata_version], [test_requires],
    [author], [author_email], [maintainer], [maintainer_email], [contacts]
    and [description]), and when every header of that normalized name is
    spelled like it up to case: the field of the normalized name holds the
    first value of the header, also when the header is repeated; it is
    absent when the block has no such header, and when the name is of the
    placeholder set and the first value is [UNKNOWN]. *)
Theorem default_rule_first_value (pkg_info : Message)
    (distribution : option Distribution) (doc : gmap string pyval)
    (name : string) :
  pkginfo_to_dict pkg_info distribution = Ok doc →
  rule_of (normalized name) = DefaultRule →
  normalized name ∉ reserved_fields →
  Forall (λ kv, normalized kv.1 = normalized name →
                Py.lower kv.1 = Py.lower name) (headers pkg_info) →
  doc !! normalized name
  = if placeholder pkg_info (Py.lower name) then None
    else PStr <$> msg_get pkg_info name.
Proof.
  intros Hdoc Hrule Hres Hall. rewrite Forall_forall in Hall.
  assert (Py.lower name ≠ "description") as Hname.
  { intros E. apply Hres. unfold normalized. rewrite E.
    by repeat constructor. }
  destruct (field_of_single_key pkg_info distribution doc name
              (normalized name) Hdoc) as [Hnone Hsome]; try done.
  { intros Hin. apply Hres. unfold reserved_fields.
    in_cases Hin; rewrite Hin; by repeat constructor. }
  { intros E. apply Hres. rewrite E. by repeat constructor. }
  { intros [k hv] Hkv Hk Hw. simpl in *.
    apply default_writer in Hw as [Hw _].
    - by apply Hk, (Hall (k, hv)).
    - intros Hin. apply Hres. unfold reserved_fields.
      in_cases Hin; rewrite Hin; by repeat constructor. }
  destruct (values_of pkg_info name) as [|first others] eqn:Hv.
  - rewrite Hnone by done.
    assert (msg_get pkg_info name = None) as Hg
      by by rewrite msg_get_head, Hv.
    unfold placeholder. rewrite msg_get_lower, Hg.
    by rewrite (bool_decide_eq_false_2 (None = Some "UNKNOWN")), andb_false_r.
  - destruct Hsome as (m1 & m2 & Hm1 & Hstep & ->); [done|].
    rewrite process_key_rule in Hstep.
    destruct (placeholder pkg_info (Py.lower name)).
    + injection Hstep as <-. done.
    + change (Py.replace "-" "_" (Py.lower name)) with (normalized name)
        in Hstep.
      rewrite Hrule in Hstep. injection Hstep as <-.
      by rewrite lookup_insert_eq, msg_get_lower, msg_get_head, Hv.
Qed.

Lemma default_rule_first_value_witness :
  pkginfo_to_dict
    (mkMessage [("Platform", "linux"); ("Platform", "win32");
                ("Provides-Extra", "x")] "") None
  = Ok {[ "platform" := PStr "linux"; "extras" := str_list ["x"];
          "metadata_version" := PStr "2.0" ]}
  ∧ ({[ "platform" := PStr "linux"; "extras" := str_list ["x"];
        "metadata_version" := PStr "2.0" ]} : gmap string pyval)
      !! normalized "Platform"
    = if placeholder
           (mkMessage [("Platform", "linux"); ("Platform", "win32");
                       ("Provides-Extra", "x")] "") (Py.lower "Platform")
      then None
      else PStr <$> msg_get
                      (mkMessage [("Platform", "linux"); ("Platform", "win32");
                                  ("Provides-Extra", "x")] "") "Platform".
Proof.
  assert (pkginfo_to_dict
    (mkMessage [("Platform", "linux"); ("Platform", "win32");
                ("Provides-Extra", "x")] "") None
  = Ok {[ "platform" := PStr "linux"; "extras" := str_list ["x"];
          "metadata_version" := PStr "2.0" ]}) as H by evaluate.
  split; [exact H|].
  apply (default_rule_first_value _ _ _ "Platform" H).
  - evaluate.
  - unfold reserved_fields. vm_compute. not_in_list.
  - repeat (apply List.Forall_cons || apply List.Forall_nil);
      by vm_compute.
Defined.

(** ** The home page, the raw names and the description *)

(** X6: in a returned document, when every header whose normalized name
    is [home_page] or [project_urls] is spelled [Home-page] up to case (so
    the block has no [Home_page] and no [Project-Urls] header):
    [project_urls] is the dict with the one entry [Home], the first value
    of the [Home-page] header; it is absent when the block has no such
    header, and when that first value is [UNKNOWN]. *)
Theorem home_page_stored_as_project_url (pkg_info : Message)
    (distribution : option Distribution) (doc : gmap string pyval) :
  pkginfo_to_dict pkg_info distribution = Ok doc →
  Forall (λ kv, normalized kv.1 ∈ ["home_page"; "project_urls"] →
                Py.lower kv.1 = "home-page") (headers pkg_info) →
  doc !! "project_urls"
  = if placeholder pkg_info "home-page" then None
    else (λ url, PDict {[ "Home" := PStr url ]})
           <$> msg_get pkg_info "Home-page".
Proof.
  intros Hdoc Hall. rewrite Forall_forall in Hall.
  destruct (field_of_single_key pkg_info distribution doc "Home-page"
              "project_urls" Hdoc) as [Hnone Hsome]; try done.
  { not_in_list. }
  { intros [k hv] Hkv Hk Hw. simpl in *. apply Hk.
    apply (Hall (k, hv) Hkv). simpl. unfold writes in Hw.
    destruct (rule_of_cases (normalized k))
      as [[_ H]|[[_ H]|[[_ H]|[[_ H]|[[E H]|[H _]]]]]];
      rewrite H in Hw; try (by in_cases Hw).
    - rewrite E. by repeat constructor.
    - apply list_elem_of_singleton in Hw. rewrite <- Hw.
      by repeat constructor. }
  change "home-page" with (Py.lower "Home-page").
  destruct (values_of pkg_info "Home-page") as [|first others] eqn:Hv.
  - rewrite Hnone by done.
    assert (msg_get pkg_info "Home-page" = None) as Hg
      by by rewrite msg_get_head, Hv.
    unfold placeholder. rewrite msg_get_lower, Hg.
    by rewrite (bool_decide_eq_false_2 (None = Some "UNKNOWN")), andb_false_r.
  - destruct Hsome as (m1 & m2 & Hm1 & Hstep & ->); [done|].
    rewrite process_key_rule in Hstep.
    destruct (placeholder pkg_info (Py.lower "Home-page")).
    + by injection Hstep as <-.
    + assert (rule_of (Py.replace "-" "_" (Py.lower "Home-page"))
              = HomePageRule) as Hrule by evaluate.
      rewrite Hrule in Hstep. injection Hstep as <-.
      by rewrite lookup_insert_eq, msg_get_lower, msg_get_head, Hv.
Qed.

Lemma home_page_stored_as_project_url_witness :
  pkginfo_to_dict
    (mkMessage [("Home-Page", "http://a"); ("home-page", "http://b");
                ("Provides-Extra", "x")] "") None
  = Ok {[ "project_urls" := PDict {[ "Home" := PStr "http://a" ]};
          "extras" := str_list ["x"]; "metadata_version" := PStr "2.0" ]}
  ∧ ({[ "project_urls" := PDict {[ "Home" := PStr "http://a" ]};
        "extras" := str_list ["x"]; "metadata_version" := PStr "2.0" ]}
       : gmap string pyval) !! "project_urls"
    = if placeholder
           (mkMessage [("Home-Page", "http://a"); ("home-page", "http://b");
                       ("Provides-Extra", "x")] "") "home-page"
      then None
      else (λ url, PDict {[ "Home" := PStr url ]})
             <$> msg_get
                   (mkMessage [("Home-Page", "http://a");
                               ("home-page", "http://b");
                               ("Provides-Extra", "x")] "") "Home-page".
Proof.
  assert (pkginfo_to_dict
    (mkMessage [("Home-Page", "http://a"); ("home-page", "http://b");
                ("Provides-Extra", "x")] "") None
  = Ok {[ "project_urls" := PDict {[ "Home" := PStr "http://a" ]};
          "extras" := str_list ["x"]; "metadata_version" := PStr "2.0" ]})
    as H by evaluate.
  split; [exact H|].
  apply (home_page_stored_as_project_url _ _ _ H).
  repeat (apply List.Forall_cons || apply List.Forall_nil);
    try (by vm_compute).
  vm_compute. not_in_list.
Defined.

(** X7: the names that the conversion stores under another name, or
    moves into the contacts, are no fields of the document: [home_page],
    [classifier], [provides_dist], [provides_extra], [requires_dist],
    [author], [author_email], [maintainer] and [maintainer_email]. *)
Theorem raw_names_absent (pkg_info : Message)
    (distribution : option Distribution) (doc : gmap string pyval)
    (f : string) :
  pkginfo_to_dict pkg_info distribution = Ok doc →
  f ∈ raw_names → doc !! f = None.
Proof.
  intros Hdoc Hf.
  apply pkginfo_to_dict_Ok in Hdoc
    as (m0 & block & m & v & ex & Ht & Hl & _ & _ & ->).
  destruct (take_description_block _ _ _ Ht) as (_ & _ & Hm0).
  assert (f ∈ ["home_page"; "classifier"; "provides_dist"; "provides_extra";
               "requires_dist"]
          ∨ f ∈ ["author"; "author_email"; "maintainer"; "maintainer_email"])
    as [Hraw|Hcontact].
  { unfold raw_names in Hf.
    in_cases Hf; subst f; (by left; repeat constructor)
                          || (by right; repeat constructor). }
  - rewrite final_fields_frame by (in_cases Hraw; subst f; not_in_list).
    rewrite <- (Hm0 f) by (in_cases Hraw; by subst f).
    eapply loop_frame; [done|]. apply Forall_forall. intros key _.
    unfold writes.
    destruct (rule_of_cases (Py.replace "-" "_" key))
      as [[_ H]|[[_ H]|[[_ H]|[[_ H]|[[_ H]|[H Hlow]]]]]];
      rewrite H; try (in_cases Hraw; subst f; not_in_list).
    intros Hlow'%list_elem_of_singleton. subst f. apply Hlow.
    in_cases Hraw; rewrite Hraw; by repeat constructor.
  - rewrite handle_contacts_eq. cbv zeta.
    destruct (_ ++ _);
      in_cases Hcontact; subst f;
      rewrite ?lookup_insert_ne by done;
      repeat (rewrite lookup_delete_eq || rewrite lookup_delete_ne by done);
      done.
Qed.

Lemma raw_names_absent_witness :
  pkginfo_to_dict
    (mkMessage [("Author", "A"); ("Provides-Extra", "x")] "") None
  = Ok {[ "extras" := str_list ["x"]; "metadata_version" := PStr "2.0";
          "contacts" :=
            PList [PDict {[ "name" := PStr "A"; "role" := PStr "author" ]}] ]}
  ∧ ({[ "extras" := str_list ["x"]; "metadata_version" := PStr "2.0";
        "contacts" :=
          PList [PDict {[ "name" := PStr "A"; "role" := PStr "author" ]}] ]}
       : gmap string pyval) !! "author" = None.
Proof.
  assert (pkginfo_to_dict
    (mkMessage [("Author", "A"); ("Provides-Extra", "x")] "") None
  = Ok {[ "extras" := str_list ["x"]; "metadata_version" := PStr "2.0";
          "contacts" :=
            PList [PDict {[ "name" := PStr "A"; "role" := PStr "author" ]}] ]})
    as H by evaluate.
  split; [exact H|].
  apply (raw_names_absent _ _ _ "author" H).
  unfold raw_names. by repeat constructor.
Defined.

(** The description after the loop: the first value of a header called
    [Description] that the loop still sees, else what was stored before
    the loop. *)
Lemma description_after_loop (block : Message) (m0 m : gmap string pyval) :
  fold_result (process_key block) (unique (Py.lower <$> msg_keys block)) m0
  = Ok m →
  m !! "description"
  = match values_of block "Description" with
    | [] => m0 !! "description"
    | first :: _ => Some (PStr first)
    end.
Proof.
  intros Hl.
  assert (∀ key, "description" ∈ writes (Py.replace "-" "_" key) →
                 key = "description") as Hw.
  { intros key [Hk _]%default_writer; [|not_in_list].
    by apply replace_no_underscore in Hk. }
  destruct (values_of block "Description") as [|first others] eqn:Hv.
  - eapply loop_frame; [done|]. apply Forall_forall. intros key Hkey Hin.
    apply Hw in Hin as ->.
    destruct (loop_key_header block _ Hkey) as (_ & v & vs & _ & Hga).
    unfold msg_get_all in Hga.
    change "description" with (Py.lower "Description") in Hga.
    by rewrite values_of_lower, Hv in Hga.
  - destruct (loop_single_writer block
                (unique (Py.lower <$> msg_keys block)) m0 m
                (Py.lower "Description") "description" (unique_NoDup _))
      as (m1 & m2 & _ & Hstep & ->); [| |done|].
    { apply values_of_loop_key. by rewrite Hv. }
    { intros key _ Hne Hin. by apply Hne, Hw. }
    rewrite process_key_rule in Hstep.
    assert (placeholder block (Py.lower "Description") = false) as Hp.
    { unfold placeholder. apply andb_false_iff. left.
      apply bool_decide_eq_false. intros H.
      by apply (bool_decide_pack _) in H. }
    assert (rule_of (Py.replace "-" "_" (Py.lower "Description"))
            = DefaultRule) as Hrule by evaluate.
    rewrite Hp, Hrule in Hstep. injection Hstep as <-.
    change (Py.replace "-" "_" (Py.lower "Description")) with "description".
    by rewrite lookup_insert_eq, msg_get_lower, msg_get_head, Hv.
Qed.

Lemma values_of_del_same (msg : Message) (name : string) :
  values_of (msg_del msg name) name = [].
Proof.
  unfold values_of, msg_del. cbn [headers].
  induction (headers msg) as [|kv hs IH]; [done|]. cbn [List.filter].
  destruct (same_key name kv) eqn:E; cbn [negb]; [done|].
  cbn [List.filter]. by rewrite E.
Qed.

(** The description that the loop returns for a header block. *)
Lemma description_of_loop (pkg_info block : Message)
    (m0 m : gmap string pyval) :
  take_description pkg_info = Ok (m0, block) →
  fold_result (process_key block) (unique (Py.lower <$> msg_keys block)) m0
  = Ok m →
  match msg_get pkg_info "Description" with
  | Some (String _ _) =>
      ∃ text, dedent_description pkg_info = Ok text
              ∧ m !! "description" = Some (PStr text)
  | Some EmptyString => m !! "description" = Some (PStr "")
  | None =>
      m !! "description"
      = if String.eqb (payload pkg_info) "" then None
        else Some (PStr (payload pkg_info))
  end.
Proof.
  intros Ht Hl.
  rewrite (description_after_loop _ _ _ Hl).
  destruct (take_description_cases pkg_info)
    as [(c & d & n & Hg & Hn & _ & H')|[(Hg & Hp & H')|(Hg & Hp & H')]];
    rewrite H' in Ht; injection Ht as <- <-.
  - rewrite Hg, values_of_del_same, lookup_singleton_eq. eauto.
  - rewrite msg_get_head in *.
    destruct (values_of pkg_info "Description") as [|[|c d] others];
      [|done..]. cbn [head].
    rewrite lookup_singleton_eq.
    by destruct (String.eqb_spec (payload pkg_info) "").
  - rewrite msg_get_head in *.
    destruct (values_of pkg_info "Description") as [|[|c d] others];
      [|done..]. cbn [head]. by rewrite Hp.
Qed.

(** X8: the description of the document.  A [Description] header with a
    non-empty first value gives the normalized text of that value, whatever
    the payload; an empty first value gives the empty text, also when there
    is a payload; without the header the description is the payload as it
    is, and the field is absent when the payload is empty. *)
Theorem description_precedence (pkg_info : Message)
    (distribution : option Distribution) (doc : gmap string pyval) :
  pkginfo_to_dict pkg_info distribution = Ok doc →
  match msg_get pkg_info "Description" with
  | Some (String _ _) =>
      ∃ text, dedent_description pkg_info = Ok text
              ∧ doc !! "description" = Some (PStr text)
  | Some EmptyString => doc !! "description" = Some (PStr "")
  | None =>
      doc !! "description"
      = if String.eqb (payload pkg_info) "" then None
        else Some (PStr (payload pkg_info))
  end.
Proof.
  intros Hdoc.
  apply pkginfo_to_dict_Ok in Hdoc
    as (m0 & block & m & v & ex & Ht & Hl & _ & _ & ->).
  rewrite final_fields_frame by not_in_list.
  exact (description_of_loop pkg_info block m0 m Ht Hl).
Qed.

Lemma description_precedence_witness :
  pkginfo_to_dict
    (mkMessage [("Description", ""); ("Provides-Extra", "x")] "the payload")
    None
  = Ok {[ "description" := PStr ""; "extras" := str_list ["x"];
          "metadata_version" := PStr "2.0" ]}
  ∧ ({[ "description" := PStr ""; "extras" := str_list ["x"];
        "metadata_version" := PStr "2.0" ]} : gmap string pyval)
      !! "description" = Some (PStr "").
Proof.
  assert (pkginfo_to_dict
    (mkMessage [("Description", ""); ("Provides-Extra", "x")] "the payload")
    None
  = Ok {[ "description" := PStr ""; "extras" := str_list ["x"];
          "metadata_version" := PStr "2.0" ]}) as H by evaluate.
  split; [exact H|].
  exact (description_precedence _ _ _ H).
Defined.

(** ** The errors of the forward conversion, and the extras *)

Section extras_entry.

Implicit Types (m : gmap string pyval) (pkg_info block : Message)
  (key : string).

Lemma extend_extras_shape block m more :
  extras_shape block m →
  match extend_extras m more with
  | Ok m' => extras_shape block m'
  | Raise e => e = AttributeError
               ∧ ∃ kv, kv ∈ headers block ∧ normalized kv.1 = "extras"
  end.
Proof.
  unfold extras_shape, extend_extras.
  destruct (m !! "extras") as [[|s|l|d]|] eqn:E; try done.
  - rewrite E. by intros Hex.
  - rewrite E. intros (texts & ->). rewrite lookup_insert_eq.
    exists (texts ++ more). by rewrite fmap_app.
  - intros _. rewrite !lookup_insert_eq. by exists more.
Qed.

Lemma process_key_shape block m key :
  key ∈ unique (Py.lower <$> msg_keys block) →
  extras_shape block m →
  match process_key block m key with
  | Ok m' => extras_shape block m'
  | Raise e =>
      e = AttributeError
      ∧ (∃ kv, kv ∈ headers block ∧ normalized kv.1 = "extras")
      ∧ ∃ kv, kv ∈ headers block ∧ normalized kv.1 = "requires_dist"
  end.
Proof.
  intros Hkey Hm.
  destruct (loop_key_header block key Hkey)
    as (Hlow & first & others & Hg & Hga).
  destruct (loop_key_origin block key Hkey) as (k & hv & Hkv & Hk).
  rewrite process_key_rule.
  destruct (placeholder block key); [done|].
  destruct (rule_of_cases (Py.replace "-" "_" key))
    as [[_ H]|[[_ H]|[[_ H]|[[E H]|[[_ H]|[H _]]]]]]; rewrite H.
  - unfold extras_shape in *. by rewrite lookup_insert_ne.
  - unfold extras_shape in *. by rewrite lookup_insert_ne.
  - unfold extras_shape. rewrite lookup_insert_eq, Hga. by eexists.
  - rewrite Hga. unfold store_requirements.
    destruct (group_requirements _) as [rs ex].
    destruct (bool_decide (ex ≠ ∅)).
    + match goal with
      | |- context [extend_extras ?m1 ?more] =>
          pose proof (extend_extras_shape block m1 more) as Hshape
      end.
      destruct (extend_extras _ _) as [m'|e].
      * apply Hshape. unfold extras_shape in *.
        by rewrite !lookup_insert_ne.
      * destruct Hshape as [-> Hex].
        { unfold extras_shape in *. by rewrite !lookup_insert_ne. }
        split_and!; [done..|]. exists (k, hv). split; [done|].
        unfold normalized. simpl. by rewrite <- Hk.
    + unfold extras_shape in *. by rewrite lookup_insert_ne.
  - unfold extras_shape in *. by rewrite lookup_insert_ne.
  - destruct (decide (Py.replace "-" "_" key = "extras")) as [E|E].
    + rewrite E. unfold extras_shape. rewrite lookup_insert_eq, Hg.
      exists (k, hv). split; [done|]. unfold normalized. simpl.
      by rewrite <- Hk.
    + unfold extras_shape in *. by rewrite lookup_insert_ne.
Qed.

Lemma loop_shape block keys m :
  (∀ key, key ∈ keys → key ∈ unique (Py.lower <$> msg_keys block)) →
  extras_shape block m →
  match fold_result (process_key block) keys m with
  | Ok m' => extras_shape block m'
  | Raise e =>
      e = AttributeError
      ∧ (∃ kv, kv ∈ headers block ∧ normalized kv.1 = "extras")
      ∧ ∃ kv, kv ∈ headers block ∧ normalized kv.1 = "requires_dist"
  end.
Proof.
  revert m. induction keys as [|key keys IH]; intros m Hkeys Hm; [done|].
  cbn [fold_result].
  pose proof (process_key_shape block m key) as Hstep.
  destruct (process_key block m key) as [m1|e]; cbn [mbind result_bind].
  - apply IH; [intros ??; apply Hkeys; by right|].
    apply Hstep; [apply Hkeys; by left|done].
  - apply Hstep; [apply Hkeys; by left|done].
Qed.

Lemma map_result_texts (texts : list string) :
  map_result as_text (PStr <$> texts) = Ok texts.
Proof.
  induction texts as [|t texts IH]; [done|]. rewrite fmap_cons.
  cbn [map_result as_text mbind result_bind]. by rewrite IH.
Qed.

(** Line 107 on what the loop keeps. *)
Lemma sorted_unique_shape block m v :
  extras_shape block m → m !! "extras" = Some v →
  ∃ texts, sorted_unique v = Ok (str_list (sorted (unique texts))).
Proof.
  unfold extras_shape. intros Hm Hv. rewrite Hv in Hm.
  destruct v as [|s|l|d]; try done.
  - exists ((λ c, String c "") <$> list_ascii_of_string s).
    unfold sorted_unique. cbn [iterate mbind result_bind].
    rewrite (list_fmap_compose (λ c, String c "") PStr).
    rewrite map_result_texts.
    by destruct (list_ascii_of_string s) as [|? [|]].
  - destruct Hm as (texts & ->). exists texts.
    unfold sorted_unique. cbn [iterate mbind result_bind].
    rewrite map_result_texts. by destruct texts as [|? [|]].
Qed.

Lemma block_shape pkg_info m0 block :
  take_description pkg_info = Ok (m0, block) → extras_shape block m0.
Proof.
  intros Ht. destruct (take_description_block _ _ _ Ht) as (_ & _ & Hm0).
  unfold extras_shape. by rewrite Hm0.
Qed.

End extras_entry.

(** The order of [sorted] on texts. *)
Lemma string_leb_trans (a b c : string) :
  String.leb a b = true → String.leb b c = true → String.leb a c = true.
Proof.
  unfold String.leb. revert b c.
  induction a as [|x a IH]; intros [|y b] [|z c]; simpl; try done.
  unfold Ascii.compare.
  destruct (N.compare_spec (N_of_ascii x) (N_of_ascii y)) as [Hxy|Hxy|Hxy];
    destruct (N.compare_spec (N_of_ascii y) (N_of_ascii z)) as [Hyz|Hyz|Hyz];
    try done.
  - rewrite Hxy, Hyz, N.compare_refl. apply IH.
  - intros _ _. rewrite Hxy.
    by apply N.compare_lt_iff in Hyz as ->.
  - intros _ _. rewrite <- Hyz.
    by apply N.compare_lt_iff in Hxy as ->.
  - intros _ _.
    assert (N_of_ascii x < N_of_ascii z)%N as H by lia.
    by apply N.compare_lt_iff in H as ->.
Qed.

Lemma insert_sorted_perm {A} (le : A → A → bool) (x : A) (l : list A) :
  insert_sorted le x l ≡ₚ x :: l.
Proof.
  induction l as [|y l IH]; simpl; [done|].
  destruct (le x y); [done|]. by rewrite IH, Permutation_swap.
Qed.

Lemma sorted_by_perm {A} (le : A → A → bool) (l : list A) :
  sorted_by le l ≡ₚ l.
Proof.
  induction l as [|x l IH]; simpl; [done|].
  by rewrite insert_sorted_perm, IH.
Qed.

Lemma insert_sorted_ascending (x : string) (l : list string) :
  ascending l → ascending (insert_sorted String.leb x l).
Proof.
  induction l as [|y l IH]; simpl.
  - done.
  - intros [Hy Hl].
    destruct (String.leb x y) eqn:E; simpl.
    + split; [|done]. constructor; [done|].
      eapply Forall_impl; [exact Hy|]. intros z Hz. simpl in Hz.
      by eapply string_leb_trans.
    + split; [|by apply IH].
      rewrite insert_sorted_perm. constructor; [|done].
      destruct (String.leb_total x y) as [H|H]; [congruence|done].
Qed.

Lemma sorted_ascending (l : list string) : ascending (sorted l).
Proof.
  unfold sorted, sorted_by. induction l as [|x l IH]; simpl.
  - done.
  - by apply insert_sorted_ascending.
Qed.

(** X9: for a header block whose header values are native text (the
    model has no others), the forward conversion raises nothing but the
    [KeyError] for [extras] of line 107 and the [AttributeError] of line
    92, and the latter only for a block that has a header whose normalized
    name is [extras], whose text the requirement rule then tries to extend,
    and a header whose normalized name is [requires_dist]. *)
Theorem conversion_errors (pkg_info : Message)
    (distribution : option Distribution) (e : error) :
  pkginfo_to_dict pkg_info distribution = Raise e →
  e = KeyError "extras"
  ∨ e = AttributeError
    ∧ (∃ kv, kv ∈ headers pkg_info ∧ normalized kv.1 = "extras")
    ∧ (∃ kv, kv ∈ headers pkg_info ∧ normalized kv.1 = "requires_dist").
Proof.
  unfold pkginfo_to_dict.
  destruct (take_description_cases pkg_info)
    as [(c & d & n & _ & _ & _ & Ht)|[(_ & _ & Ht)|(_ & _ & Ht)]];
    rewrite Ht; cbn [mbind result_bind];
    pose proof (block_shape _ _ _ Ht) as H0;
    destruct (take_description_block _ _ _ Ht) as (_ & Hsub & _);
    match goal with
    | |- context [fold_result (process_key ?block) ?keys ?m0] =>
        pose proof (loop_shape block keys m0 (λ _ H, H) H0) as Hloop;
        destruct (fold_result (process_key block) keys m0) as [m|e'];
        cbn [mbind result_bind];
        [ rewrite lookup_insert_ne by done;
          destruct (m !! "extras") as [v|] eqn:Hv;
          [ destruct (sorted_unique_shape _ _ _ Hloop Hv) as [texts ->];
            done
          | intros [= <-]; by left ]
        | intros [= <-]; right;
          destruct Hloop as (-> & (kv & Hkv & Hn) & (kv' & Hkv' & Hn'));
          split_and!; [done|exists kv|exists kv']; split; auto ]
    end.
Qed.

Lemma conversion_errors_witness :
  pkginfo_to_dict
    (mkMessage [("Extras", "all"); ("Requires-Dist", "bar; extra == 'dev'")]
       "") None
  = Raise AttributeError
  ∧ (AttributeError = KeyError "extras"
     ∨ AttributeError = AttributeError
       ∧ (∃ kv, kv ∈ [("Extras", "all");
                      ("Requires-Dist", "bar; extra == 'dev'")]
                ∧ normalized kv.1 = "extras")
       ∧ (∃ kv, kv ∈ [("Extras", "all");
                      ("Requires-Dist", "bar; extra == 'dev'")]
                ∧ normalized kv.1 = "requires_dist")).
Proof.
  assert (pkginfo_to_dict
    (mkMessage [("Extras", "all"); ("Requires-Dist", "bar; extra == 'dev'")]
       "") None
  = Raise AttributeError) as H by evaluate.
  split; [exact H|].
  exact (conversion_errors _ _ _ H).
Defined.

(** X10: the [extras] of a returned document are a list of texts in
    ascending order without duplicates. *)
Theorem extras_sorted_distinct (pkg_info : Message)
    (distribution : option Distribution) (doc : gmap string pyval) :
  pkginfo_to_dict pkg_info distribution = Ok doc →
  ∃ names, doc !! "extras" = Some (str_list names)
           ∧ ascending names ∧ NoDup names.
Proof.
  intros Hdoc.
  apply pkginfo_to_dict_Ok in Hdoc
    as (m0 & block & m & v & ex & Ht & Hl & Hv & Hex & ->).
  rewrite handle_contacts_frame by not_in_list.
  rewrite add_distribution_fields_frame by done.
  rewrite lookup_insert_eq.
  pose proof (loop_shape block _ m0 (λ _ H, H) (block_shape _ _ _ Ht))
    as Hloop.
  rewrite Hl in Hloop.
  destruct (sorted_unique_shape _ _ _ Hloop Hv) as [texts Hs].
  rewrite Hs in Hex. injection Hex as <-.
  exists (sorted (unique texts)). split_and!; [done| |].
  - apply sorted_ascending.
  - unfold sorted. rewrite sorted_by_perm. apply unique_NoDup.
Qed.

Lemma extras_sorted_distinct_witness :
  pkginfo_to_dict
    (mkMessage [("Provides-Extra", "b"); ("Provides-Extra", "a");
                ("Provides-Extra", "b")] "") None
  = Ok {[ "extras" := str_list ["a"; "b"];
          "metadata_version" := PStr "2.0" ]}
  ∧ ∃ names,
      ({[ "extras" := str_list ["a"; "b"];
          "metadata_version" := PStr "2.0" ]} : gmap string pyval)
        !! "extras" = Some (str_list names)
      ∧ ascending names ∧ NoDup names.
Proof.
  assert (pkginfo_to_dict
    (mkMessage [("Provides-Extra", "b"); ("Provides-Extra", "a");
                ("Provides-Extra", "b")] "") None
  = Ok {[ "extras" := str_list ["a"; "b"];
          "metadata_version" := PStr "2.0" ]}) as H by evaluate.
  split; [exact H|].
  exact (extras_sorted_distinct _ _ _ H).
Defined.

(** ** The distribution object *)

Lemma rest_lookup (m m' : gmap string pyval) (f : string) :
  m !! f = m' !! f →
  delete "maintainer" (delete "maintainer_email"
    (delete "author" (delete "author_email" m))) !! f
  = delete "maintainer" (delete "maintainer_email"
      (delete "author" (delete "author_email" m'))) !! f.
Proof.
  intros H.
  destruct (decide (f = "maintainer")) as [->|?];
    [by rewrite !lookup_delete_eq|rewrite !(lookup_delete_ne _ "maintainer") by done].
  destruct (decide (f = "maintainer_email")) as [->|?];
    [by rewrite !lookup_delete_eq
    |rewrite !(lookup_delete_ne _ "maintainer_email") by done].
  destruct (decide (f = "author")) as [->|?];
    [by rewrite !lookup_delete_eq|rewrite !(lookup_delete_ne _ "author") by done].
  destruct (decide (f = "author_email")) as [->|?];
    [by rewrite !lookup_delete_eq
    |by rewrite !(lookup_delete_ne _ "author_email") by done].
Qed.

(** X11: the distribution object decides nothing but the field
    [test_requires].  A conversion that returns a document with it returns
    one without it, and the two documents agree on every other field;
    [test_requires] is the attribute [tests_require] of the object when
    the object has it with a value that is not empty, also over a header
    of that name, and else what the document without the object has. *)
Theorem distribution_sets_only_test_requires (pkg_info : Message)
    (distribution : option Distribution) (doc : gmap string pyval) :
  pkginfo_to_dict pkg_info distribution = Ok doc →
  ∃ doc0,
    pkginfo_to_dict pkg_info None = Ok doc0
    ∧ (∀ f, f ≠ "test_requires" → doc !! f = doc0 !! f)
    ∧ doc !! "test_requires"
      = match distribution ≫= (.!! "tests_require") with
        | Some requirements =>
            if truthy requirements then Some requirements
            else doc0 !! "test_requires"
        | None => doc0 !! "test_requires"
        end.
Proof.
  intros Hdoc.
  apply pkginfo_to_dict_Ok in Hdoc
    as (m0 & block & m & v & ex & Ht & Hl & Hv & Hex & ->).
  eexists. split; [by eapply pkginfo_to_dict_after_loop|].
  set (X := <["extras" := ex]> (<["metadata_version" := _]> m)).
  split.
  - intros f Hf. rewrite !handle_contacts_eq. cbv zeta.
    rewrite !(add_distribution_fields_frame distribution) by done.
    change (add_distribution_fields None X) with X.
    destruct (_ ++ _).
    + apply rest_lookup. by apply add_distribution_fields_frame.
    + destruct (decide (f = "contacts")) as [->|?];
        [by rewrite !lookup_insert_eq|].
      rewrite !lookup_insert_ne by done.
      apply rest_lookup. by apply add_distribution_fields_frame.
  - rewrite !handle_contacts_frame by not_in_list.
    change (add_distribution_fields None X) with X.
    unfold add_distribution_fields.
    destruct distribution as [dist|]; [|done]. simpl.
    destruct (dist !! "tests_require") as [requirements|]; [|done].
    destruct (truthy requirements); [|done]. by rewrite lookup_insert_eq.
Qed.

Lemma distribution_sets_only_test_requires_witness :
  pkginfo_to_dict
    (mkMessage [("Test-Requires", "nose"); ("Provides-Extra", "x")] "")
    (Some {[ "tests_require" := str_list ["pytest"] ]})
  = Ok {[ "test_requires" := str_list ["pytest"];
          "extras" := str_list ["x"]; "metadata_version" := PStr "2.0" ]}
  ∧ ∃ doc0,
      pkginfo_to_dict
        (mkMessage [("Test-Requires", "nose"); ("Provides-Extra", "x")] "")
        None = Ok doc0
      ∧ (∀ f, f ≠ "test_requires" →
           ({[ "test_requires" := str_list ["pytest"];
               "extras" := str_list ["x"];
               "metadata_version" := PStr "2.0" ]} : gmap string pyval) !! f
           = doc0 !! f)
      ∧ ({[ "test_requires" := str_list ["pytest"];
            "extras" := str_list ["x"];
            "metadata_version" := PStr "2.0" ]} : gmap string pyval)
          !! "test_requires"
        = match Some ({[ "tests_require" := str_list ["pytest"] ]}
                        : Distribution) ≫= (.!! "tests_require") with
          | Some requirements =>
              if truthy requirements then Some requirements
              else doc0 !! "test_requires"
          | None => doc0 !! "test_requires"
          end.
Proof.
  assert (pkginfo_to_dict
    (mkMessage [("Test-Requires", "nose"); ("Provides-Extra", "x")] "")
    (Some {[ "tests_require" := str_list ["pytest"] ]})
  = Ok {[ "test_requires" := str_list ["pytest"];
          "extras" := str_list ["x"]; "metadata_version" := PStr "2.0" ]})
    as H by evaluate.
  split; [exact H|].
  exact (distribution_sets_only_test_requires _ _ _ H).
Defined.

(** ** The requirements in the document *)

Lemma store_requirements_fields (m m' : gmap string pyval)
    (values : list string) :
  store_requirements m values = Ok m' →
  m' !! "requires" = Some (str_list (group_requirements values).1)
  ∧ m' !! "may_require"
    = if bool_decide ((group_requirements values).2 ≠ ∅)
      then Some (PList (may_require_entry
                          <$> sorted_items (group_requirements values).2))
      else m !! "may_require".
Proof.
  unfold store_requirements.
  destruct (group_requirements values) as [rs ex]. cbn [fst snd].
  destruct (bool_decide (ex ≠ ∅)).
  - intros H.
    rewrite !(extend_extras_frame _ _ _ _ H) by done.
    rewrite lookup_insert_ne by done. by rewrite !lookup_insert_eq.
  - intros [= <-]. rewrite lookup_insert_eq. by rewrite lookup_insert_ne.
Qed.

(** X12: the requirement fields of a returned document, when every
    header whose normalized name is [requires_dist], [requires] or
    [may_require] is spelled [Requires-Dist] up to case (so the block has
    no [Requires_Dist], [Requires] or [May-Require] header).  With
    [Requires-Dist] headers, [requires] is the unconditional list of the
    grouping of all their values, also when that list is empty, and
    [may_require] is one record for each extra-conditioned bucket of the
    grouping, in the order of the extra names, and absent when there is no
    bucket; without such a header both fields are absent. *)
Theorem requirement_fields (pkg_info : Message)
    (distribution : option Distribution) (doc : gmap string pyval) :
  pkginfo_to_dict pkg_info distribution = Ok doc →
  Forall (λ kv, normalized kv.1 ∈ ["requires_dist"; "requires"; "may_require"] →
                Py.lower kv.1 = "requires-dist") (headers pkg_info) →
  match values_of pkg_info "Requires-Dist" with
  | [] => doc !! "requires" = None ∧ doc !! "may_require" = None
  | values =>
      doc !! "requires" = Some (str_list (group_requirements values).1)
      ∧ doc !! "may_require"
        = if bool_decide ((group_requirements values).2 ≠ ∅)
          then Some (PList (may_require_entry
                              <$> sorted_items (group_requirements values).2))
          else None
  end.
Proof.
  intros Hdoc Hall. rewrite Forall_forall in Hall.
  assert (∀ f, f ∈ ["requires"; "may_require"] →
            (values_of pkg_info "Requires-Dist" = [] → doc !! f = None)
            ∧ (values_of pkg_info "Requires-Dist" ≠ [] →
               ∃ m1 m2, m1 !! f = None
                 ∧ store_requirements m1 (values_of pkg_info "Requires-Dist")
                   = Ok m2
                 ∧ doc !! f = m2 !! f)) as Hfield.
  { intros f Hf.
    destruct (field_of_single_key pkg_info distribution doc "Requires-Dist"
                f Hdoc) as [Hnone Hsome]; try done.
    { in_cases Hf; subst f; not_in_list. }
    { by in_cases Hf; subst f. }
    { intros [k hv] Hkv Hk Hw. simpl in *. apply Hk.
      apply (Hall (k, hv) Hkv). simpl. unfold writes in Hw.
      destruct (rule_of_cases (normalized k))
        as [[_ H]|[[_ H]|[[_ H]|[[E H]|[[_ H]|[H _]]]]]];
        rewrite H in Hw;
        try (in_cases Hw; in_cases Hf; congruence).
      - rewrite E. by repeat constructor.
      - apply list_elem_of_singleton in Hw. rewrite <- Hw.
        in_cases Hf; subst f; by repeat constructor. }
    split; [done|]. intros Hne.
    destruct (Hsome Hne) as (m1 & m2 & Hm1 & Hstep & Hm).
    exists m1, m2. split_and!; [done| |done].
    rewrite process_key_rule in Hstep.
    assert (placeholder pkg_info (Py.lower "Requires-Dist") = false) as Hp.
    { unfold placeholder. apply andb_false_iff. left.
      apply bool_decide_eq_false. intros H.
      by apply (bool_decide_pack _) in H. }
    assert (rule_of (Py.replace "-" "_" (Py.lower "Requires-Dist"))
            = RequirementRule) as Hrule by evaluate.
    rewrite Hp, Hrule in Hstep. unfold msg_get_all in Hstep.
    rewrite values_of_lower in Hstep.
    by destruct (values_of pkg_info "Requires-Dist"). }
  destruct (Hfield "requires") as [Hr0 Hr]; [by repeat constructor|].
  destruct (Hfield "may_require") as [Hm0 Hm]; [by repeat constructor|].
  destruct (values_of pkg_info "Requires-Dist") as [|value values];
    [by split; auto|].
  destruct Hr as (m1 & m2 & _ & Hstore & ->); [done|].
  destruct Hm as (m1' & m2' & Hnone & Hstore' & ->); [done|].
  apply store_requirements_fields in Hstore as [-> _].
  apply store_requirements_fields in Hstore' as [_ ->].
  by rewrite Hnone.
Qed.

Lemma requirement_fields_witness :
  pkginfo_to_dict
    (mkMessage [("Requires-Dist", "foo ; python_version < '3'");
                ("Provides-Extra", "x")] "") None
  = Ok {[ "requires" := str_list []; "extras" := str_list ["x"];
          "metadata_version" := PStr "2.0" ]}
  ∧ ({[ "requires" := str_list []; "extras" := str_list ["x"];
        "metadata_version" := PStr "2.0" ]} : gmap string pyval)
      !! "requires" = Some (str_list [])
  ∧ ({[ "requires" := str_list []; "extras" := str_list ["x"];
        "metadata_version" := PStr "2.0" ]} : gmap string pyval)
      !! "may_require" = None.
Proof.
  assert (pkginfo_to_dict
    (mkMessage [("Requires-Dist", "foo ; python_version < '3'");
                ("Provides-Extra", "x")] "") None
  = Ok {[ "requires" := str_list []; "extras" := str_list ["x"];
          "metadata_version" := PStr "2.0" ]}) as H by evaluate.
  split; [exact H|].
  apply (requirement_fields _ _ _ H).
  repeat (apply List.Forall_cons || apply List.Forall_nil);
    try (by vm_compute).
  vm_compute. not_in_list.
Defined.

(** ** The order of the keys and the extras *)

Lemma unique_from_app (seen : gset string) (l1 l2 : list string) :
  unique_from seen (l1 ++ l2)
  = unique_from seen l1 ++ unique_from (list_to_set l1 ∪ seen) l2.
Proof.
  revert seen. induction l1 as [|y l1 IH]; intros seen; simpl.
  - f_equal. set_solver.
  - destruct (decide (y ∈ seen)) as [Hy|Hy].
    + rewrite IH. do 2 f_equal. set_solver.
    + simpl. rewrite IH. do 3 f_equal. set_solver.
Qed.

(** The keys of the loop around the first occurrence of a key. *)
Lemma unique_around_first (before after : list string) (key0 : string) :
  key0 ∉ before →
  ∃ later, unique (before ++ key0 :: after)
           = unique before ++ key0 :: later
           ∧ ∀ x, x ∈ later → x ∈ after ∧ x ≠ key0 ∧ x ∉ before.
Proof.
  intros H0. unfold unique. rewrite unique_from_app. simpl.
  rewrite decide_False by set_solver.
  eexists. split; [done|]. intros x [Hx Hn]%unique_from_elem.
  split; [done|]. set_solver.
Qed.

(** The last key of the loop that writes a field decides it. *)
Lemma loop_last_writer (block : Message) (earlier later : list string)
    (key0 f : string) (m0 m : gmap string pyval) :
  fold_result (process_key block) (earlier ++ key0 :: later) m0 = Ok m →
  (∀ key, key ∈ later → f ∉ writes (Py.replace "-" "_" key)) →
  ∃ m1 m2, process_key block m1 key0 = Ok m2 ∧ m !! f = m2 !! f.
Proof.
  intros Hfold Hlater. rewrite fold_result_app in Hfold.
  destruct (fold_result _ earlier m0) as [m1|]; [|done].
  cbn [mbind result_bind fold_result] in Hfold.
  destruct (process_key block m1 key0) as [m2|] eqn:Hstep; [|done].
  cbn [mbind result_bind] in Hfold.
  exists m1, m2. split; [done|].
  eapply loop_frame; [done|]. by apply Forall_forall.
Qed.

Lemma sorted_unique_texts (texts : list string) :
  sorted_unique (str_list texts) = Ok (str_list (sorted (unique texts))).
Proof.
  unfold sorted_unique, str_list. cbn [iterate mbind result_bind].
  rewrite map_result_texts. by destruct texts as [|? [|]].
Qed.

(** What the loop leaves in [extras] when the key [provides-extra] is the
    last that writes it. *)
Lemma loop_provides_extra_last (block : Message)
    (pre post : list (string * string)) (k v : string)
    (m0 m : gmap string pyval) :
  headers block = pre ++ (k, v) :: post →
  Py.lower k = "provides-extra" →
  Forall (λ kv, same_key "Provides-Extra" kv = false) pre →
  Forall (λ kv, "extras" ∈ writes (normalized kv.1) →
                Py.lower kv.1 = "provides-extra"
                ∨ Py.lower kv.1 ∈ Py.lower <$> (fst <$> pre)) post →
  fold_result (process_key block) (unique (Py.lower <$> msg_keys block)) m0
  = Ok m →
  m !! "extras" = Some (str_list (values_of block "Provides-Extra")).
Proof.
  intros Hh Hk Hpre Hpost Hl. rewrite Forall_forall in Hpre, Hpost.
  unfold msg_keys in Hl. rewrite Hh in Hl.
  change (map fst) with (fmap (M := list) (@fst string string)) in Hl.
  rewrite !fmap_app, !fmap_cons in Hl. cbn [fst] in Hl. rewrite Hk in Hl.
  destruct (unique_around_first (Py.lower <$> (fst <$> pre))
              (Py.lower <$> (fst <$> post)) "provides-extra")
    as (later & Hu & Hlater).
  { intros (k' & E & ([k'' v'] & -> & Hin)%list_elem_of_fmap)%list_elem_of_fmap.
    specialize (Hpre _ Hin). unfold same_key in Hpre. simpl in *.
    rewrite <- E in Hpre. by rewrite String.eqb_refl in Hpre. }
  rewrite Hu in Hl.
  destruct (loop_last_writer block _ later "provides-extra" "extras" m0 m Hl)
    as (m1 & m2 & Hstep & ->).
  { intros key Hkey Hw.
    destruct (Hlater key Hkey) as (Hin & Hne & Hnb).
    apply list_elem_of_fmap in Hin
      as (k' & -> & ([k'' v'] & -> & Hin)%list_elem_of_fmap).
    destruct (Hpost _ Hin Hw) as [?|?]; done. }
  rewrite process_key_rule in Hstep.
  assert (placeholder block "provides-extra" = false) as Hp.
  { unfold placeholder. apply andb_false_iff. left.
    apply bool_decide_eq_false. intros H.
    by apply (bool_decide_pack _) in H. }
  assert (rule_of (Py.replace "-" "_" "provides-extra")
          = PluralRule "extras") as Hrule by evaluate.
  rewrite Hp, Hrule in Hstep. injection Hstep as <-.
  rewrite lookup_insert_eq. unfold msg_get_all.
  change "provides-extra" with (Py.lower "Provides-Extra").
  rewrite values_of_lower.
  destruct (values_of block "Provides-Extra") eqn:Hv; [|done].
  unfold values_of in Hv. rewrite Hh, List.filter_app in Hv.
  cbn [List.filter] in Hv.
  assert (same_key "Provides-Extra" (k, v) = true) as Hs.
  { unfold same_key. simpl. by rewrite Hk. }
  rewrite Hs, map_app in Hv. by destruct (map snd _).
Qed.

Lemma filter_Forall {A} (P : A → Prop) (Q : A → bool) (l : list A) :
  Forall P l → Forall P (List.filter Q l).
Proof.
  rewrite !Forall_forall. intros H x Hx.
  apply list_elem_of_In, List.filter_In in Hx as [Hx _].
  by apply H, list_elem_of_In.
Qed.

(** X13: a [Provides-Extra] header that comes after the [Requires-Dist]
    headers takes their extras away.  In a returned document, when the
    block has a header spelled [Provides-Extra] up to case, and every
    header after the first of them that writes [extras] is spelled
    [Provides-Extra] up to case or has, up to case, the key of a header
    before it: the [extras] of the document are the values of the
    [Provides-Extra] headers alone, sorted and without duplicates.  The
    names of the extra-conditioned buckets that an earlier [Requires-Dist]
    key had put there are overwritten, though [may_require] still holds
    them. *)
Theorem provides_extra_overwrites (pkg_info : Message)
    (distribution : option Distribution) (doc : gmap string pyval)
    (pre post : list (string * string)) (k v : string) :
  pkginfo_to_dict pkg_info distribution = Ok doc →
  headers pkg_info = pre ++ (k, v) :: post →
  Py.lower k = "provides-extra" →
  Forall (λ kv, same_key "Provides-Extra" kv = false) pre →
  Forall (λ kv, "extras" ∈ writes (normalized kv.1) →
                Py.lower kv.1 = "provides-extra"
                ∨ Py.lower kv.1 ∈ Py.lower <$> (fst <$> pre)) post →
  doc !! "extras"
  = Some (str_list (sorted (unique (values_of pkg_info "Provides-Extra")))).
Proof.
  intros Hdoc Hh Hk Hpre Hpost.
  apply pkginfo_to_dict_Ok in Hdoc
    as (m0 & block & m & x & ex & Ht & Hl & Hx & Hex & ->).
  rewrite handle_contacts_frame by not_in_list.
  rewrite add_distribution_fields_frame by done.
  rewrite lookup_insert_eq.
  destruct (take_description_values _ _ _ "Provides-Extra" Ht) as [Hv _];
    [done|].
  assert (m !! "extras"
          = Some (str_list (values_of block "Provides-Extra"))) as Hm.
  { destruct (take_description_block _ _ _ Ht) as ([->| ->] & _ & _).
    - by eapply loop_provides_extra_last.
    - eapply (loop_provides_extra_last _
                (List.filter (λ kv, negb (same_key "Description" kv)) pre)
                (List.filter (λ kv, negb (same_key "Description" kv)) post)
                k v); try done.
      + unfold msg_del. cbn [headers]. rewrite Hh, List.filter_app.
        cbn [List.filter]. unfold same_key at 2. cbn [fst]. rewrite Hk.
        done.
      + by apply filter_Forall.
      + apply Forall_forall. intros kv Hkv.
        apply list_elem_of_In, List.filter_In in Hkv as [Hkv Hd].
        apply list_elem_of_In in Hkv.
        rewrite Forall_forall in Hpost. intros Hw.
        destruct (Hpost kv Hkv Hw) as [?|Hin]; [by left|right].
        apply list_elem_of_fmap in Hin
          as (k' & E & (kv' & -> & Hin)%list_elem_of_fmap).
        apply list_elem_of_fmap. exists kv'.1. split; [done|].
        apply list_elem_of_fmap. exists kv'. split; [done|].
        apply list_elem_of_In, List.filter_In. split;
          [by apply list_elem_of_In|].
        unfold same_key in *. by rewrite <- E. }
  rewrite Hm in Hx. injection Hx as <-.
  rewrite sorted_unique_texts, Hv in Hex. by injection Hex as <-.
Qed.

Lemma provides_extra_overwrites_witness :
  pkginfo_to_dict
    (mkMessage [("Requires-Dist", "bar; extra == 'dev'");
                ("Provides-Extra", "x")] "") None
  = Ok {[ "requires" := str_list [];
          "may_require" :=
            PList [PDict {[ "extra" := PStr "dev";
                            "dependencies" := str_list ["bar"] ]}];
          "extras" := str_list ["x"];
          "metadata_version" := PStr "2.0" ]}
  ∧ ({[ "requires" := str_list [];
        "may_require" :=
          PList [PDict {[ "extra" := PStr "dev";
                          "dependencies" := str_list ["bar"] ]}];
        "extras" := str_list ["x"];
        "metadata_version" := PStr "2.0" ]} : gmap string pyval)
      !! "extras"
    = Some (str_list (sorted (unique
        (values_of (mkMessage [("Requires-Dist", "bar; extra == 'dev'");
                               ("Provides-Extra", "x")] "")
           "Provides-Extra")))).
Proof.
  assert (pkginfo_to_dict
    (mkMessage [("Requires-Dist", "bar; extra == 'dev'");
                ("Provides-Extra", "x")] "") None
  = Ok {[ "requires" := str_list [];
          "may_require" :=
            PList [PDict {[ "extra" := PStr "dev";
                            "dependencies" := str_list ["bar"] ]}];
          "extras" := str_list ["x"];
          "metadata_version" := PStr "2.0" ]}) as H by evaluate.
  split; [exact H|].
  apply (provides_extra_overwrites _ _ _
           [("Requires-Dist", "bar; extra == 'dev'")] [] "Provides-Extra" "x"
           H).
  - reflexivity.
  - evaluate.
  - apply List.Forall_cons; [evaluate|apply List.Forall_nil].
  - apply List.Forall_nil.
Defined.

(** ** The reverse conversion, once more *)

Section reverse.

Implicit Types (pkg_info out : Message)
  (requires : option (list (option string * list Requirement))).

Lemma find_first {A} (P : A → bool) (pre post : list A) (x : A) :
  Forall (λ y, P y = false) pre → P x = true →
  List.find P (pre ++ x :: post) = Some x.
Proof.
  intros Hpre Hx. induction Hpre as [|y pre Hy _ IH]; simpl.
  - by rewrite Hx.
  - by rewrite Hy.
Qed.

Lemma find_filter_implied {A} (P Q : A → bool) (l : list A) :
  (∀ x, P x = true → Q x = true) →
  List.find P (List.filter Q l) = List.find P l.
Proof.
  intros HPQ. induction l as [|x l IH]; simpl; [done|].
  destruct (Q x) eqn:HQ; simpl.
  - by destruct (P x).
  - destruct (P x) eqn:HP; [|done]. apply HPQ in HP. congruence.
Qed.

Lemma replace_first_same name value (hs : list (string * string)) kv :
  List.find (same_key name) hs = Some kv → kv.2 = value →
  replace_first name value hs = Some hs.
Proof.
  intros Hf Hv. induction hs as [|[k' v'] hs IH]; simpl in *; [done|].
  destruct (same_key name (k', v')).
  - injection Hf as <-. simpl in Hv. by subst.
  - by rewrite IH.
Qed.

(** What a returned block says about the reverse conversion. *)
Lemma pkginfo_to_metadata_Ok requires pkg_info out :
  pkginfo_to_metadata requires pkg_info = Ok out →
  ∃ pre k v0 post,
    headers pkg_info = pre ++ (k, v0) :: post
    ∧ same_key "Metadata-Version" (k, v0) = true
    ∧ Forall (λ kv, same_key "Metadata-Version" kv = false) pre
    ∧ let listed :=
        mkMessage ((pre ++ (k, "2.0") :: post) ++ appended_headers requires)
          (payload pkg_info) in
      msg_get listed "Description" = msg_get pkg_info "Description"
      ∧ match msg_get pkg_info "Description" with
        | Some (String _ _) =>
            ∃ text, dedent_description pkg_info = Ok text ∧ text ≠ ""
                    ∧ out = msg_del (msg_set_payload listed text)
                              "Description"
        | _ => out = listed
        end.
Proof.
  unfold pkginfo_to_metadata, msg_replace_header.
  destruct (replace_first _ _ (headers pkg_info)) as [hs'|] eqn:Hr; [|done].
  apply replace_first_Some in Hr as (pre & k & v0 & post & Hhs & -> & Hk & Hpre).
  cbn [mbind result_bind].
  set (replaced := mkMessage (pre ++ (k, "2.0") :: post) (payload pkg_info)).
  set (listed' := match requires with
                  | Some sections => fold_left add_section sections replaced
                  | None => replaced
                  end).
  intros Hout. exists pre, k, v0, post.
  split; [done|]. split; [done|]. split; [done|]. cbv zeta.
  set (listed := mkMessage _ _).
  assert (listed' = listed) as ->.
  { unfold listed', listed. destruct requires as [sections|]; simpl.
    - destruct (add_sections_headers replaced sections) as [Hh Hp].
      destruct (fold_left add_section sections replaced) as [hs p].
      simpl in *. by subst.
    - by rewrite app_nil_r. }
  assert (msg_get listed "Description" = msg_get pkg_info "Description")
    as Hget.
  { unfold msg_get, listed. cbn [headers].
    rewrite Hhs, find_app_no_key by by apply appended_not_same_key.
    by rewrite (find_replaced _ "2.0" pre k v0 post)
      by by apply metadata_version_not_description. }
  split; [done|]. rewrite Hget in Hout.
  rewrite (dedent_description_get pkg_info listed Hget) in Hout.
  destruct (take_description_cases pkg_info)
    as [(c & d & n & Hg & Hn & Hne & _)|[(Hg & _)|(Hg & _)]].
  - rewrite Hg in *. simpl in Hout. rewrite Hn in Hout.
    cbn [mbind result_bind] in Hout. injection Hout as <-. by exists n.
  - destruct (msg_get pkg_info "Description") as [[|??]|]; try done;
      simpl in Hout; by injection Hout as <-.
  - destruct (msg_get pkg_info "Description") as [[|??]|]; try done;
      simpl in Hout; by injection Hout as <-.
Qed.

End reverse.

(** X14: the reverse conversion is idempotent when it is repeated without
    a listing: applied to a block that it returned, with no [requires.txt],
    it returns that block as it is. *)
Theorem reverse_conversion_idempotent
    (requires : option (list (option string * list Requirement)))
    (pkg_info out : Message) :
  pkginfo_to_metadata requires pkg_info = Ok out →
  pkginfo_to_metadata None out = Ok out.
Proof.
  intros (pre & k & v0 & post & Hhs & Hk & Hpre & Hout)%pkginfo_to_metadata_Ok.
  cbv zeta in Hout. destruct Hout as [Hget Hout].
  set (listed := mkMessage _ _) in *.
  assert (List.find (same_key "Metadata-Version") (headers listed)
          = Some (k, "2.0")) as Hfind.
  { unfold listed. cbn [headers]. rewrite <- app_assoc. simpl.
    apply find_first; [done|]. unfold same_key in *. by simpl in *. }
  assert (∀ msg, msg_get msg "Description" = None
                 ∨ msg_get msg "Description" = Some "" →
            List.find (same_key "Metadata-Version") (headers msg)
            = Some (k, "2.0") →
            pkginfo_to_metadata None msg = Ok msg) as Hsame.
  { intros [hs p] Hd Hf. unfold pkginfo_to_metadata, msg_replace_header.
    cbn [headers payload] in *.
    rewrite (replace_first_same _ "2.0" _ _ Hf eq_refl).
    cbn [mbind result_bind]. by destruct Hd as [-> | ->]. }
  destruct (msg_get pkg_info "Description") as [[|c d]|] eqn:Hd.
  - subst out. apply Hsame; [by right|done].
  - destruct Hout as (text & _ & _ & ->). apply Hsame.
    + left. by rewrite msg_get_head, values_of_del_same.
    + unfold msg_del, msg_set_payload. cbn [headers].
      rewrite find_filter_implied; [done|].
      intros kv H. by rewrite metadata_version_not_description.
  - subst out. apply Hsame; [by left|done].
Qed.

Lemma reverse_conversion_idempotent_witness :
  pkginfo_to_metadata
    (Some [(Some "dev", [mkRequirement "bar" [] [(">=", "1.0")]])])
    (mkMessage [("Metadata-Version", "1.1"); ("Description", ("a" +:+ Py.nl +:+ "  b"))] "")
  = Ok (mkMessage [("Metadata-Version", "2.0"); ("Provides-Extra", "dev");
                   ("Requires-Dist", "bar (>=1.0); extra == 'dev'")]
          ("a" +:+ Py.nl +:+ "b" +:+ Py.nl +:+ Py.nl))
  ∧ pkginfo_to_metadata None
      (mkMessage [("Metadata-Version", "2.0"); ("Provides-Extra", "dev");
                  ("Requires-Dist", "bar (>=1.0); extra == 'dev'")]
         ("a" +:+ Py.nl +:+ "b" +:+ Py.nl +:+ Py.nl))
    = Ok (mkMessage [("Metadata-Version", "2.0"); ("Provides-Extra", "dev");
                     ("Requires-Dist", "bar (>=1.0); extra == 'dev'")]
            ("a" +:+ Py.nl +:+ "b" +:+ Py.nl +:+ Py.nl)).
Proof.
  assert (pkginfo_to_metadata
    (Some [(Some "dev", [mkRequirement "bar" [] [(">=", "1.0")]])])
    (mkMessage [("Metadata-Version", "1.1"); ("Description", ("a" +:+ Py.nl +:+ "  b"))] "")
  = Ok (mkMessage [("Metadata-Version", "2.0"); ("Provides-Extra", "dev");
                   ("Requires-Dist", "bar (>=1.0); extra == 'dev'")]
          ("a" +:+ Py.nl +:+ "b" +:+ Py.nl +:+ Py.nl))) as H by evaluate.
  split; [exact H|].
  exact (reverse_conversion_idempotent _ _ _ H).
Defined.

(** X15: the two conversions agree on the description.  When the
    reverse conversion returns a block, and the forward conversion returns
    a document for the block given and one for the block returned, the two
    documents have the same description, or both have none: the normalized
    text that the reverse conversion moved into the payload is taken from
    there as it is. *)
Theorem description_survives_reverse_conversion
    (requires : option (list (option string * list Requirement)))
    (pkg_info out : Message) (distribution distribution' : option Distribution)
    (doc doc' : gmap string pyval) :
  pkginfo_to_metadata requires pkg_info = Ok out →
  pkginfo_to_dict pkg_info distribution = Ok doc →
  pkginfo_to_dict out distribution' = Ok doc' →
  doc' !! "description" = doc !! "description".
Proof.
  intros (pre & k & v0 & post & Hhs & Hk & Hpre & Hout)%pkginfo_to_metadata_Ok
    Hdoc Hdoc'.
  cbv zeta in Hout. destruct Hout as [Hget Hout].
  set (listed := mkMessage _ _) in *.
  apply pkginfo_to_dict_Ok in Hdoc
    as (m0 & block & m & v & ex & Ht & Hl & _ & _ & ->).
  apply pkginfo_to_dict_Ok in Hdoc'
    as (m0' & block' & m' & v' & ex' & Ht' & Hl' & _ & _ & ->).
  rewrite !final_fields_frame by not_in_list.
  pose proof (description_of_loop _ _ _ _ Ht Hl) as Hdoc.
  pose proof (description_of_loop _ _ _ _ Ht' Hl') as Hdoc'.
  clear Ht Hl Ht' Hl'.
  destruct (msg_get pkg_info "Description") as [[|c d]|] eqn:Hd.
  - subst out. rewrite Hget in Hdoc'. congruence.
  - destruct Hout as (text & Htext & Hne & ->).
    destruct Hdoc as (text' & Htext' & ->).
    assert (text' = text) as -> by congruence.
    rewrite msg_get_head, values_of_del_same in Hdoc'. cbn [head] in Hdoc'.
    rewrite Hdoc'. unfold msg_del, msg_set_payload. cbn [payload].
    by destruct (String.eqb_spec text "").
  - subst out. rewrite Hget in Hdoc'. by rewrite Hdoc', Hdoc.
Qed.

Lemma description_survives_reverse_conversion_witness :
  pkginfo_to_metadata None
    (mkMessage [("Metadata-Version", "1.1"); ("Provides-Extra", "x");
                ("Description", ("a" +:+ Py.nl +:+ "  b"))] "")
  = Ok (mkMessage [("Metadata-Version", "2.0"); ("Provides-Extra", "x")]
          ("a" +:+ Py.nl +:+ "b" +:+ Py.nl +:+ Py.nl))
  ∧ pkginfo_to_dict
      (mkMessage [("Metadata-Version", "1.1"); ("Provides-Extra", "x");
                  ("Description", ("a" +:+ Py.nl +:+ "  b"))] "") None
    = Ok {[ "description" := PStr ("a" +:+ Py.nl +:+ "b" +:+ Py.nl +:+ Py.nl); "extras" := str_list ["x"];
            "metadata_version" := PStr "2.0" ]}
  ∧ pkginfo_to_dict
      (mkMessage [("Metadata-Version", "2.0"); ("Provides-Extra", "x")]
         ("a" +:+ Py.nl +:+ "b" +:+ Py.nl +:+ Py.nl)) None
    = Ok {[ "description" := PStr ("a" +:+ Py.nl +:+ "b" +:+ Py.nl +:+ Py.nl); "extras" := str_list ["x"];
            "metadata_version" := PStr "2.0" ]}
  ∧ ({[ "description" := PStr ("a" +:+ Py.nl +:+ "b" +:+ Py.nl +:+ Py.nl); "extras" := str_list ["x"];
        "metadata_version" := PStr "2.0" ]} : gmap string pyval)
      !! "description"
    = ({[ "description" := PStr ("a" +:+ Py.nl +:+ "b" +:+ Py.nl +:+ Py.nl); "extras" := str_list ["x"];
          "metadata_version" := PStr "2.0" ]} : gmap string pyval)
        !! "description".
Proof.
  assert (pkginfo_to_metadata None
    (mkMessage [("Metadata-Version", "1.1"); ("Provides-Extra", "x");
                ("Description", ("a" +:+ Py.nl +:+ "  b"))] "")
  = Ok (mkMessage [("Metadata-Version", "2.0"); ("Provides-Extra", "x")]
          ("a" +:+ Py.nl +:+ "b" +:+ Py.nl +:+ Py.nl))) as H1 by evaluate.
  assert (pkginfo_to_dict
      (mkMessage [("Metadata-Version", "1.1"); ("Provides-Extra", "x");
                  ("Description", ("a" +:+ Py.nl +:+ "  b"))] "") None
    = Ok {[ "description" := PStr ("a" +:+ Py.nl +:+ "b" +:+ Py.nl +:+ Py.nl); "extras" := str_list ["x"];
            "metadata_version" := PStr "2.0" ]}) as H2 by evaluate.
  assert (pkginfo_to_dict
      (mkMessage [("Metadata-Version", "2.0"); ("Provides-Extra", "x")]
         ("a" +:+ Py.nl +:+ "b" +:+ Py.nl +:+ Py.nl)) None
    = Ok {[ "description" := PStr ("a" +:+ Py.nl +:+ "b" +:+ Py.nl +:+ Py.nl); "extras" := str_list ["x"];
            "metadata_version" := PStr "2.0" ]}) as H3 by evaluate.
  split_and!; [exact H1|exact H2|exact H3|].
  exact (description_survives_reverse_conversion _ _ _ _ _ _ _ H1 H2 H3).
Defined.

(** ** The listing, read back *)

Section read_back.

Implicit Types (req : Requirement) (extra : option string)
  (sections : list (option string * list Requirement)).

Lemma rstrip_keeps (s : string) (c : ascii) :
  Py.isspace c = false →
  Py.rstrip (s +:+ String c "") = s +:+ String c "".
Proof.
  intros Hc. induction s as [|a s IH]; simpl.
  - by rewrite Hc.
  - rewrite IH. by destruct s.
Qed.

Lemma plain_no_newline (name : string) :
  plain name = true → Py.contains Py.newline name = false.
Proof.
  induction name as [|c name IH]; simpl; [done|].
  intros [Hc Hn]%andb_true_iff. rewrite (IH Hn), orb_false_r.
  destruct (Py.char_eqb c Py.newline) eqn:E; [|done].
  apply char_eqb_eq in E. subst c. done.
Qed.

(** The composed line is the line without a condition, then the
    condition. *)
Lemma line_split req extra :
  requires_dist_line req extra = base_line req +:+ section_condition extra.
Proof.
  unfold base_line, requires_dist_line, requires_dist_value.
  change (section_condition None) with "".
  by rewrite !str_app_assoc.
Qed.

(** What the grouping makes of a composed line. *)
Lemma line_read_back req extra :
  Py.contains ";" (base_line req) = false →
  match extra with Some name => plain name = true | None => True end →
  requirement_of (requires_dist_line req extra) = base_line req
  ∧ is_unconditional (requires_dist_line req extra)
    = bool_decide (section_extra extra = None)
  ∧ ∀ name, conditioned_on name (requires_dist_line req extra)
            = bool_decide (section_extra extra = Some name).
Proof.
  intros Hbase Hplain. rewrite line_split.
  assert (section_extra extra = None
          → requirement_of (base_line req +:+ "") = base_line req
            ∧ is_unconditional (base_line req +:+ "") = true
            ∧ ∀ name, conditioned_on name (base_line req +:+ "") = false)
    as Hnone.
  { intros _. rewrite str_app_nil_r.
    unfold conditioned_on, is_unconditional, marker_of, requirement_of.
    by rewrite partition_no_sep. }
  destruct extra as [[|c e]|].
  - change (section_condition (Some "")) with "".
    destruct Hnone as (-> & -> & Hc); [done|].
    split_and!; [done..|]. intros name. by rewrite Hc.
  - change (section_condition (Some (String c e)))
      with ("; extra == " +:+ Py.repr (String c e)).
    change (section_extra (Some (String c e))) with (Some (String c e)).
    rewrite repr_plain by done.
    change ("; extra == " +:+ "'" +:+ String c e +:+ "'")
      with (String ";" (" extra == '" +:+ String c e +:+ "'")).
    unfold conditioned_on, is_unconditional, marker_of, requirement_of.
    rewrite partition_at_sep by done. cbn [fst snd].
    assert (Py.strip (" extra == '" +:+ String c e +:+ "'")
            = "extra == '" +:+ String c e +:+ "'") as ->.
    { unfold Py.strip.
      change (Py.lstrip (" extra == '" +:+ String c e +:+ "'"))
        with (("extra == '" +:+ String c e) +:+ String Py.squote "").
      by rewrite rstrip_keeps. }
    pose proof (EXTRA_RE_match_intro (String c e) "" ltac:(done)
                  (plain_no_newline _ Hplain) eq_refl) as Hm.
    change ("'" +:+ "") with "'" in Hm. rewrite Hm.
    split_and!; [done|done|]. intros name.
    change (negb _) with true. cbn [andb].
    apply bool_decide_ext. split; congruence.
  - change (section_condition None) with "".
    destruct Hnone as (-> & -> & Hc); [done|].
    split_and!; [done..|]. intros name. by rewrite Hc.
Qed.

(** The [Requires-Dist] values among the headers of the listing. *)
Lemma listing_values sections (text : string) :
  values_of (mkMessage (appended_headers (Some sections)) text)
    "Requires-Dist"
  = concat (section_lines <$> sections).
Proof.
  unfold values_of, appended_headers. cbn [headers].
  induction sections as [|[extra reqs] sections IH]; [done|].
  rewrite !fmap_cons. cbn [concat]. rewrite List.filter_app, map_app, IH.
  f_equal. unfold section_headers. cbn [fst snd].
  rewrite List.filter_app, map_app.
  assert (map snd (List.filter (same_key "Requires-Dist")
            (if truthy (opt_str extra)
             then [("Provides-Extra", default "" extra)] else [])) = [])
    as ->.
  { by destruct (truthy (opt_str extra)). }
  cbn [app]. induction reqs as [|req reqs IHr]; [done|].
  rewrite !fmap_cons. cbn [List.filter].
  change (same_key "Requires-Dist" ("Requires-Dist", _)) with true.
  cbn [map snd]. by rewrite IHr.
Qed.

(** The lines of the sections that a test keeps, when the test goes by
    the extra of the section. *)
Lemma grouped_sections (keeps : string → bool) (target : option string)
    sections :
  Forall well_named sections →
  (∀ req extra,
     Py.contains ";" (base_line req) = false →
     match extra with Some name => plain name = true | None => True end →
     keeps (requires_dist_line req extra)
     = bool_decide (section_extra extra = target)) →
  requirement_of
    <$> List.filter keeps
          (concat (section_lines <$> sections))
  = base_line <$> listed_under target sections.
Proof.
  intros Hall Hkeeps. unfold listed_under.
  induction Hall as [|[extra reqs] sections [Hname Hreqs] _ IH]; [done|].
  rewrite fmap_cons. cbn [concat List.filter fst snd] in *.
  change (section_lines (extra, reqs))
    with ((λ req, requires_dist_line req extra) <$> reqs).
  rewrite List.filter_app, fmap_app, IH.
  assert (requirement_of
            <$> List.filter keeps
                  ((λ req, requires_dist_line req extra) <$> reqs)
          = if bool_decide (section_extra extra = target)
            then base_line <$> reqs else []) as ->.
  { induction Hreqs as [|req reqs Hreq _ IHr];
      [by destruct (bool_decide _)|].
    rewrite fmap_cons. cbn [List.filter].
    rewrite (Hkeeps req extra Hreq Hname).
    destruct (line_read_back req extra Hreq Hname) as (Hr & _ & _).
    destruct (bool_decide (section_extra extra = target)); [|done].
    rewrite !fmap_cons, Hr. f_equal. exact IHr. }
  destruct (bool_decide (section_extra extra = target)); [|done].
  rewrite fmap_cons. cbn [concat snd]. by rewrite fmap_app.
Qed.

End read_back.

(** The values of a header of the returned block: those of the block
    given, then those of the listing. *)
Lemma reverse_conversion_values
    (requires : option (list (option string * list Requirement)))
    (pkg_info out : Message) (name : string) :
  pkginfo_to_metadata requires pkg_info = Ok out →
  Py.lower name ≠ "metadata-version" → Py.lower name ≠ "description" →
  values_of out name
  = values_of pkg_info name
    ++ values_of (mkMessage (appended_headers requires) "") name.
Proof.
  intros (pre & k & v0 & post & Hhs & Hk & Hpre & Hout)%pkginfo_to_metadata_Ok
    Hmv Hd.
  cbv zeta in Hout. destruct Hout as [_ Hout].
  assert (values_of
            (mkMessage ((pre ++ (k, "2.0") :: post)
                        ++ appended_headers requires)
               (payload pkg_info)) name
          = values_of pkg_info name
            ++ values_of (mkMessage (appended_headers requires) "") name)
    as Hlisted.
  { unfold values_of. cbn [headers].
    assert (∀ v, same_key name (k, v) = false) as Hkv.
    { intros v. unfold same_key in *. cbn [fst] in *.
      apply String.eqb_eq in Hk. rewrite Hk. by apply String.eqb_neq. }
    rewrite Hhs, !List.filter_app, !map_app. cbn [List.filter].
    by rewrite !Hkv. }
  destruct (msg_get pkg_info "Description") as [[|c d]|].
  - by subst out.
  - destruct Hout as (text & _ & _ & ->).
    by rewrite values_of_del_ne.
  - by subst out.
Qed.

(** The grouping of the lines of a listing. *)
Lemma listing_grouping (sections : list (option string * list Requirement)) :
  Forall well_named sections →
  (group_requirements (concat (section_lines <$> sections))).1
  = base_line <$> listed_under None sections
  ∧ ∀ name,
      (group_requirements (concat (section_lines <$> sections))).2 !! name
      = match listed_under (Some name) sections with
        | [] => None
        | reqs => Some (base_line <$> reqs)
        end.
Proof.
  intros Hall.
  destruct (group_requirements_spec
              (concat (section_lines <$> sections)))
    as [-> H2].
  split.
  - apply grouped_sections; [done|]. intros req extra Hreq Hname.
    destruct (line_read_back req extra Hreq Hname) as (_ & H & _).
    rewrite H. by apply bool_decide_ext.
  - intros name. rewrite H2.
    pose proof (grouped_sections (conditioned_on name) (Some name) sections
                  Hall) as Hg.
    lapply Hg.
    + clear Hg. intros Hg.
      destruct (List.filter _ _) as [|v vs], (listed_under _ _) as [|r rs];
        try done. by rewrite Hg.
    + intros req extra Hreq Hname.
      by destruct (line_read_back req extra Hreq Hname) as (_ & _ & H).
Qed.

(** X16: the requirements that the reverse conversion writes are read
    back by the grouping of the forward conversion.  For a block without
    [Requires-Dist] headers of its own, and a listing whose section names
    are [plain] (printable characters, no single quote, no backslash) and
    whose composed lines hold no semicolon before the condition: when the
    reverse conversion returns a block, the grouping of its
    [Requires-Dist] values has, as unconditional list, the lines of the
    sections without a name or with the empty name, and as bucket of every
    extra the lines of the sections of that name, in the order of the
    listing, each line without its condition; an extra without a line has
    no bucket. *)
Theorem listing_read_back
    (sections : list (option string * list Requirement))
    (pkg_info out : Message) :
  pkginfo_to_metadata (Some sections) pkg_info = Ok out →
  values_of pkg_info "Requires-Dist" = [] →
  Forall well_named sections →
  (group_requirements (values_of out "Requires-Dist")).1
  = base_line <$> listed_under None sections
  ∧ ∀ name,
      (group_requirements (values_of out "Requires-Dist")).2 !! name
      = match listed_under (Some name) sections with
        | [] => None
        | reqs => Some (base_line <$> reqs)
        end.
Proof.
  intros Hout Hown Hall.
  rewrite (reverse_conversion_values _ _ _ "Requires-Dist" Hout) by done.
  rewrite Hown, listing_values. by apply listing_grouping.
Qed.

Lemma listing_read_back_witness :
  pkginfo_to_metadata
    (Some [(None, [mkRequirement "foo" [] [(">=", "1.0")]]);
           (Some "dev", [mkRequirement "bar" ["x"] []])])
    (mkMessage [("Metadata-Version", "1.1")] "")
  = Ok (mkMessage [("Metadata-Version", "2.0");
                   ("Requires-Dist", "foo (>=1.0)");
                   ("Provides-Extra", "dev");
                   ("Requires-Dist", "bar[x]; extra == 'dev'")] "")
  ∧ group_requirements
      (values_of
         (mkMessage [("Metadata-Version", "2.0");
                     ("Requires-Dist", "foo (>=1.0)");
                     ("Provides-Extra", "dev");
                     ("Requires-Dist", "bar[x]; extra == 'dev'")] "")
         "Requires-Dist")
    = (["foo (>=1.0)"], {[ "dev" := ["bar[x]"] ]})
  ∧ (group_requirements
       (values_of
          (mkMessage [("Metadata-Version", "2.0");
                      ("Requires-Dist", "foo (>=1.0)");
                      ("Provides-Extra", "dev");
                      ("Requires-Dist", "bar[x]; extra == 'dev'")] "")
          "Requires-Dist")).1
    = base_line
        <$> listed_under None
              [(None, [mkRequirement "foo" [] [(">=", "1.0")]]);
               (Some "dev", [mkRequirement "bar" ["x"] []])].
Proof.
  assert (pkginfo_to_metadata
    (Some [(None, [mkRequirement "foo" [] [(">=", "1.0")]]);
           (Some "dev", [mkRequirement "bar" ["x"] []])])
    (mkMessage [("Metadata-Version", "1.1")] "")
  = Ok (mkMessage [("Metadata-Version", "2.0");
                   ("Requires-Dist", "foo (>=1.0)");
                   ("Provides-Extra", "dev");
                   ("Requires-Dist", "bar[x]; extra == 'dev'")] ""))
    as H by evaluate.
  split; [exact H|]. split; [evaluate|].
  apply (listing_read_back _ _ _ H); [reflexivity|].
  repeat (apply List.Forall_cons || apply List.Forall_nil);
    (split; [reflexivity|]);
    repeat (apply List.Forall_cons || apply List.Forall_nil); evaluate.
Defined.

(** ** The case of the header keys *)

Section key_case.

Implicit Types (a b : Message) (name : string).

Lemma same_up_to_case_values a b name :
  same_up_to_case a b →
  values_of a name = values_of b name ∧ msg_get a name = msg_get b name.
Proof.
  intros [_ H]. rewrite !msg_get_head. unfold values_of.
  assert (map snd (List.filter (same_key name) (headers a))
          = map snd (List.filter (same_key name) (headers b))) as ->; [|done].
  induction H as [|x y hs hs' [Hk Hv] _ IH]; [done|]. cbn [List.filter].
  assert (same_key name x = same_key name y) as ->
    by (unfold same_key; by rewrite Hk).
  destruct (same_key name y); cbn [map]; by rewrite ?Hv, IH.
Qed.

Lemma same_up_to_case_keys a b :
  same_up_to_case a b →
  Py.lower <$> msg_keys a = Py.lower <$> msg_keys b.
Proof.
  intros [_ H]. unfold msg_keys.
  induction H as [|x y hs hs' [Hk Hv] _ IH]; [done|]. cbn [map].
  by rewrite !fmap_cons, Hk, IH.
Qed.

Lemma same_up_to_case_del a b name :
  same_up_to_case a b → same_up_to_case (msg_del a name) (msg_del b name).
Proof.
  intros [Hp H]. split; [done|]. unfold msg_del. cbn [headers].
  induction H as [|x y hs hs' [Hk Hv] _ IH]; [constructor|].
  cbn [List.filter].
  assert (same_key name x = same_key name y) as ->
    by (unfold same_key; by rewrite Hk).
  destruct (same_key name y); cbn [negb]; [done|]. by constructor.
Qed.

Lemma same_up_to_case_loop a b (m : gmap string pyval) :
  same_up_to_case a b →
  fold_result (process_key a) (unique (Py.lower <$> msg_keys a)) m
  = fold_result (process_key b) (unique (Py.lower <$> msg_keys b)) m.
Proof.
  intros H. rewrite (same_up_to_case_keys a b H).
  apply fold_result_ext, Forall_forall. intros key _ m'.
  destruct (same_up_to_case_values a b key H) as [Hv Hg].
  apply process_key_same_lookups; [done|]. unfold msg_get_all. by rewrite Hv.
Qed.

End key_case.

(** X17: the forward conversion does not see the case of the header
    keys: two header blocks (with native-text values) that have the same
    payload and the same header values in the same order, under keys that
    are equal up to case, give the same document, or raise the same
    error, with the same distribution object. *)
Theorem header_case_irrelevant (a b : Message)
    (distribution : option Distribution) :
  same_up_to_case a b →
  pkginfo_to_dict a distribution = pkginfo_to_dict b distribution.
Proof.
  intros H. unfold pkginfo_to_dict.
  assert (match take_description a, take_description b with
          | Ok (m, block), Ok (m', block') =>
              m = m' ∧ same_up_to_case block block'
          | Raise e, Raise e' => e = e'
          | _, _ => False
          end) as Ht.
  { unfold take_description.
    destruct (same_up_to_case_values a b "Description" H) as [_ Hg].
    rewrite (dedent_description_get b a Hg), Hg.
    destruct H as [Hp H]. rewrite Hp.
    destruct (truthy (opt_str (msg_get b "Description"))).
    - destruct (dedent_description b); cbn [mbind result_bind]; [|done].
      split; [done|]. by apply same_up_to_case_del.
    - by destruct (truthy (PStr (payload b))). }
  destruct (take_description a) as [[m block]|e],
    (take_description b) as [[m' block']|e']; try done; [|by subst].
  destruct Ht as [<- Hb]. cbn [mbind result_bind].
  by rewrite (same_up_to_case_loop block block' m Hb).
Qed.

Lemma header_case_irrelevant_witness :
  same_up_to_case
    (mkMessage [("NAME", "pkg"); ("provides-extra", "x")] "text")
    (mkMessage [("Name", "pkg"); ("Provides-Extra", "x")] "text")
  ∧ pkginfo_to_dict
      (mkMessage [("NAME", "pkg"); ("provides-extra", "x")] "text") None
    = pkginfo_to_dict
        (mkMessage [("Name", "pkg"); ("Provides-Extra", "x")] "text") None.
Proof.
  assert (same_up_to_case
    (mkMessage [("NAME", "pkg"); ("provides-extra", "x")] "text")
    (mkMessage [("Name", "pkg"); ("Provides-Extra", "x")] "text")) as H.
  { split; [reflexivity|]. by repeat constructor. }
  split; [exact H|].
  exact (header_case_irrelevant _ _ None H).
Defined.

(** ** The extras of a converted listing *)

Section listing_extras.

Implicit Types (m : gmap string pyval) (block pkg_info out : Message)
  (sections : list (option string * list Requirement)).

Lemma sorted_items_keys {V} (d : gmap string V) (x : string) :
  x ∈ (fst <$> sorted_items d) → is_Some (d !! x).
Proof.
  unfold sorted_items. rewrite sorted_by_perm.
  intros ([k v] & -> & H%elem_of_map_to_list)%list_elem_of_fmap. by eexists.
Qed.

Lemma sorted_items_empty {V} : sorted_items (∅ : gmap string V) = [].
Proof. unfold sorted_items. by rewrite map_to_list_empty. Qed.

(** What the requirement rule leaves in [extras]: what was there, then
    the names of the extra-conditioned buckets, in order. *)
Lemma store_requirements_extras m m' (values : list string)
    (prior : option (list string)) :
  store_requirements m values = Ok m' →
  m !! "extras" = str_list <$> prior →
  m' !! "extras"
  = match prior, fst <$> sorted_items (group_requirements values).2 with
    | None, [] => None
    | _, names => Some (str_list (default [] prior ++ names))
    end.
Proof.
  unfold store_requirements.
  destruct (group_requirements values) as [rs ex]. cbn [snd].
  destruct (bool_decide (ex ≠ ∅)) eqn:Hex.
  - apply bool_decide_eq_true in Hex.
    pose proof (sorted_items_not_nil ex Hex) as Hne.
    intros H Hm.
    unfold extend_extras in H. rewrite !lookup_insert_ne in H by done.
    rewrite Hm in H.
    destruct prior as [l|]; cbn [fmap option_fmap option_map] in H.
    + rewrite !lookup_insert_ne, Hm in H by done.
      cbn [fmap option_fmap option_map] in H. unfold str_list in H at 1.
      injection H as <-. rewrite lookup_insert_eq.
      unfold str_list. rewrite fmap_app. cbn [default].
      by destruct (fst <$> sorted_items ex).
    + rewrite lookup_insert_eq in H. injection H as <-.
      rewrite lookup_insert_eq.
      by destruct (sorted_items ex).
  - apply bool_decide_eq_false in Hex. apply dec_stable in Hex. subst ex.
    intros [= <-] Hm. rewrite sorted_items_empty.
    rewrite lookup_insert_ne, Hm by done.
    destruct prior as [l|]; [|done]. simpl. by rewrite app_nil_r.
Qed.

(** What the loop leaves in [extras] when only the keys [provides-extra]
    and [requires-dist] write it: the values of the first, and after them
    names of extra-conditioned buckets when the second came later. *)
Lemma loop_extras block m0 m :
  m0 !! "extras" = None →
  (∀ kv, kv ∈ headers block → "extras" ∈ writes (normalized kv.1) →
         Py.lower kv.1 = "provides-extra"
         ∨ Py.lower kv.1 = "requires-dist") →
  fold_result (process_key block) (unique (Py.lower <$> msg_keys block)) m0
  = Ok m →
  ∃ tail,
    (tail = fst <$> sorted_items
                      (group_requirements
                         (values_of block "Requires-Dist")).2
     ∨ tail = [] ∧ values_of block "Provides-Extra" ≠ [])
    ∧ m !! "extras"
      = match values_of block "Provides-Extra", tail with
        | [], [] => None
        | provided, _ => Some (str_list (provided ++ tail))
        end.
Proof.
  intros Hm0 Hwriters.
  pose proof (unique_NoDup (Py.lower <$> msg_keys block)) as Hnd.
  assert (∀ key, key ∈ unique (Py.lower <$> msg_keys block) →
            key ≠ "provides-extra" → key ≠ "requires-dist" →
            "extras" ∉ writes (Py.replace "-" "_" key)) as Hothers.
  { intros key Hkey Hpe Hrd Hw.
    destruct (loop_key_origin block key Hkey) as (k & v & Hkv & ->).
    destruct (Hwriters (k, v) Hkv Hw); done. }
  assert (∀ m1 m2, "provides-extra" ∈ unique (Py.lower <$> msg_keys block) →
            process_key block m1 "provides-extra" = Ok m2 →
            values_of block "Provides-Extra" ≠ []
            ∧ m2 !! "extras"
              = Some (str_list (values_of block "Provides-Extra"))) as Hpe.
  { intros m1 m2 Hkey Hstep.
    destruct (loop_key_header block _ Hkey) as (_ & v & vs & _ & Hga).
    rewrite process_key_rule in Hstep.
    assert (placeholder block "provides-extra" = false) as Hp.
    { unfold placeholder. apply andb_false_iff. left.
      apply bool_decide_eq_false. intros H.
      by apply (bool_decide_pack _) in H. }
    assert (rule_of (Py.replace "-" "_" "provides-extra")
            = PluralRule "extras") as Hrule by evaluate.
    rewrite Hp, Hrule, Hga in Hstep. injection Hstep as <-.
    rewrite lookup_insert_eq. unfold msg_get_all in Hga.
    change "provides-extra" with (Py.lower "Provides-Extra") in Hga.
    rewrite values_of_lower in Hga.
    destruct (values_of block "Provides-Extra"); [done|].
    by injection Hga as <- <-. }
  assert (∀ m1 m2 prior,
            "requires-dist" ∈ unique (Py.lower <$> msg_keys block) →
            process_key block m1 "requires-dist" = Ok m2 →
            m1 !! "extras" = str_list <$> prior →
            m2 !! "extras"
            = match prior,
                    fst <$> sorted_items
                              (group_requirements
                                 (values_of block "Requires-Dist")).2 with
              | None, [] => None
              | _, names => Some (str_list (default [] prior ++ names))
              end) as Hrd.
  { intros m1 m2 prior Hkey Hstep Hprior.
    destruct (loop_key_header block _ Hkey) as (_ & v & vs & _ & Hga).
    rewrite process_key_rule in Hstep.
    assert (placeholder block "requires-dist" = false) as Hp.
    { unfold placeholder. apply andb_false_iff. left.
      apply bool_decide_eq_false. intros H.
      by apply (bool_decide_pack _) in H. }
    assert (rule_of (Py.replace "-" "_" "requires-dist")
            = RequirementRule) as Hrule by evaluate.
    rewrite Hp, Hrule, Hga in Hstep. unfold msg_get_all in Hga.
    change "requires-dist" with (Py.lower "Requires-Dist") in Hga.
    rewrite values_of_lower in Hga.
    destruct (values_of block "Requires-Dist") as [|v' vs'] eqn:Hv; [done|].
    injection Hga as <- <-.
    by eapply store_requirements_extras. }
  pose proof (values_of_loop_key block "Provides-Extra") as Hhas.
  change (Py.lower "Provides-Extra") with "provides-extra" in Hhas.
  pose proof (values_of_loop_key block "Requires-Dist") as Hhas'.
  change (Py.lower "Requires-Dist") with "requires-dist" in Hhas'.
  revert Hnd Hothers Hpe Hrd Hhas Hhas'.
  generalize (unique (Py.lower <$> msg_keys block)). intros keys.
  intros Hnd Hothers Hpe Hrd Hhas Hhas' Hfold.
  destruct (decide ("provides-extra" ∈ keys)) as [Hin|Hnot].
  - pose proof Hin as (l1 & l2 & ->)%list_elem_of_split.
    apply NoDup_app in Hnd as (Hl1 & Hsep & [Hpe2 Hl2]%NoDup_cons).
    destruct (decide ("requires-dist" ∈ l2)) as [Hin'|Hnot'].
    + apply list_elem_of_split in Hin' as (l3 & l4 & ->).
      apply NoDup_app in Hl2 as (Hl3 & Hsep3 & [Hrd4 Hl4]%NoDup_cons).
      change (l1 ++ "provides-extra" :: l3 ++ "requires-dist" :: l4)
        with (l1 ++ ("provides-extra" :: l3) ++ "requires-dist" :: l4)
        in Hfold, Hothers, Hpe, Hrd.
      rewrite app_assoc in Hfold, Hothers, Hpe, Hrd.
      rewrite fold_result_app in Hfold.
      destruct (fold_result _ (l1 ++ _ :: l3) m0) as [mA|] eqn:HA; [|done].
      cbn [mbind result_bind fold_result] in Hfold.
      destruct (process_key block mA "requires-dist") as [mB|] eqn:HB;
        [|done].
      cbn [mbind result_bind] in Hfold.
      destruct (loop_last_writer block l1 l3 "provides-extra" "extras"
                  m0 mA HA) as (m1 & m2 & Hstep & HmA).
      { intros key Hkey. apply Hothers.
        - apply elem_of_app. left. apply elem_of_app. right. by right.
        - intros ->. apply Hpe2. apply elem_of_app. by left.
        - intros ->. apply (Hsep3 _ Hkey). by left. }
      destruct (Hpe m1 m2) as [Hne Hm2]; [by set_solver|done|].
      pose proof (Hrd mA mB (Some (values_of block "Provides-Extra")))
        as HmB.
      eexists. split; [by left|].
      rewrite (loop_frame _ _ _ _ "extras" Hfold).
      * rewrite HmB; [|by set_solver|done|by rewrite HmA]. cbn [default].
        by destruct (values_of block "Provides-Extra").
      * apply Forall_forall. intros key Hkey. apply Hothers.
        -- apply elem_of_app. right. by right.
        -- intros ->. apply Hpe2. apply elem_of_app. right. by right.
        -- by intros ->.
    + destruct (loop_last_writer block l1 l2 "provides-extra" "extras"
                  m0 m Hfold) as (m1 & m2 & Hstep & ->).
      { intros key Hkey. apply Hothers.
        - apply elem_of_app. right. by right.
        - by intros ->.
        - by intros ->. }
      destruct (Hpe m1 m2) as [Hne Hm2]; [by set_solver|done|].
      exists []. split; [by right|].
      rewrite Hm2.
      destruct (values_of block "Provides-Extra"); [done|].
      by rewrite app_nil_r.
  - assert (values_of block "Provides-Extra" = []) as ->.
    { destruct (values_of block "Provides-Extra") eqn:Hv; [done|].
      destruct Hnot. by apply Hhas. }
    destruct (decide ("requires-dist" ∈ keys)) as [Hin'|Hnot'].
    + pose proof Hin' as (l1 & l2 & ->)%list_elem_of_split.
      apply NoDup_app in Hnd as (Hl1 & Hsep & [Hrd2 Hl2]%NoDup_cons).
      rewrite fold_result_app in Hfold.
      destruct (fold_result _ l1 m0) as [mA|] eqn:HA; [|done].
      cbn [mbind result_bind fold_result] in Hfold.
      destruct (process_key block mA "requires-dist") as [mB|] eqn:HB;
        [|done].
      cbn [mbind result_bind] in Hfold.
      assert (mA !! "extras" = None) as HmA.
      { rewrite <- Hm0. eapply loop_frame; [done|].
        apply Forall_forall. intros key Hkey. apply Hothers.
        - apply elem_of_app. by left.
        - intros ->. apply Hnot. apply elem_of_app. by left.
        - intros ->. apply (Hsep _ Hkey). by left. }
      pose proof (Hrd mA mB None) as HmB.
      eexists. split; [by left|].
      rewrite (loop_frame _ _ _ _ "extras" Hfold).
      * rewrite HmB; [|done|done|by rewrite HmA].
        by destruct (fst <$> sorted_items _).
      * apply Forall_forall. intros key Hkey. apply Hothers.
        -- apply elem_of_app. right. by right.
        -- intros ->. apply Hnot. apply elem_of_app. right. by right.
        -- by intros ->.
    + exists []. split.
      { left. destruct (values_of block "Requires-Dist") eqn:Hv.
        - unfold group_requirements. cbn [fold_left snd].
          by rewrite sorted_items_empty.
        - destruct Hnot'. by apply Hhas'. }
      rewrite <- Hm0. eapply loop_frame; [done|].
      apply Forall_forall. intros key Hkey. apply Hothers; [done|..];
        by intros ->.
Qed.

Lemma unique_from_absorbed (seen : gset string) (l : list string) :
  (∀ x, x ∈ l → x ∈ seen) → unique_from seen l = [].
Proof.
  intros H. induction l as [|x l IH]; simpl; [done|].
  rewrite decide_True by (apply H; by left).
  apply IH. intros y Hy. apply H. by right.
Qed.

Lemma unique_app_absorbed (l tail : list string) :
  (∀ x, x ∈ tail → x ∈ l) → unique (l ++ tail) = unique l.
Proof.
  intros H. unfold unique. rewrite unique_from_app.
  rewrite (unique_from_absorbed (list_to_set l ∪ ∅) tail);
    [by rewrite app_nil_r|].
  intros x Hx. apply elem_of_union. left.
  apply elem_of_list_to_set. by apply H.
Qed.

(** The [Provides-Extra] values among the headers of the listing. *)
Lemma listing_names sections (text : string) :
  values_of (mkMessage (appended_headers (Some sections)) text)
    "Provides-Extra"
  = section_names sections.
Proof.
  unfold values_of, appended_headers, section_names. cbn [headers].
  induction sections as [|[extra reqs] sections IH]; [done|].
  rewrite !fmap_cons. cbn [concat omap list_omap fst].
  rewrite List.filter_app, map_app, IH.
  unfold section_headers. cbn [fst snd].
  rewrite List.filter_app, map_app.
  assert (map snd (List.filter (same_key "Provides-Extra")
            ((λ req, ("Requires-Dist", requires_dist_line req extra))
               <$> reqs)) = []) as ->.
  { induction reqs as [|req reqs IHr]; [done|]. rewrite fmap_cons.
    cbn [List.filter].
    by change (same_key "Provides-Extra" ("Requires-Dist", _)) with false. }
  rewrite app_nil_r. unfold section_extra.
  destruct extra as [[|c e]|]; done.
Qed.

(** A named bucket of the listing has its name among the section names. *)
Lemma listed_under_name sections (name : string) :
  listed_under (Some name) sections ≠ [] → name ∈ section_names sections.
Proof.
  unfold listed_under, section_names.
  induction sections as [|[extra reqs] sections IH]; [done|].
  cbn [List.filter omap list_omap fst].
  destruct (bool_decide (section_extra extra = Some name)) eqn:E.
  - apply bool_decide_eq_true in E. rewrite E. intros _. by left.
  - intros H. apply IH in H. destruct (section_extra extra); [by right|done].
Qed.

(** The headers of a returned block: those of the block given, up to the
    value, and those of the listing. *)
Lemma reverse_conversion_headers
    (requires : option (list (option string * list Requirement)))
    pkg_info out (kv : string * string) :
  pkginfo_to_metadata requires pkg_info = Ok out →
  kv ∈ headers out →
  (∃ v, (kv.1, v) ∈ headers pkg_info) ∨ kv ∈ appended_headers requires.
Proof.
  intros (pre & k & v0 & post & Hhs & Hk & Hpre & Hout)%pkginfo_to_metadata_Ok
    Hkv.
  cbv zeta in Hout. destruct Hout as [_ Hout].
  assert (kv ∈ (pre ++ (k, "2.0") :: post) ++ appended_headers requires)
    as Hin.
  { destruct (msg_get pkg_info "Description") as [[|c d]|].
    - by subst out.
    - destruct Hout as (text & _ & _ & ->).
      by apply msg_del_headers in Hkv.
    - by subst out. }
  apply elem_of_app in Hin as [Hin|Hin]; [left|by right].
  rewrite Hhs. destruct kv as [k' v'].
  apply elem_of_app in Hin as [Hin|[Hin|Hin]%elem_of_cons].
  - exists v'. apply elem_of_app. by left.
  - injection Hin as -> ->. exists v0. apply elem_of_app. right. by left.
  - exists v'. apply elem_of_app. right. by right.
Qed.

End listing_extras.

(** X18: the extras of a listing survive both conversions.  When the
    reverse conversion adds a listing to a block that has itself no header
    that writes [extras] (no [Provides-Extra], [Requires-Dist] or [Extras]
    header, in any case, with hyphens or underscores) and returns a block,
    the section names are [plain] and the composed lines hold no semicolon
    before the condition, then every document that the forward conversion
    returns for the returned block has as [extras] the section names that
    are not empty, sorted and each once; whether the [Requires-Dist]
    headers come before the first [Provides-Extra] header or after it. *)
Theorem extras_of_listing
    (sections : list (option string * list Requirement))
    (pkg_info out : Message) (distribution : option Distribution)
    (doc : gmap string pyval) :
  pkginfo_to_metadata (Some sections) pkg_info = Ok out →
  pkginfo_to_dict out distribution = Ok doc →
  Forall (λ kv, "extras" ∉ writes (normalized kv.1)) (headers pkg_info) →
  Forall well_named sections →
  doc !! "extras"
  = Some (str_list (sorted (unique (section_names sections)))).
Proof.
  intros Hout Hdoc Hown Hall. rewrite Forall_forall in Hown.
  apply pkginfo_to_dict_Ok in Hdoc
    as (m0 & block & m & x & ex & Ht & Hl & Hx & Hex & ->).
  rewrite handle_contacts_frame by not_in_list.
  rewrite add_distribution_fields_frame by done.
  rewrite lookup_insert_eq.
  destruct (take_description_block _ _ _ Ht) as (_ & Hsub & Hm0).
  assert (∀ name, "extras" ∈ writes (normalized name) →
            values_of pkg_info name = []) as Hnone.
  { intros name Hw. destruct (values_of pkg_info name) as [|v vs] eqn:Hv;
      [done|].
    assert (v ∈ values_of pkg_info name) as Hin by (rewrite Hv; left).
    apply values_of_elem in Hin as (k & Hin & Hk).
    destruct (Hown (k, v) Hin). unfold normalized in *. simpl.
    by rewrite Hk. }
  assert (values_of block "Provides-Extra" = section_names sections) as Hpe.
  { destruct (take_description_values _ _ _ "Provides-Extra" Ht) as [-> _];
      [done|].
    rewrite (reverse_conversion_values _ _ _ _ Hout) by done.
    rewrite Hnone, listing_names; [done|]. vm_compute. by left. }
  assert (values_of block "Requires-Dist"
          = concat (section_lines <$> sections)) as Hrd.
  { destruct (take_description_values _ _ _ "Requires-Dist" Ht) as [-> _];
      [done|].
    rewrite (reverse_conversion_values _ _ _ _ Hout) by done.
    rewrite Hnone, listing_values; [done|]. vm_compute. by repeat constructor. }
  destruct (loop_extras block m0 m) as (tail & Htail' & Hm);
    [by apply Hm0| |done|].
  { intros kv Hkv Hw.
    destruct (reverse_conversion_headers _ _ _ kv Hout (Hsub _ Hkv))
      as [[v Hin]|Hin].
    - by destruct (Hown _ Hin).
    - pose proof (appended_headers_keys (Some sections)) as Hkeys.
      rewrite Forall_forall in Hkeys.
      destruct (Hkeys kv Hin) as [-> | ->]; [by left|by right]. }
  rewrite Hpe, Hrd in *.
  assert (∀ y, y ∈ tail →
            is_Some ((group_requirements
                        (concat (section_lines <$> sections))).2 !! y))
    as Htail.
  { intros y Hy. destruct Htail' as [->|[-> _]].
    - by apply sorted_items_keys.
    - by apply elem_of_nil in Hy. }
  assert (∀ y, y ∈ tail → y ∈ section_names sections) as Hsubset.
  { intros y Hy. apply listed_under_name.
    destruct (Htail y Hy) as [reqs Hreqs].
    destruct (listing_grouping sections Hall) as [_ Hg].
    rewrite Hg in Hreqs. by destruct (listed_under (Some y) sections). }
  assert (x = str_list (section_names sections ++ tail)) as ->.
  { rewrite Hx in Hm.
    destruct (section_names sections) as [|n ns] eqn:Hn.
    - destruct tail as [|y tail]; [done|]. by injection Hm as ->.
    - by injection Hm as ->. }
  rewrite sorted_unique_texts in Hex. injection Hex as <-.
  by rewrite unique_app_absorbed.
Qed.

Lemma extras_of_listing_witness :
  pkginfo_to_metadata
    (Some [(None, [mkRequirement "foo" [] []]);
           (Some "dev", [mkRequirement "bar" [] []])])
    (mkMessage [("Metadata-Version", "1.1")] "")
  = Ok (mkMessage [("Metadata-Version", "2.0"); ("Requires-Dist", "foo");
                   ("Provides-Extra", "dev");
                   ("Requires-Dist", "bar; extra == 'dev'")] "")
  ∧ pkginfo_to_dict
      (mkMessage [("Metadata-Version", "2.0"); ("Requires-Dist", "foo");
                  ("Provides-Extra", "dev");
                  ("Requires-Dist", "bar; extra == 'dev'")] "") None
    = Ok {[ "requires" := str_list ["foo"];
            "may_require" :=
              PList [PDict {[ "extra" := PStr "dev";
                              "dependencies" := str_list ["bar"] ]}];
            "extras" := str_list ["dev"];
            "metadata_version" := PStr "2.0" ]}
  ∧ ({[ "requires" := str_list ["foo"];
        "may_require" :=
          PList [PDict {[ "extra" := PStr "dev";
                          "dependencies" := str_list ["bar"] ]}];
        "extras" := str_list ["dev"];
        "metadata_version" := PStr "2.0" ]} : gmap string pyval)
      !! "extras"
    = Some (str_list (sorted (unique (section_names
        [(None, [mkRequirement "foo" [] []]);
         (Some "dev", [mkRequirement "bar" [] []])])))).
Proof.
  assert (pkginfo_to_metadata
    (Some [(None, [mkRequirement "foo" [] []]);
           (Some "dev", [mkRequirement "bar" [] []])])
    (mkMessage [("Metadata-Version", "1.1")] "")
  = Ok (mkMessage [("Metadata-Version", "2.0"); ("Requires-Dist", "foo");
                   ("Provides-Extra", "dev");
                   ("Requires-Dist", "bar; extra == 'dev'")] ""))
    as H1 by evaluate.
  assert (pkginfo_to_dict
      (mkMessage [("Metadata-Version", "2.0"); ("Requires-Dist", "foo");
                  ("Provides-Extra", "dev");
                  ("Requires-Dist", "bar; extra == 'dev'")] "") None
    = Ok {[ "requires" := str_list ["foo"];
            "may_require" :=
              PList [PDict {[ "extra" := PStr "dev";
                              "dependencies" := str_list ["bar"] ]}];
            "extras" := str_list ["dev"];
            "metadata_version" := PStr "2.0" ]}) as H2 by evaluate.
  split; [exact H1|]. split; [exact H2|].
  apply (extras_of_listing _ _ _ _ _ H1 H2).
  - apply List.Forall_cons; [|apply List.Forall_nil].
    vm_compute. not_in_list.
  - repeat (apply List.Forall_cons || apply List.Forall_nil);
      (split; [reflexivity|]);
      repeat (apply List.Forall_cons || apply List.Forall_nil); evaluate.
Defined.

(** ** The requirements of the specification's example *)

Lemma sorted_unique_all_same (a : string) (l : list string) :
  l ≠ [] → Forall (λ x, x = a) l → sorted (unique l) = [a].
Proof.
  destruct l as [|x l]; [done|]. intros _ [-> Hl]%Forall_cons.
  unfold unique. cbn [unique_from].
  rewrite decide_False by by intros ?%elem_of_empty.
  rewrite unique_from_absorbed; [done|].
  rewrite Forall_forall in Hl. intros y Hy. rewrite (Hl y Hy).
  apply elem_of_union. left. by apply elem_of_singleton.
Qed.

(** C2, with the proviso it needs: a header block whose [Requires-Dist]
    values are ["foo>=1.0"] and ["bar; extra == 'dev'"], in this order,
    whose [Provides-Extra] headers, if there are any, all have the value
    [dev], and whose other headers write none of [requires], [may_require]
    and [extras], converts to a document with [requires] equal to
    [["foo>=1.0"]], [may_require] equal to the one record of [dev] with
    the dependency [bar], and [extras] equal to [["dev"]]; wherever the
    [Provides-Extra] headers stand. *)
Theorem requires_dist_example (pkg_info : Message)
    (distribution : option Distribution) :
  values_of pkg_info "Requires-Dist" = ["foo>=1.0"; "bar; extra == 'dev'"] →
  Forall (λ kv, Py.lower kv.1 = "requires-dist"
                ∨ (Py.lower kv.1 = "provides-extra" ∧ kv.2 = "dev")
                ∨ ∀ f, f ∈ ["requires"; "may_require"; "extras"] →
                       f ∉ writes (normalized kv.1))
    (headers pkg_info) →
  ∃ doc,
    pkginfo_to_dict pkg_info distribution = Ok doc
    ∧ doc !! "requires" = Some (str_list ["foo>=1.0"])
    ∧ doc !! "may_require"
      = Some (PList [PDict {[ "extra" := PStr "dev";
                              "dependencies" := str_list ["bar"] ]}])
    ∧ doc !! "extras" = Some (str_list ["dev"]).
Proof.
  intros Hvalues Hall. rewrite Forall_forall in Hall.
  assert (∃ m0 block, take_description pkg_info = Ok (m0, block))
    as (m0 & block & Ht).
  { destruct (take_description_cases pkg_info)
      as [(?&?&?&_&_&_&->)|[(_&_&->)|(_&_&->)]]; eauto. }
  destruct (take_description_block _ _ _ Ht) as (_ & Hsub & Hm0).
  destruct (take_description_values _ _ _ "Requires-Dist" Ht) as [Hv _];
    [by vm_compute|].
  rewrite Hvalues in Hv.
  destruct (take_description_values _ _ _ "Provides-Extra" Ht) as [Hpe _];
    [by vm_compute|].
  assert (∀ kv, kv ∈ headers block →
            Py.lower kv.1 = "requires-dist"
            ∨ (Py.lower kv.1 = "provides-extra" ∧ kv.2 = "dev"
               ∧ writes (normalized kv.1) = ["extras"])
            ∨ ∀ f, f ∈ ["requires"; "may_require"; "extras"] →
                   f ∉ writes (normalized kv.1)) as Hblock.
  { intros kv Hkv. destruct (Hall _ (Hsub _ Hkv)) as [?|[[Hk ?]|?]]; auto.
    right. left. split_and!; [done..|]. unfold normalized. by rewrite Hk. }
  (* the loop returns *)
  pose proof (loop_shape block _ m0 (λ _ H, H) (block_shape _ _ _ Ht))
    as Hloop.
  destruct (fold_result (process_key block) _ m0) as [m|e] eqn:Hl.
  2:{ destruct Hloop as (_ & ([k v] & Hkv & Hn) & _). exfalso.
      unfold normalized in *. simpl in *.
      destruct (Hblock _ Hkv) as [Hk|[(Hk & _)|Hno]]; simpl in *.
      - by rewrite Hk in Hn.
      - by rewrite Hk in Hn.
      - apply (Hno "extras"); [by repeat constructor|].
        unfold normalized. rewrite Hn. by left. }
  clear Hloop.
  (* the two fields that the key [requires-dist] alone writes *)
  assert ("requires-dist" ∈ unique (Py.lower <$> msg_keys block)) as Hin.
  { apply (values_of_loop_key block "Requires-Dist"). by rewrite Hv. }
  assert (∀ f, f ∈ ["requires"; "may_require"] →
            ∃ m1 m2, m1 !! f = None
              ∧ store_requirements m1 ["foo>=1.0"; "bar; extra == 'dev'"]
                = Ok m2
              ∧ m !! f = m2 !! f) as Hfield.
  { intros f Hf.
    destruct (loop_single_writer block _ m0 m "requires-dist" f
                (unique_NoDup _) Hin) as (m1 & m2 & Hm1 & Hstep & Hm);
      [|done|].
    { intros key Hkey Hne.
      destruct (loop_key_origin block key Hkey) as (k & v & Hkv & ->).
      destruct (Hblock _ Hkv) as [?|[(_ & _ & Hw)|Hno]]; [done| |].
      - unfold normalized in Hw. simpl in Hw. rewrite Hw.
        in_cases Hf; subst f; not_in_list.
      - apply Hno. in_cases Hf; subst f; by repeat constructor. }
    exists m1, m2. split_and!; [|  |done].
    - rewrite Hm1. apply Hm0. by in_cases Hf; subst f.
    - rewrite process_key_rule in Hstep.
      assert (placeholder block "requires-dist" = false) as Hp.
      { unfold placeholder. apply andb_false_iff. left.
        apply bool_decide_eq_false. intros H.
        by apply (bool_decide_pack _) in H. }
      assert (rule_of (Py.replace "-" "_" "requires-dist")
              = RequirementRule) as Hrule by evaluate.
      rewrite Hp, Hrule in Hstep. unfold msg_get_all in Hstep.
      change "requires-dist" with (Py.lower "Requires-Dist") in Hstep.
      by rewrite values_of_lower, Hv in Hstep. }
  assert (m !! "requires" = Some (str_list ["foo>=1.0"])) as Hrequires.
  { destruct (Hfield "requires") as (m1 & m2 & _ & Hstore & ->);
      [by repeat constructor|].
    apply store_requirements_fields in Hstore as [-> _]. evaluate. }
  assert (m !! "may_require"
          = Some (PList [PDict {[ "extra" := PStr "dev";
                                  "dependencies" := str_list ["bar"] ]}]))
    as Hmay.
  { destruct (Hfield "may_require") as (m1 & m2 & _ & Hstore & ->);
      [by repeat constructor|].
    apply store_requirements_fields in Hstore as [_ ->]. evaluate. }
  (* the extras *)
  destruct (loop_extras block m0 m) as (tail & Htail & Hextras);
    [by apply Hm0| |done|].
  { intros kv Hkv Hw.
    destruct (Hblock _ Hkv) as [?|[(? & _)|Hno]]; [by right|by left|].
    by destruct (Hno "extras"); [repeat constructor|]. }
  rewrite Hv, Hpe in *.
  assert (fst <$> sorted_items
                    (group_requirements
                       ["foo>=1.0"; "bar; extra == 'dev'"]).2 = ["dev"])
    as Hnames by evaluate.
  rewrite Hnames in Htail.
  assert (Forall (λ x, x = "dev") (values_of pkg_info "Provides-Extra"))
    as Hdev.
  { apply Forall_forall. intros x Hx.
    apply values_of_elem in Hx as (k & Hkv & Hk).
    change (Py.lower "Provides-Extra") with "provides-extra" in Hk.
    destruct (Hall _ Hkv) as [Hk'|[[_ Hd]|Hno]]; simpl in *; [congruence|done|].
    destruct (Hno "extras"); [by repeat constructor|].
    unfold normalized. simpl. rewrite Hk. by left. }
  assert (∃ texts, m !! "extras" = Some (str_list texts)
                   ∧ texts ≠ [] ∧ Forall (λ x, x = "dev") texts)
    as (texts & Hm & Hne & Hsame).
  { exists (values_of pkg_info "Provides-Extra" ++ tail).
    destruct Htail as [->|[-> Hne]].
    - rewrite Hextras. split_and!.
      + by destruct (values_of pkg_info "Provides-Extra").
      + by destruct (values_of pkg_info "Provides-Extra").
      + apply Forall_app. split; [done|]. by repeat constructor.
    - clear Hnames.
      destruct (values_of pkg_info "Provides-Extra") as [|p ps] eqn:E;
        [by destruct Hne|].
      rewrite Hextras, !app_nil_r.
      split_and!; [reflexivity|discriminate|exact Hdev]. }
  eexists. split.
  { eapply (pkginfo_to_dict_after_loop _ _ _ _ m); [done|done|done|].
    by rewrite sorted_unique_texts,
      (sorted_unique_all_same "dev" texts Hne Hsame). }
  split_and!.
  - by rewrite final_fields_frame by not_in_list.
  - by rewrite final_fields_frame by not_in_list.
  - rewrite handle_contacts_frame by not_in_list.
    rewrite add_distribution_fields_frame by done.
    by rewrite lookup_insert_eq.
Qed.

Lemma requires_dist_example_witness :
  values_of
    (mkMessage [("Metadata-Version", "1.1"); ("Name", "pkg");
                ("Requires-Dist", "foo>=1.0");
                ("Requires-Dist", "bar; extra == 'dev'");
                ("Provides-Extra", "dev")] "")
    "Requires-Dist" = ["foo>=1.0"; "bar; extra == 'dev'"]
  ∧ ∃ doc,
      pkginfo_to_dict
        (mkMessage [("Metadata-Version", "1.1"); ("Name", "pkg");
                    ("Requires-Dist", "foo>=1.0");
                    ("Requires-Dist", "bar; extra == 'dev'");
                    ("Provides-Extra", "dev")] "") None
      = Ok doc
      ∧ doc !! "requires" = Some (str_list ["foo>=1.0"])
      ∧ doc !! "may_require"
        = Some (PList [PDict {[ "extra" := PStr "dev";
                                "dependencies" := str_list ["bar"] ]}])
      ∧ doc !! "extras" = Some (str_list ["dev"]).
Proof.
  split; [evaluate|].
  apply requires_dist_example; [evaluate|].
  apply List.Forall_cons.
  { right. right. intros f Hf. in_cases Hf; subst; vm_compute; not_in_list. }
  apply List.Forall_cons.
  { right. right. intros f Hf. in_cases Hf; subst; vm_compute; not_in_list. }
  apply List.Forall_cons; [by left|].
  apply List.Forall_cons; [by left|].
  apply List.Forall_cons; [right; left; by split|].
  apply List.Forall_nil.
Defined.

(** C2, against the wording of the specification: the two [Requires-Dist]
    values alone do not decide the three fields.  A [Provides-Extra]
    header with another value that follows them replaces the extras (lines
    70-71), and a [Requires] header that follows them replaces
    [requires] (lines 102-103). *)
Lemma requires_dist_example_overwritten :
  values_of
    (mkMessage [("Requires-Dist", "foo>=1.0");
                ("Requires-Dist", "bar; extra == 'dev'");
                ("Provides-Extra", "test")] "")
    "Requires-Dist" = ["foo>=1.0"; "bar; extra == 'dev'"]
  ∧ pkginfo_to_dict
      (mkMessage [("Requires-Dist", "foo>=1.0");
                  ("Requires-Dist", "bar; extra == 'dev'");
                  ("Provides-Extra", "test")] "") None
    = Ok {[ "requires" := str_list ["foo>=1.0"];
            "may_require" :=
              PList [PDict {[ "extra" := PStr "dev";
                              "dependencies" := str_list ["bar"] ]}];
            "extras" := str_list ["test"];
            "metadata_version" := PStr "2.0" ]}
  ∧ str_list ["test"] ≠ str_list ["dev"]
  ∧ values_of
      (mkMessage [("Requires-Dist", "foo>=1.0");
                  ("Requires-Dist", "bar; extra == 'dev'");
                  ("Requires", "zlib")] "")
      "Requires-Dist" = ["foo>=1.0"; "bar; extra == 'dev'"]
  ∧ pkginfo_to_dict
      (mkMessage [("Requires-Dist", "foo>=1.0");
                  ("Requires-Dist", "bar; extra == 'dev'");
                  ("Requires", "zlib")] "") None
    = Ok {[ "requires" := PStr "zlib";
            "may_require" :=
              PList [PDict {[ "extra" := PStr "dev";
                              "dependencies" := str_list ["bar"] ]}];
            "extras" := str_list ["dev"];
            "metadata_version" := PStr "2.0" ]}
  ∧ PStr "zlib" ≠ str_list ["foo>=1.0"].
Proof. split_and!; try evaluate; done. Qed.
